(** * How-are-you-doing: the mood log, its migration, aggregation and message choice

    A shallow embedding of [main.py] and [data_manager.py].

    - Text the program only compares, stores and passes on (CSV fields, day
      labels, supportive messages) is a [string]: the UTF-8 bytes of the
      Python [str].  The sparkline, whose length in characters matters, is a
      list of Unicode code points ([ustr]).
    - Python [int] is [Z]; Python [float] is the kernel's binary64 [float],
      with the IEEE operations Python uses.
    - A calendar day is its day number ([date.toordinal]) in [Z].
      [datetime.date] spans the years 1 to 9999: a subtraction that leaves
      that span raises [OverflowError], as does a [timedelta] of too many
      days.
    - An exception is a value: a computation that can raise returns a
      [result].
    - The functions of the Python library the program calls ([csv.reader],
      [csv.writer], [str.strip], [int], [date.isoformat],
      [date.fromisoformat]) are the fields of the class [Runtime]; the
      program is embedded over any such runtime.  [Ref] gives one concrete
      runtime, on which the examples are evaluated.
    - [date.today()] and the draw of [random.choice] are explicit arguments.
    - The standard input is the list of the lines [input()] will return; of
      the standard output only what a theorem speaks of is kept, as the
      value the printing function returns. *)

From Stdlib Require Import ZArith Floats Ascii String DecimalString List Lia.
From stdpp Require Import base option list gmap strings fin_maps.

Local Open Scope Z_scope.

(** ** Python values *)

(** The exceptions the embedded code can meet. *)
Inductive exn : Set :=
  | FileNotFoundError
  | OSError
  | UnicodeDecodeError
  | CsvError
  | ValueError
  | OverflowError
  | ZeroDivisionError
  | IndexError
  | KeyError.

(** The outcome of a call: a value, or a raised exception. *)
Inductive result (A : Type) : Type :=
  | Ok (a : A)
  | Raise (e : exn).
Arguments Ok {A} a.
Arguments Raise {A} e.

#[global] Instance result_ret : MRet result := λ A, @Ok A.
#[global] Instance result_bind : MBind result :=
  λ A B f m, match m with Ok a => f a | Raise e => Raise e end.
#[global] Instance result_fmap : FMap result :=
  λ A B f m, match m with Ok a => Ok (f a) | Raise e => Raise e end.

Definition is_Ok {A} (r : result A) : Prop := ∃ a, r = Ok a.

(** One CSV record, as [csv.reader] yields it and [writer.writerow] takes it. *)
Abbreviation row := (list string).

(** A [str] as its code points. *)
Abbreviation ustr := (list N).

(** How the file is opened: [open(..., newline="")] or the default, which
    translates line endings. *)
Inductive newline : Set := NewlineEmpty | NewlineDefault.

(** The Python library, as far as the program calls it.
    [csv_reader nl bytes] is the iteration of [csv.reader] over the opened
    file: the records it yields and, if the iteration ends with an exception
    (undecodable bytes, [csv.Error], an I/O error) instead of [StopIteration],
    that exception. *)
Class Runtime : Type := {
  csv_reader : newline → string → list row * option exn;
  csv_writerow : row → string;
  str_strip : string → string;
  int_of_str : string → result Z;
  date_isoformat : Z → string;
  date_fromisoformat : string → result Z
}.

(** [len(x)] as a Python [int]. *)
Definition len {A} (l : list A) : Z := Z.of_nat (length l).

(** [seq[i]] for a Python [int] index: negative indices count from the end. *)
Definition getitem {A} (l : list A) (i : Z) : result A :=
  let j := if i <? 0 then i + len l else i in
  if (0 <=? j) && (j <? len l)
  then match l !! Z.to_nat j with Some a => Ok a | None => Raise IndexError end
  else Raise IndexError.

(** [range(start, stop, step)], [step] not zero. *)
Definition py_range (start stop step : Z) : list Z :=
  let count :=
    if 0 <? step then (if start <? stop then (stop - start - 1) / step + 1 else 0)
    else (if stop <? start then (start - stop - 1) / (- step) + 1 else 0) in
  map (λ k : nat, start + Z.of_nat k * step) (seq 0 (Z.to_nat count)).

(** [min(a, b)] and [max(a, b)] on [int]: the first argument stays unless the
    second is strictly smaller (greater). *)
Definition int_min (a b : Z) : Z := if b <? a then b else a.
Definition int_max (a b : Z) : Z := if a <? b then b else a.

(** The same on [float], with the IEEE comparison (false on NaN). *)
Definition float_min (a b : float) : float := if PrimFloat.ltb b a then b else a.
Definition float_max (a b : float) : float := if PrimFloat.ltb a b then b else a.

(** The integer nearest to [m * 2^e], ties to the even one. *)
Definition round_half_even (m e : Z) : Z :=
  if 0 <=? e then m * 2 ^ e
  else
    let d := 2 ^ (- e) in
    let q := m / d in
    match (2 * (m mod d) ?= d) with
    | Lt => q
    | Gt => q + 1
    | Eq => if Z.even q then q else q + 1
    end.

(** [round(x)] on a [float]: an [int]; NaN and the infinities raise. *)
Definition py_round (x : float) : result Z :=
  match Prim2SF x with
  | S754_zero _ => Ok 0
  | S754_nan => Raise ValueError
  | S754_infinity _ => Raise OverflowError
  | S754_finite s m e => Ok (cond_Zopp s (round_half_even (Zpos m) e))
  end.

(** [a / b] on two [int]s: the binary64 nearest to the quotient (ties to
    even); a quotient beyond the largest float raises [OverflowError]. *)
Definition int_true_div (a b : Z) : result float :=
  if b =? 0 then Raise ZeroDivisionError
  else
    let s := xorb (a <? 0) (b <? 0) in
    if a =? 0 then Ok (SF2Prim (S754_zero s))
    else
      let '(q, e, l) := SFdiv_core_binary prec emax (Z.abs a) 0 (Z.abs b) 0 in
      match binary_round_aux prec emax s q e l with
      | S754_infinity _ => Raise OverflowError
      | r => Ok (SF2Prim r)
      end.

(** [random.choice(seq)]: the element at the index the generator draws, which
    is below [len(seq)]; [IndexError] on an empty sequence. *)
Definition random_choice {A} (draw : nat) (l : list A) : result A :=
  match l !! (draw mod length l)%nat with
  | Some a => Ok a
  | None => Raise IndexError
  end.

(** [d.get(k)] and [d[k]] on a dict. *)
Definition dict_get {V} (d : gmap string V) (k : string) : option V := d !! k.
Definition dict_getitem {V} (d : gmap string V) (k : string) : result V :=
  match d !! k with Some v => Ok v | None => Raise KeyError end.

(** [{k: f(k, v) for k, v in d.items()}]: the first [f] that raises ends the
    comprehension. *)
Definition dict_comprehension {V W} (f : string → V → result W)
    (d : gmap string V) : result (gmap string W) :=
  kvs ← mapM (λ kv : string * V, w ← f kv.1 kv.2; mret (kv.1, w)) (map_to_list d);
  mret (list_to_map kvs).

(** [timedelta(days=k)]: the number of days, at most 999999999 in magnitude. *)
Definition timedelta (days : Z) : result Z :=
  if Z.abs days <=? 999999999 then Ok days else Raise OverflowError.

(** [d - delta] on a [date] and a [timedelta] of whole days: the day number
    of the result lies between 1 (0001-01-01) and 3652059 (9999-12-31). *)
Definition date_sub (d delta : Z) : result Z :=
  let o := d - delta in
  if (1 <=? o) && (o <=? 3652059) then Ok o else Raise OverflowError.

(** [str(n)] on an [int]: its decimal digits, after a minus sign for a
    negative one. *)
Definition str_of_int (n : Z) : string := NilZero.string_of_int (Z.to_int n).

(** [seq[start:]] for a Python [int]: a negative [start] counts from the end,
    and a [start] beyond either end is clipped to it. *)
Definition slice_from {A} (l : list A) (start : Z) : list A :=
  let i := if start <? 0 then int_max (len l + start) 0 else int_min start (len l) in
  drop (Z.to_nat i) l.

(** [s * n] on a [str]: empty when [n] is not positive. *)
Definition str_repeat (s : ustr) (n : Z) : ustr := concat (replicate (Z.to_nat n) s).

(** A line feed. *)
Definition LF : string := String (ascii_of_nat 10) EmptyString.

(** [str.lower], which only [main] calls. *)
Class Text : Type := { str_lower : string → string }.

(** A call that reads the standard input: it returns with the lines it has
    left unread, raises, or runs into the end of the input, where [input()]
    raises [EOFError]. *)
Inductive console (A : Type) : Type :=
  | Returned (a : A) (rest : list string)
  | Raised (e : exn) (rest : list string)
  | EndOfInput.
Arguments Returned {A} a rest.
Arguments Raised {A} e rest.
Arguments EndOfInput {A}.

(** What [json.load] returns, as far as [load_messages] looks at it.  The
    document is an object, or some other value, which has no [get].  The
    value of a key is a list, a string (iterating it yields its characters),
    an object (iterating it yields its keys), or a value that cannot be
    iterated: [null], a boolean or a number.  An element of a list is given
    with what [str] makes of it: for a float, a list or an object that is
    the text [str] returns. *)
Inductive json_item : Type :=
  | JStr (s : string)
  | JInt (n : Z)
  | JBool (b : bool)
  | JNull
  | JOther (text : string).

Inductive json_value : Type :=
  | JList (items : list json_item)
  | JText (chars : list string)
  | JKeys (keys : list string)
  | JScalar.

Inductive json_document : Type :=
  | JObject (data : gmap string json_value)
  | JNotObject.

(** [str(x)] on an element. *)
Definition str_of_item (x : json_item) : string :=
  match x with
  | JStr s => s
  | JInt n => str_of_int n
  | JBool true => "True"
  | JBool false => "False"
  | JNull => "None"
  | JOther text => text
  end.

(** [list(map(str, v))]: [None] where it raises [TypeError]. *)
Definition list_map_str (v : json_value) : option (list string) :=
  match v with
  | JList items => Some (map str_of_item items)
  | JText chars => Some chars
  | JKeys keys => Some keys
  | JScalar => None
  end.

(** ** The file system

    The program touches one file, [CSV_PATH].  [csv_file] is [None] while the
    path does not exist and the file's bytes otherwise; [rewrites] counts how
    often the path was opened with mode ["w"], so that a call which leaves
    the file alone can be told from one that writes the same bytes again. *)
Record world : Type := World {
  csv_file : option string;
  rewrites : nat
}.

(** ** main.py *)
Module Main.
Section Program.
Context `{RT : Runtime}.

(** The v2 header, [["date", "score", "message", "note"]]. *)
Definition v2_header : row := ["date"; "score"; "message"; "note"]%string.

(** What a run of [writer.writerow] over [rows] leaves in a file opened with
    mode ["w"]. *)
Definition written (rows : list row) : string :=
  foldr (λ r rest, String.append (csv_writerow r) rest) EmptyString rows.

Definition rewrite_csv (rows : list row) (w : world) : world :=
  {| csv_file := Some (written rows); rewrites := S (rewrites w) |}.

(** Lines 75-78 of [upgrade_csv_schema]: open for reading, take the header
    with [next(reader, None)] and the rest with [list(reader)]. *)
Definition read_header_and_rows (w : world) : result (option row * list row) :=
  match csv_file w with
  | None => Raise FileNotFoundError
  | Some bytes =>
      match csv_reader NewlineEmpty bytes with
      | (all, None) => Ok (head all, tail all)
      | (_, Some e) => Raise e
      end
  end.

(** The body of the two writing loops: a 3-field row gets an empty note. *)
Definition add_note_column (r : row) : row :=
  match r with
  | [r0; r1; r2] => [r0; r1; r2; EmptyString]
  | _ => r
  end.

Definition upgrade_csv_schema (w : world) : result unit * world :=
  match read_header_and_rows w with
  | Raise FileNotFoundError => (Ok tt, w)
  | Raise _ => (Ok tt, w)
  | Ok (header, rows) =>
      match header with
      | None =>
          (Ok tt, rewrite_csv (v2_header :: map add_note_column rows) w)
      | Some h =>
          if len h =? 3
          then (Ok tt, rewrite_csv (v2_header :: map add_note_column rows) w)
          else (Ok tt, w)
      end
  end.

(** The built-in messages of [choose_message]. *)
Definition builtin_low : string := "再难也会过去的，你已经很棒了。".
Definition builtin_mid : string := "保持节奏，稳步向前，就是胜利。".
Definition builtin_high : string := "状态绝佳，继续发光！".

(** [messages.get(key) or [fallback]]: an absent key and an empty list both
    give the fallback. *)
Definition get_or (messages : gmap string (list string)) (key : string)
    (fallback : list string) : list string :=
  match dict_get messages key with
  | Some (m :: ms) => m :: ms
  | _ => fallback
  end.

(** Lines 124-129 of [choose_message]: the pool of the score's tier. *)
Definition tier_pool (score : Z) (messages : gmap string (list string)) : list string :=
  if score <=? 4 then get_or messages "low" [builtin_low]
  else if score <=? 7 then get_or messages "mid" [builtin_mid]
  else get_or messages "high" [builtin_high].

(** Lines 131-135: the single exclusion and the recent messages together. *)
Definition exclusions (exclude : option string) (excludes : option (gset string))
    : gset string :=
  let exclude_set : gset string := ∅ in
  let exclude_set :=
    match exclude with
    | Some e => exclude_set ∪ {[ e ]}
    | None => exclude_set
    end in
  match excludes with
  | Some s => if decide (s = ∅) then exclude_set else exclude_set ∪ s
  | None => exclude_set
  end.

Definition choose_message (draw : nat) (score : Z)
    (messages : gmap string (list string))
    (exclude : option string) (excludes : option (gset string)) : result string :=
  let pool := tier_pool score messages in
  let exclude_set := exclusions exclude excludes in
  let candidates := filter (λ m, m ∉ exclude_set) pool in
  match candidates with
  | _ :: _ => random_choice draw candidates
  | [] => random_choice draw pool
  end.

(** One turn of the loop of [read_recent_messages]. *)
Definition recent_step (cutoff today : Z) (used : gset string) (r : row) : gset string :=
  if 3 <=? len r then
    let day_str := str_strip (r !!! 0%nat) in
    match date_fromisoformat day_str with
    | Raise _ => used
    | Ok d =>
        if (cutoff <=? d) && (d <=? today) then used ∪ {[ r !!! 2%nat ]} else used
    end
  else used.

(** The cutoff is computed before the [try].  [used] is filled in place, so
    an exception that ends the iteration early returns what the rows read so
    far have put in it. *)
Definition read_recent_messages (today last_days : Z) (w : world)
    : result (gset string) :=
  let used : gset string := ∅ in
  match csv_file w with
  | None => Ok used
  | Some bytes =>
      delta ← timedelta (last_days - 1);
      cutoff ← date_sub today delta;
      let '(all, _) := csv_reader NewlineDefault bytes in
      Ok (foldl (recent_step cutoff today) used (tail all))
  end.

(** One turn of the loop of [read_all_records]. *)
Definition collect_record (out : list (string * Z)) (r : row) : list (string * Z) :=
  if 2 <=? len r then
    let day := str_strip (r !!! 0%nat) in
    match int_of_str (r !!! 1%nat) with
    | Raise _ => out
    | Ok score => out ++ [(day, score)]
    end
  else out.

Definition read_all_records (w : world) : result (list (string * Z)) :=
  match csv_file w with
  | None => Ok []
  | Some bytes =>
      let '(all, stop) := csv_reader NewlineDefault bytes in
      let out := foldl collect_record [] (tail all) in
      match stop with
      | None => Ok out
      | Some e => Raise e
      end
  end.

(** One turn of the loop of [aggregate_daily_average], on [(sums, counts)]. *)
Definition accumulate (acc : gmap string Z * gmap string Z) (rec : string * Z)
    : gmap string Z * gmap string Z :=
  let '(sums, counts) := acc in
  let '(d, s) := rec in
  (<[ d := default 0 (dict_get sums d) + s ]> sums,
   <[ d := default 0 (dict_get counts d) + 1 ]> counts).

Definition aggregate_daily_average (records : list (string * Z))
    : result (gmap string float) :=
  let '(sums, counts) := foldl accumulate (∅, ∅) records in
  dict_comprehension (λ d s, c ← dict_getitem counts d; int_true_div s c) sums.

Definition last_n_dates (today n : Z) : result (list string) :=
  days ← mapM (λ i, delta ← timedelta i; date_sub today delta) (py_range (n - 1) (-1) (-1));
  mret (map date_isoformat days).

(** [blocks = "▁▂▃▄▅▆▇█"] (U+2581 to U+2588) and the placeholder ["·"] (U+00B7). *)
Definition blocks : ustr := [9601; 9602; 9603; 9604; 9605; 9606; 9607; 9608]%N.
Definition middle_dot : ustr := [183]%N.

(** One turn of the loop of [to_sparkline]: the one-character [str] appended
    to [out_chars]. *)
Definition sparkline_char (v : option float) : result ustr :=
  match v with
  | None => Ok middle_dot
  | Some v =>
      let v := float_max 1 (float_min 10 v) in
      idx ← py_round ((v - 1) / 9 * 7)%float;
      let idx := int_max 0 (int_min (len blocks - 1) idx) in
      c ← getitem blocks idx;
      mret [c]
  end.

Definition to_sparkline (values : list (option float)) : result ustr :=
  out_chars ← mapM sparkline_char values;
  mret (concat out_chars).

(** Lines 233-239 of [show_recent_stats]: the days and aligned values the
    function goes on to print, [None] where it prints that there is no
    history and returns. *)
Definition show_recent_stats_series (today k : Z) (w : world)
    : result (option (list string * list (option float))) :=
  records ← read_all_records w;
  match records with
  | [] => mret None
  | _ :: _ =>
      daily_avg ← aggregate_daily_average records;
      days ← last_n_dates today k;
      let aligned_values := map (dict_get daily_avg) days in
      mret (Some (days, aligned_values))
  end.

(** [ensure_storage].  The directory of [CSV_PATH] is not represented, so
    [mkdir] has nothing to do. *)
Definition ensure_storage (w : world) : result unit * world :=
  match csv_file w with
  | None => (Ok tt, rewrite_csv [v2_header] w)
  | Some _ => upgrade_csv_schema w
  end.

(** The [defaults] of [load_messages]. *)
Definition default_low : list string :=
  ["再难也会过去的，你已经很棒了。"; "今天先照顾好自己，一步一步来。"]%string.
Definition default_mid : list string :=
  ["保持节奏，稳步向前，就是胜利。"; "不错的状态，给自己点掌声。"]%string.
Definition default_high : list string :=
  ["状态绝佳，继续发光！"; "保持这股劲儿，去创造更多好事。"]%string.

Definition defaults : gmap string (list string) :=
  {[ "low"%string := default_low; "mid"%string := default_mid;
     "high"%string := default_high ]}.

(** [next((p for p in CANDIDATE_MESSAGE_PATHS if p.exists()), None)], on what
    the paths hold: [None] for a path that does not exist. *)
Fixpoint first_existing {A} (candidates : list (option A)) : option A :=
  match candidates with
  | [] => None
  | Some a :: _ => Some a
  | None :: rest => first_existing rest
  end.

(** [list(map(str, data.get(key, default)))]. *)
Definition tier_of (data : gmap string json_value) (key : string)
    (default : list string) : option (list string) :=
  match data !! key with
  | Some v => list_map_str v
  | None => Some default
  end.

(** [load_messages].  Each candidate path holds nothing ([None]), a file
    that [open] or [json.load] fails on ([Some None]), or a JSON document. *)
Definition load_messages (candidates : list (option (option json_document)))
    : gmap string (list string) :=
  match first_existing candidates with
  | None => defaults
  | Some None => defaults
  | Some (Some JNotObject) => defaults
  | Some (Some (JObject data)) =>
      match tier_of data "low" default_low with
      | None => defaults
      | Some low =>
          match tier_of data "mid" default_mid with
          | None => defaults
          | Some mid =>
              match tier_of data "high" default_high with
              | None => defaults
              | Some high =>
                  {[ "low"%string := low; "mid"%string := mid; "high"%string := high ]}
              end
          end
      end
  end.

(** [ask_for_score]: one turn of the loop for each line read. *)
Fixpoint ask_for_score (lines : list string) : console Z :=
  match lines with
  | [] => EndOfInput
  | line :: rest =>
      let raw := str_strip line in
      match int_of_str raw with
      | Ok score =>
          if (1 <=? score) && (score <=? 10) then Returned score rest
          else ask_for_score rest
      | Raise ValueError => ask_for_score rest
      | Raise e => Raised e rest
      end
  end.

(** One turn of the loop of [read_existing_for_date]. *)
Definition existing_step (target_date : string) (rows : list row) (r : row) : list row :=
  if (1 <=? len r) && bool_decide (r !!! 0%nat = target_date) then rows ++ [r] else rows.

Definition read_existing_for_date (target_date : string) (w : world) : result (list row) :=
  match csv_file w with
  | None => Ok []
  | Some bytes =>
      let '(all, stop) := csv_reader NewlineDefault bytes in
      let rows := foldl (existing_step target_date) [] (tail all) in
      match stop with
      | None => Ok rows
      | Some e => Raise e
      end
  end.

(** [append_record]: mode ["a"] creates the file when the path does not exist
    and writes behind what the file holds; the writer turns the score into
    text with [str]. *)
Definition append_record (day : string) (score : Z) (message note : string) (w : world)
    : result unit * world :=
  let line := csv_writerow [day; str_of_int score; message; note] in
  (Ok tt,
   {| csv_file := Some (String.append (default EmptyString (csv_file w)) line);
      rewrites := rewrites w |}).

End Program.
End Main.

(** ** data_manager.py *)
Module DataManager.
Section Program.
Context `{RT : Runtime}.

(** One turn of the loop of [_read_all_records]. *)
Definition _collect_record (out : list (string * Z)) (r : row) : list (string * Z) :=
  if 2 <=? len r then
    let day := str_strip (r !!! 0%nat) in
    match int_of_str (r !!! 1%nat) with
    | Raise _ => out
    | Ok score => out ++ [(day, score)]
    end
  else out.

Definition _read_all_records (w : world) : result (list (string * Z)) :=
  match csv_file w with
  | None => Ok []
  | Some bytes =>
      let '(all, stop) := csv_reader NewlineDefault bytes in
      let out := foldl _collect_record [] (tail all) in
      match stop with
      | None => Ok out
      | Some e => Raise e
      end
  end.

(** One turn of the loop of [_aggregate_daily_average], on [(sums, counts)]. *)
Definition _accumulate (acc : gmap string Z * gmap string Z) (rec : string * Z)
    : gmap string Z * gmap string Z :=
  let '(sums, counts) := acc in
  let '(d, s) := rec in
  (<[ d := default 0 (dict_get sums d) + s ]> sums,
   <[ d := default 0 (dict_get counts d) + 1 ]> counts).

Definition _aggregate_daily_average (records : list (string * Z))
    : result (gmap string float) :=
  let '(sums, counts) := foldl _accumulate (∅, ∅) records in
  dict_comprehension (λ d s, c ← dict_getitem counts d; int_true_div s c) sums.

Definition _last_n_dates (today n : Z) : result (list string) :=
  days ← mapM (λ i, delta ← timedelta i; date_sub today delta) (py_range (n - 1) (-1) (-1));
  mret (map date_isoformat days).

Definition _blocks : ustr := [9601; 9602; 9603; 9604; 9605; 9606; 9607; 9608]%N.
Definition _middle_dot : ustr := [183]%N.

(** One turn of the loop of [_to_sparkline]. *)
Definition _sparkline_char (v : option float) : result ustr :=
  match v with
  | None => Ok _middle_dot
  | Some v =>
      let v := float_max 1 (float_min 10 v) in
      idx ← py_round ((v - 1) / 9 * 7)%float;
      let idx := int_max 0 (int_min (len _blocks - 1) idx) in
      c ← getitem _blocks idx;
      mret [c]
  end.

Definition _to_sparkline (values : list (option float)) : result ustr :=
  out_chars ← mapM _sparkline_char values;
  mret (concat out_chars).

Definition _read_aligned_series (today last_days : Z) (w : world)
    : result (list string * list (option float)) :=
  records ← _read_all_records w;
  match records with
  | [] => mret ([], [])
  | _ :: _ =>
      daily_avg ← _aggregate_daily_average records;
      days ← _last_n_dates today last_days;
      let aligned_values := map (dict_get daily_avg) days in
      mret (days, aligned_values)
  end.

(** Lines 60-66 of [render_trend]: [None] where it prints that there is no
    history, else the curve and the values it goes on to count and average. *)
Definition render_trend (today last_days : Z) (w : world)
    : result (option (ustr * list float)) :=
  series ← _read_aligned_series today last_days w;
  let '(days, aligned_values) := series in
  match days with
  | [] => mret None
  | _ :: _ =>
      spark ← _to_sparkline aligned_values;
      let available := omap id aligned_values in
      mret (Some (spark, available))
  end.

(** Lines 98-103 of [render_ascii_bar]: the bar of one day; ["(无)"] is
    U+0028, U+65E0, U+0029 and ["█"] is U+2588. *)
Definition no_value : ustr := [40; 26080; 41]%N.
Definition full_block : ustr := [9608]%N.

Definition bar_of (v : option float) : result ustr :=
  match v with
  | None => Ok no_value
  | Some v =>
      k ← py_round v;
      let length := int_max 1 (int_min 10 k) in
      mret (str_repeat full_block length)
  end.

(** [render_ascii_bar]: [None] where it prints that there is no history, else
    each day with the bar printed beside its label [d[-5:]]. *)
Definition render_ascii_bar (today last_days : Z) (w : world)
    : result (option (list (string * ustr))) :=
  series ← _read_aligned_series today last_days w;
  let '(days, values) := series in
  match days with
  | [] => mret None
  | _ :: _ =>
      lines ← mapM (λ dv : string * option float, bar ← bar_of dv.2; mret (dv.1, bar))
                   (zip days values);
      mret (Some lines)
  end.

(** The texts [render_diary] prints. *)
Definition no_diary : string := "暂无日记记录。".

Definition diary_heading (n : Z) : string :=
  String.append LF
    (String.append "=== 最近" (String.append (str_of_int n) "条日记 ===")).

Definition diary_entry (r : row) : string :=
  let day := r !!! 0%nat in
  let score := if 1 <? len r then r !!! 1%nat else EmptyString in
  let note := r !!! 3%nat in
  String.append day
    (String.append " (score "
      (String.append score
        (String.append ")"
          (String.append LF (String.append "- " (String.append note LF)))))).

(** [render_diary]: the arguments of its calls of [print], in order. *)
Definition render_diary (last_k : Z) (w : world) : result (list string) :=
  match csv_file w with
  | None => Ok [no_diary]
  | Some bytes =>
      let '(all, stop) := csv_reader NewlineDefault bytes in
      match stop with
      | Some e => Raise e
      | None =>
          let rows := tail all in
          let diary_rows :=
            filter (λ r : row, 4 ≤ len r ∧ str_strip (r !!! 3%nat) ≠ EmptyString) rows in
          match diary_rows with
          | [] => Ok [no_diary]
          | _ :: _ =>
              Ok (diary_heading (int_min last_k (len diary_rows))
                  :: map diary_entry (slice_from diary_rows (- last_k)))
          end
      end
  end.

End Program.
End DataManager.

(** ** main.py: the session

    [main] reads commands until it is told to stop.  A session is the log,
    the lines of the standard input still unread, and the number of calls of
    [random.choice] so far. *)
Module MainLoop.
Section Program.
Context `{RT : Runtime} `{TX : Text}.

(** [export_png] and [export_html] draw with matplotlib and plotly, which are
    not represented: of a call only whether it returns or raises is kept.
    They write beside [CSV_PATH], never to it. *)
Variable export_png export_html : Z → world → result unit.

(** The [i]-th call of [random.choice] in the session draws [draw i]. *)
Variable draw : nat → nat.

(** [date.today()], the same day throughout the session. *)
Variable today : Z.

Record session : Type := Session {
  log : world;
  stdin : list string;
  choices : nat
}.

(** How one turn of the loop ends: with [continue] or at the end of the body,
    with [return], with an exception that leaves [main], or at an [input()]
    with no line left to read. *)
Inductive outcome : Type :=
  | Continues (s : session)
  | Returns (s : session)
  | Raises (e : exn) (s : session)
  | InputEnds (s : session).

Definition session_of (o : outcome) : session :=
  match o with
  | Continues s | Returns s | Raises _ s | InputEnds s => s
  end.

Definition and_continue {A} (r : result A) (s : session) : outcome :=
  match r with
  | Ok _ => Continues s
  | Raise e => Raises e s
  end.

Definition no_words : list string := ["n"; "no"; "否"]%string.
Definition yes_words : list string := ["y"; "yes"; "是"]%string.

(** Lines 333-338: the number of days of a custom curve. *)
Definition trend_days (line : string) : Z :=
  let raw_n := str_strip line in
  let n :=
    if decide (raw_n = EmptyString) then 30
    else match int_of_str raw_n with Ok n => n | Raise _ => 30 end in
  int_max 7 (int_min 180 n).

(** Lines 350-355: the number of diary entries to show. *)
Definition diary_count (line : string) : Z :=
  let raw_k := str_strip line in
  let k :=
    if decide (raw_k = EmptyString) then 10
    else match int_of_str raw_k with Ok k => k | Raise _ => 10 end in
  int_max 1 (int_min 100 k).

(** Lines 309-342: the visualisation menu.  The import of [data_manager]
    succeeds. *)
Definition visualise (s : session) : outcome :=
  match stdin s with
  | [] => InputEnds s
  | line :: rest =>
      let s := {| log := log s; stdin := rest; choices := choices s |} in
      let sub := str_strip line in
      if decide (sub = "1"%string) then
        and_continue (DataManager.render_trend today 30 (log s)) s
      else if decide (sub = "2"%string) then
        and_continue (DataManager.render_ascii_bar today 30 (log s)) s
      else if decide (sub = "3"%string) then and_continue (export_png 30 (log s)) s
      else if decide (sub = "4"%string) then and_continue (export_html 30 (log s)) s
      else if decide (sub = "5"%string) then
        match rest with
        | [] => InputEnds s
        | line :: rest =>
            let s := {| log := log s; stdin := rest; choices := choices s |} in
            and_continue (DataManager.render_trend today (trend_days line) (log s)) s
        end
      else Continues s
  end.

(** Lines 344-359: the diary. *)
Definition diary (s : session) : outcome :=
  match stdin s with
  | [] => InputEnds s
  | line :: rest =>
      let s := {| log := log s; stdin := rest; choices := choices s |} in
      and_continue (DataManager.render_diary (diary_count line) (log s)) s
  end.

(** Lines 371-388: a score from 1 to 10 is recorded. *)
Definition record_score (messages : gmap string (list string)) (score : Z)
    (s : session) : outcome :=
  let today_str := date_isoformat today in
  match Main.read_recent_messages today 30 (log s) with
  | Raise e => Raises e s
  | Ok used_recent =>
      match Main.choose_message (draw (choices s)) score messages None (Some used_recent) with
      | Raise e => Raises e s
      | Ok msg =>
          let s := {| log := log s; stdin := stdin s; choices := S (choices s) |} in
          match stdin s with
          | [] => InputEnds s
          | line :: rest =>
              let s := {| log := log s; stdin := rest; choices := choices s |} in
              let swap := str_lower (str_strip line) in
              let picked : result (string * session) :=
                if decide (swap ∈ yes_words) then
                  new_msg ← Main.choose_message (draw (choices s)) score messages
                              (Some msg) (Some used_recent);
                  let s := {| log := log s; stdin := stdin s; choices := S (choices s) |} in
                  mret (if decide (new_msg ≠ msg) then new_msg else msg, s)
                else mret (msg, s) in
              match picked with
              | Raise e => Raises e s
              | Ok (msg, s) =>
                  match stdin s with
                  | [] => InputEnds s
                  | line :: rest =>
                      let note := str_strip line in
                      let w := (Main.append_record today_str score msg note (log s)).2 in
                      let s := {| log := w; stdin := rest; choices := choices s |} in
                      and_continue (Main.show_recent_stats_series today 7 w) s
                  end
              end
          end
      end
  end.

(** The body of the loop of [main], lines 297-388. *)
Definition main_iteration (messages : gmap string (list string)) (s : session)
    : outcome :=
  let today_str := date_isoformat today in
  match Main.read_existing_for_date today_str (log s) with
  | Raise e => Raises e s
  | Ok existing =>
      match stdin s with
      | [] => InputEnds s
      | line :: rest =>
          let s := {| log := log s; stdin := rest; choices := choices s |} in
          let raw := str_strip line in
          let key := str_lower raw in
          if decide (key ∈ no_words) then Returns s
          else if decide (key = "v"%string) then visualise s
          else if decide (key = "d"%string) then diary s
          else
            match int_of_str raw with
            | Raise _ => Continues s
            | Ok score =>
                if (1 <=? score) && (score <=? 10) then record_score messages score s
                else Continues s
            end
      end
  end.

(** [while True], for at most [fuel] turns. *)
Fixpoint main_loop (fuel : nat) (messages : gmap string (list string)) (s : session)
    : option outcome :=
  match fuel with
  | O => None
  | S fuel =>
      match main_iteration messages s with
      | Continues s' => main_loop fuel messages s'
      | o => Some o
      end
  end.

(** [main], on what the candidate paths of the message bank hold, the log and
    the lines of the standard input. *)
Definition main (fuel : nat) (candidates : list (option (option json_document)))
    (w : world) (lines : list string) : option outcome :=
  let w := (Main.ensure_storage w).2 in
  let messages := Main.load_messages candidates in
  main_loop fuel messages {| log := w; stdin := lines; choices := 0 |}.

End Program.
End MainLoop.

(** ** A reference runtime

    Concrete models of the library functions, on which the examples are
    evaluated: the [csv] module with its default ([excel]) dialect, and the
    ASCII fragment of [str.strip] and [int]. *)
Module Ref.

Definition CR : ascii := ascii_of_nat 13.
Definition LF : ascii := ascii_of_nat 10.
Definition comma : ascii := ascii_of_nat 44.
Definition quote : ascii := ascii_of_nat 34.

Definition string_of_rev (cs : list ascii) : string :=
  fold_left (λ s c, String c s) cs EmptyString.

(** The states of the reader's automaton; [AfterCR] is the state past a
    carriage return that ended a record, where a line feed still belongs to
    the same line ending. *)
Inductive csv_state : Set :=
  | StartRecord | StartField | InField | InQuotedField | QuoteInQuotedField | AfterCR.

Definition save_field (field : list ascii) (fields : list string) : list string :=
  string_of_rev field :: fields.

Definition end_record (c : ascii) (fields : list string)
    : csv_state * list ascii * list string * option row :=
  (if Ascii.eqb c CR then AfterCR else StartRecord, [], [], Some (rev fields)).

Definition is_eol (c : ascii) : bool := Ascii.eqb c CR || Ascii.eqb c LF.

(** One character in state [StartField]. *)
Definition start_field (field : list ascii) (fields : list string) (c : ascii)
    : csv_state * list ascii * list string * option row :=
  if is_eol c then end_record c (save_field field fields)
  else if Ascii.eqb c quote then (InQuotedField, field, fields, None)
  else if Ascii.eqb c comma then (StartField, [], save_field field fields, None)
  else (InField, c :: field, fields, None).

Definition start_record (c : ascii)
    : csv_state * list ascii * list string * option row :=
  if is_eol c then end_record c [] else start_field [] [] c.

Definition csv_step (st : csv_state) (field : list ascii) (fields : list string)
    (c : ascii) : csv_state * list ascii * list string * option row :=
  match st with
  | AfterCR =>
      if Ascii.eqb c LF then (StartRecord, [], [], None) else start_record c
  | StartRecord => start_record c
  | StartField => start_field field fields c
  | InField =>
      if is_eol c then end_record c (save_field field fields)
      else if Ascii.eqb c comma then (StartField, [], save_field field fields, None)
      else (InField, c :: field, fields, None)
  | InQuotedField =>
      if Ascii.eqb c quote then (QuoteInQuotedField, field, fields, None)
      else (InQuotedField, c :: field, fields, None)
  | QuoteInQuotedField =>
      if Ascii.eqb c quote then (InQuotedField, c :: field, fields, None)
      else if Ascii.eqb c comma then (StartField, [], save_field field fields, None)
      else if is_eol c then end_record c (save_field field fields)
      else (InField, c :: field, fields, None)
  end.

Fixpoint csv_parse (st : csv_state) (field : list ascii) (fields : list string)
    (s : string) : list row :=
  match s with
  | EmptyString =>
      match st with
      | StartRecord | AfterCR => []
      | _ => [rev (save_field field fields)]
      end
  | String c s' =>
      match csv_step st field fields c with
      | (st', field', fields', Some r) => r :: csv_parse st' field' fields' s'
      | (st', field', fields', None) => csv_parse st' field' fields' s'
      end
  end.

(** The default text mode: every line ending becomes a line feed. *)
Fixpoint translate_newlines (after_cr : bool) (s : string) : string :=
  match s with
  | EmptyString => EmptyString
  | String c s' =>
      if Ascii.eqb c CR then String LF (translate_newlines true s')
      else if Ascii.eqb c LF && after_cr then translate_newlines false s'
      else String c (translate_newlines false s')
  end.

(** The file is opened with [encoding="utf-8"].  [utf8_valid pending lo hi s]:
    [s] continues a well-formed UTF-8 text in which [pending] continuation
    bytes are still due, the next of them between [lo] and [hi]. *)
Fixpoint utf8_valid (pending lo hi : nat) (s : string) : bool :=
  match s with
  | EmptyString => (pending =? 0)%nat
  | String c s' =>
      let b := nat_of_ascii c in
      match pending with
      | S k => (lo <=? b)%nat && (b <=? hi)%nat && utf8_valid k 128 191 s'
      | O =>
          if (b <? 128)%nat then utf8_valid 0 128 191 s'
          else if (194 <=? b)%nat && (b <=? 223)%nat then utf8_valid 1 128 191 s'
          else if (b =? 224)%nat then utf8_valid 2 160 191 s'
          else if (b =? 237)%nat then utf8_valid 2 128 159 s'
          else if (225 <=? b)%nat && (b <=? 239)%nat then utf8_valid 2 128 191 s'
          else if (b =? 240)%nat then utf8_valid 3 144 191 s'
          else if (241 <=? b)%nat && (b <=? 243)%nat then utf8_valid 3 128 191 s'
          else if (b =? 244)%nat then utf8_valid 3 128 143 s'
          else false
      end
  end.

(** Bytes that are not UTF-8 raise on the first read, before any record
    (the whole of a small file is decoded at once). *)
Definition reader (nl : newline) (bytes : string) : list row * option exn :=
  if utf8_valid 0 128 191 bytes then
    let text :=
      match nl with
      | NewlineEmpty => bytes
      | NewlineDefault => translate_newlines false bytes
      end in
    (csv_parse StartRecord [] [] text, None)
  else ([], Some UnicodeDecodeError).

(** [writer.writerow]: minimal quoting, line terminator CR LF. *)
Fixpoint needs_quotes (s : string) : bool :=
  match s with
  | EmptyString => false
  | String c s' =>
      Ascii.eqb c comma || Ascii.eqb c quote || is_eol c || needs_quotes s'
  end.

Fixpoint double_quotes (s : string) : string :=
  match s with
  | EmptyString => EmptyString
  | String c s' =>
      if Ascii.eqb c quote then String c (String c (double_quotes s'))
      else String c (double_quotes s')
  end.

Definition write_field (s : string) : string :=
  if needs_quotes s
  then String quote (String.append (double_quotes s) (String quote EmptyString))
  else s.

Definition CRLF : string := String CR (String LF EmptyString).

Definition writerow (r : row) : string :=
  match r with
  | [f] =>
      if String.eqb f EmptyString
      then String quote (String quote CRLF)
      else String.append (write_field f) CRLF
  | _ =>
      String.append (String.concat (String comma EmptyString) (map write_field r)) CRLF
  end.

(** [str.strip()], for the white space of ASCII. *)
Definition is_space (c : ascii) : bool :=
  let n := nat_of_ascii c in
  ((9 <=? n)%nat && (n <=? 13)%nat) || ((28 <=? n)%nat && (n <=? 32)%nat).

Fixpoint lstrip (s : string) : string :=
  match s with
  | EmptyString => EmptyString
  | String c s' => if is_space c then lstrip s' else s
  end.

Definition string_rev (s : string) : string :=
  string_of_rev (list_ascii_of_string s).

Definition strip (s : string) : string :=
  string_rev (lstrip (string_rev (lstrip s))).

(** [int(s)] in base 10: white space around, a sign, and decimal digits that
    single underscores may separate. *)
Definition digit_of (c : ascii) : option Z :=
  let n := nat_of_ascii c in
  if (48 <=? n)%nat && (n <=? 57)%nat then Some (Z.of_nat (n - 48)) else None.

(** [after_digit]: the character before was a digit (an underscore may
    follow, and the literal may end). *)
Fixpoint parse_digits (acc : Z) (after_digit : bool) (s : string) : result Z :=
  match s with
  | EmptyString => if after_digit then Ok acc else Raise ValueError
  | String c s' =>
      match digit_of c with
      | Some d => parse_digits (10 * acc + d) true s'
      | None =>
          if Ascii.eqb c (ascii_of_nat 95) && after_digit
          then parse_digits acc false s'
          else Raise ValueError
      end
  end.

Definition int (s : string) : result Z :=
  match strip s with
  | String c s' =>
      if Ascii.eqb c (ascii_of_nat 45) then Z.opp <$> parse_digits 0 false s'
      else if Ascii.eqb c (ascii_of_nat 43) then parse_digits 0 false s'
      else parse_digits 0 false (String c s')
  | EmptyString => Raise ValueError
  end.

(** The proleptic Gregorian calendar: day number 1 is 0001-01-01. *)
Definition civil_of_ordinal (n : Z) : Z * Z * Z :=
  let z := n + 305 in
  let era := z / 146097 in
  let doe := z - era * 146097 in
  let yoe := (doe - doe / 1460 + doe / 36524 - doe / 146096) / 365 in
  let doy := doe - (365 * yoe + yoe / 4 - yoe / 100) in
  let mp := (5 * doy + 2) / 153 in
  let d := doy - (153 * mp + 2) / 5 + 1 in
  let m := if mp <? 10 then mp + 3 else mp - 9 in
  let y := yoe + era * 400 + (if m <=? 2 then 1 else 0) in
  (y, m, d).

Definition ordinal_of_civil (y m d : Z) : Z :=
  let y' := if m <=? 2 then y - 1 else y in
  let era := y' / 400 in
  let yoe := y' - era * 400 in
  let mp := if 2 <? m then m - 3 else m + 9 in
  let doy := (153 * mp + 2) / 5 + d - 1 in
  let doe := yoe * 365 + yoe / 4 - yoe / 100 + doy in
  era * 146097 + doe - 305.

Definition digit_char (d : Z) : ascii := ascii_of_nat (48 + Z.to_nat (d mod 10)).

Definition two_digits (n : Z) : string :=
  String (digit_char (n / 10)) (String (digit_char n) EmptyString).

Definition four_digits (n : Z) : string :=
  String.append (two_digits (n / 100)) (two_digits n).

Definition dash : string := String (ascii_of_nat 45) EmptyString.

Definition isoformat (n : Z) : string :=
  let '(y, m, d) := civil_of_ordinal n in
  String.append (four_digits y)
    (String.append dash (String.append (two_digits m) (String.append dash (two_digits d)))).

Definition is_leap (y : Z) : bool :=
  (y mod 4 =? 0) && (negb (y mod 100 =? 0) || (y mod 400 =? 0)).

Definition days_in_month (y m : Z) : Z :=
  if m =? 2 then (if is_leap y then 29 else 28)
  else if (m =? 4) || (m =? 6) || (m =? 9) || (m =? 11) then 30
  else 31.

Definition number_of (cs : list ascii) : option Z :=
  foldl (λ acc c, a ← acc; d ← digit_of c; Some (10 * a + d)) (Some 0) cs.

(** [date.fromisoformat] on the form YYYY-MM-DD. *)
Definition fromisoformat (s : string) : result Z :=
  match list_ascii_of_string s with
  | [y1; y2; y3; y4; s1; m1; m2; s2; d1; d2] =>
      match number_of [y1; y2; y3; y4], number_of [m1; m2], number_of [d1; d2] with
      | Some y, Some m, Some d =>
          if Ascii.eqb s1 (ascii_of_nat 45) && Ascii.eqb s2 (ascii_of_nat 45)
             && (1 <=? y) && (1 <=? m) && (m <=? 12)
             && (1 <=? d) && (d <=? days_in_month y m)
          then Ok (ordinal_of_civil y m d)
          else Raise ValueError
      | _, _, _ => Raise ValueError
      end
  | _ => Raise ValueError
  end.

#[global] Instance runtime : Runtime := {|
  csv_reader := reader;
  csv_writerow := writerow;
  str_strip := strip;
  int_of_str := int;
  date_isoformat := isoformat;
  date_fromisoformat := fromisoformat
|}.

(** [str.lower], for the letters of ASCII. *)
Definition lower_char (c : ascii) : ascii :=
  let n := nat_of_ascii c in
  if (65 <=? n)%nat && (n <=? 90)%nat then ascii_of_nat (n + 32) else c.

Fixpoint lower (s : string) : string :=
  match s with
  | EmptyString => EmptyString
  | String c s' => String (lower_char c) (lower s')
  end.

#[global] Instance text : Text := {| str_lower := lower |}.

End Ref.

(** ** The vocabulary of the theorems *)

(** A file that [writer.writerow] began with the v2 header reads back, when it
    reads without an exception, with that header as its first record. *)
Definition header_reads_back `{RT : Runtime} : Prop :=
  ∀ (rest : string) (all : list row),
    csv_reader NewlineEmpty (String.append (csv_writerow Main.v2_header) rest) = (all, None) →
    head all = Some Main.v2_header.

(** The records after the header that a read of [CSV_PATH] yields; none when
    the path does not exist. *)
Definition data_rows `{RT : Runtime} (w : world) : list row :=
  match csv_file w with
  | None => []
  | Some bytes => tail (csv_reader NewlineDefault bytes).1
  end.

(** The parsed records of a list of data rows: one (day, score) pair for each
    row with 2 fields or more whose score field [int] accepts. *)
Definition parsed_records `{RT : Runtime} (rows : list row) : list (string * Z) :=
  omap (λ r : row,
          if decide (2 ≤ length r)%nat then
            match int_of_str (r !!! 1%nat) with
            | Ok score => Some (str_strip (r !!! 0%nat), score)
            | Raise _ => None
            end
          else None) rows.

(** A row puts its message into the recent set: it has 3 fields or more, its
    stripped date field parses, and the day lies in the window. *)
Definition in_window `{RT : Runtime} (cutoff today : Z) (r : row) (m : string) : Prop :=
  (3 ≤ length r)%nat
  ∧ ∃ d : Z, date_fromisoformat (str_strip (r !!! 0%nat)) = Ok d
             ∧ cutoff ≤ d ≤ today
             ∧ r !!! 2%nat = m.

(** The days [datetime.date] can hold, as day numbers. *)
Definition is_date (d : Z) : Prop := 1 ≤ d ≤ 3652059.

(** The cutoff of a window of [last_days] days that ends on [today] can be
    computed: [timedelta] accepts the number of days, and the subtraction
    gives a date. *)
Definition window_in_range (today last_days : Z) : Prop :=
  Z.abs (last_days - 1) ≤ 999999999 ∧ is_date (today - (last_days - 1)).

(** The scores recorded for day [d], in file order; the sum of a list of
    scores; the mean of a day's scores, divided as [aggregate_daily_average]
    divides. *)
Definition scores_of (d : string) (records : list (string * Z)) : list Z :=
  (filter (λ r : string * Z, r.1 = d) records).*2.

Definition sum_of (scores : list Z) : Z := foldr Z.add 0 scores.

Definition mean_of (scores : list Z) : result float :=
  int_true_div (sum_of scores) (len scores).

(** Line 225 of [to_sparkline]: [max(1.0, min(10.0, float(v)))]. *)
Definition clamp (v : float) : float := float_max 1 (float_min 10 v).

(** The glyph [to_sparkline] gives one element of the series. *)
Definition glyph_of (v : option float) : N :=
  match v with
  | None => 183%N
  | Some v =>
      match py_round ((clamp v - 1) / 9 * 7)%float with
      | Ok k => nth (Z.to_nat (Z.max 0 (Z.min 7 k))) Main.blocks 0%N
      | Raise _ => 0%N
      end
  end.

(** The exponent of the binary64 format for a number of magnitude [2^e], and
    the floats that are a zero or finite with exponent at most [K]. *)
Definition fexp64 (e : Z) : Z := Z.max (e - 53) (-1074).

Definition small (K : Z) (x : spec_float) : Prop :=
  match x with
  | S754_zero _ => True
  | S754_finite _ _ e => e ≤ K
  | _ => False
  end.

(** The rows of the log [render_diary] keeps: 4 fields or more, and a note
    that is not blank. *)
Definition diary_rows `{RT : Runtime} (rows : list row) : list row :=
  filter (λ r : row, (4 ≤ length r)%nat ∧ str_strip (r !!! 3%nat) ≠ EmptyString) rows.

(** A line [ask_for_score] accepts as the score [score]. *)
Definition accepted `{RT : Runtime} (line : string) (score : Z) : Prop :=
  int_of_str (str_strip line) = Ok score ∧ 1 ≤ score ≤ 10.

(** A line after which [ask_for_score] asks again: no integer, or an integer
    outside 1 to 10. *)
Definition rejected `{RT : Runtime} (line : string) : Prop :=
  int_of_str (str_strip line) = Raise ValueError
  ∨ ∃ n : Z, int_of_str (str_strip line) = Ok n ∧ ¬ (1 ≤ n ≤ 10).

(** The tiers of the message bank with their default lists. *)
Definition tiers : list (string * list string) :=
  [("low"%string, Main.default_low); ("mid"%string, Main.default_mid);
   ("high"%string, Main.default_high)].

(** What the first existing candidate path holds when [load_messages] gives
    up on it: a file that does not load, a document that is no object, or an
    object with a tier that cannot be iterated. *)
Definition unusable (c : option json_document) : Prop :=
  c = None ∨ c = Some JNotObject
  ∨ ∃ data key default,
      c = Some (JObject data) ∧ (key, default) ∈ tiers ∧ data !! key = Some JScalar.

(** A row that [main] writes for a score entered on [today]: the day, a score
    from 1 to 10, a message of the score's tier, and a note. *)
Definition recorded `{RT : Runtime} (today : Z) (messages : gmap string (list string))
    (r : row) : Prop :=
  ∃ (score : Z) (msg note : string),
    r = [date_isoformat today; str_of_int score; msg; note]
    ∧ 1 ≤ score ≤ 10
    ∧ msg ∈ Main.tier_pool score messages.

(** The file after [rows] were appended to it, one [writerow] each. *)
Definition appended `{RT : Runtime} (before : option string) (rows : list row)
    : option string :=
  match rows with
  | [] => before
  | _ :: _ => Some (String.append (default EmptyString before) (Main.written rows))
  end.

(** The inputs of [main] that are commands. *)
Definition commands : list string := MainLoop.no_words ++ ["v"; "d"]%string.

(** The bar of [render_ascii_bar] for a mean that rounds to [r]. *)
Definition bar_blocks (r : Z) : ustr := replicate (Z.to_nat (Z.max 1 (Z.min 10 r))) 9608%N.

(** The bar printed for one element of the series. *)
Definition bar_shows (v : option float) (bar : ustr) : Prop :=
  match v with
  | None => bar = DataManager.no_value
  | Some q => ∃ r : Z, py_round q = Ok r ∧ bar = bar_blocks r
  end.

(** ** The inputs of the examples *)

(** The v1 file with the single row [["2024-01-01", "5", "hi"]], written with
    the reference writer. *)
Definition v1_example : world :=
  {| csv_file :=
       Some (Main.written (RT := Ref.runtime)
               [["date"; "score"; "message"]; ["2024-01-01"; "5"; "hi"]]%string);
     rewrites := 0 |}.

(** A log as [ensure_storage] creates it: the v2 header and no record. *)
Definition fresh_log : world :=
  {| csv_file := Some (Main.written (RT := Ref.runtime) [Main.v2_header]);
     rewrites := 0 |}.

(** A file of one byte that is no UTF-8 text. *)
Definition undecodable : world :=
  {| csv_file := Some (String (ascii_of_nat 255) EmptyString); rewrites := 0 |}.

(** A log with a short row, a row whose score is no integer, and three good
    rows, two of them on the same day. *)
Definition ragged_rows : list row :=
  [Main.v2_header;
   ["2024-01-01"; "5"; "hi"; ""];
   ["2024-01-02"];
   ["2024-01-02"; "five"; "hi"; ""];
   [" 2024-01-03 "; "8"; "ho"; "a note"];
   ["2024-01-03"; "3"; "hi"; ""]]%string.

Definition ragged_log : world :=
  {| csv_file := Some (Main.written (RT := Ref.runtime) ragged_rows); rewrites := 0 |}.

(** 2024-01-03 as a day number. *)
Definition jan_3_2024 : Z := 738888.

(** An exporter that returns without raising. *)
Definition quiet : Z → world → result unit := λ _ _, Ok tt.

(** ** Schema migration *)

Lemma ref_header_reads_back : header_reads_back (RT := Ref.runtime).
Proof.
  intros rest all. cbn [csv_reader csv_writerow Ref.runtime].
  unfold Ref.reader.
  destruct (Ref.utf8_valid _ _ _ _); [|discriminate].
  intros [= <-]. reflexivity.
Qed.

Lemma read_missing_file `{RT : Runtime} (w : world) :
  csv_file w = None → Main.read_header_and_rows w = Raise FileNotFoundError.
Proof. intros H. unfold Main.read_header_and_rows. by rewrite H. Qed.

Lemma read_reader_failure `{RT : Runtime} (w : world) bytes all e :
  csv_file w = Some bytes → csv_reader NewlineEmpty bytes = (all, Some e) →
  Main.read_header_and_rows w = Raise e.
Proof. intros H1 H2. unfold Main.read_header_and_rows. by rewrite H1, H2. Qed.

Lemma read_success `{RT : Runtime} (w : world) bytes all :
  csv_file w = Some bytes → csv_reader NewlineEmpty bytes = (all, None) →
  Main.read_header_and_rows w = Ok (head all, tail all).
Proof. intros H1 H2. unfold Main.read_header_and_rows. by rewrite H1, H2. Qed.

Lemma upgrade_after_failure `{RT : Runtime} (w : world) (e : exn) :
  Main.read_header_and_rows w = Raise e →
  Main.upgrade_csv_schema w = (Ok tt, w).
Proof.
  intros Hread. unfold Main.upgrade_csv_schema. rewrite Hread.
  by destruct e.
Qed.

(** C3: when reading [CSV_PATH] fails (the path does not exist, or the
    reader raises on the file, whatever it yielded before),
    [upgrade_csv_schema] returns normally and leaves the file as it was,
    without opening it for writing. *)
Theorem upgrade_read_failure_keeps_file `{RT : Runtime} (w : world) :
  csv_file w = None
  ∨ (∃ bytes all e,
        csv_file w = Some bytes ∧ csv_reader NewlineEmpty bytes = (all, Some e)) →
  Main.upgrade_csv_schema w = (Ok tt, w).
Proof.
  intros [Hnone | (bytes & all & e & Hfile & Hread)].
  - eapply upgrade_after_failure, read_missing_file, Hnone.
  - eapply upgrade_after_failure, read_reader_failure; eauto.
Qed.

Lemma upgrade_read_failure_witness :
  Main.upgrade_csv_schema (RT := Ref.runtime) undecodable = (Ok tt, undecodable)
  ∧ Main.upgrade_csv_schema (RT := Ref.runtime) (World None 0) = (Ok tt, World None 0).
Proof.
  split.
  - apply (upgrade_read_failure_keeps_file (RT := Ref.runtime) undecodable).
    right. exists (String (ascii_of_nat 255) EmptyString), [], UnicodeDecodeError.
    split; reflexivity.
  - apply (upgrade_read_failure_keeps_file (RT := Ref.runtime) (World None 0)).
    left. reflexivity.
Defined.

(** The second run of a migration that rewrote the file finds the v2 header. *)
Lemma upgrade_rewritten_stable `{RT : Runtime} (rows : list row) (w : world) :
  header_reads_back →
  Main.upgrade_csv_schema (Main.rewrite_csv (Main.v2_header :: rows) w)
  = (Ok tt, Main.rewrite_csv (Main.v2_header :: rows) w).
Proof.
  intros Hback. unfold Main.upgrade_csv_schema, Main.read_header_and_rows.
  cbn [csv_file Main.rewrite_csv Main.written foldr].
  destruct (csv_reader NewlineEmpty _) as [all [e|]] eqn:Hread.
  - by destruct e.
  - apply Hback in Hread. rewrite Hread. reflexivity.
Qed.

(** What a run does to the world: nothing, or one rewrite that starts with
    the v2 header. *)
Lemma upgrade_cases `{RT : Runtime} (w : world) :
  Main.upgrade_csv_schema w = (Ok tt, w)
  ∨ ∃ rows, Main.upgrade_csv_schema w = (Ok tt, Main.rewrite_csv (Main.v2_header :: rows) w).
Proof.
  unfold Main.upgrade_csv_schema.
  destruct (Main.read_header_and_rows w) as [[header rows]|e].
  - destruct header as [h|]; [destruct (len h =? 3)|]; eauto.
  - left. by destruct e.
Qed.

(** C2: [upgrade_csv_schema] is idempotent.  After a first run, a second run
    returns without opening the file for writing, so the bytes on disk are
    those the first run left; and a file whose header has four or more fields
    is not rewritten by the first run either. *)
Theorem upgrade_idempotent `{RT : Runtime} :
  header_reads_back →
  (∀ w : world,
      let w1 := (Main.upgrade_csv_schema w).2 in
      Main.upgrade_csv_schema w1 = (Ok tt, w1))
  ∧ (∀ (w : world) bytes h rows stop,
        csv_file w = Some bytes →
        csv_reader NewlineEmpty bytes = (h :: rows, stop) →
        4 ≤ len h →
        Main.upgrade_csv_schema w = (Ok tt, w)).
Proof.
  intros Hback. split.
  - intros w w1. subst w1.
    destruct (upgrade_cases w) as [Hsame | [rows Hrew]].
    + rewrite Hsame. exact Hsame.
    + rewrite Hrew. cbn [snd]. by apply upgrade_rewritten_stable.
  - intros w bytes h rows stop Hfile Hread Hlen.
    unfold Main.upgrade_csv_schema, Main.read_header_and_rows.
    rewrite Hfile, Hread. destruct stop as [e|]; [by destruct e|].
    cbn [head]. destruct (Z.eqb_spec (len h) 3); [lia | reflexivity].
Qed.

Lemma upgrade_idempotent_witness :
  Main.upgrade_csv_schema (RT := Ref.runtime)
    (Main.upgrade_csv_schema (RT := Ref.runtime) v1_example).2
  = (Ok tt, (Main.upgrade_csv_schema (RT := Ref.runtime) v1_example).2).
Proof.
  exact (proj1 (upgrade_idempotent (RT := Ref.runtime) ref_header_reads_back) v1_example).
Defined.

Lemma add_note_column_spec (r : row) :
  Main.add_note_column r = if decide (length r = 3%nat) then r ++ [EmptyString] else r.
Proof. by destruct r as [|r0 [|r1 [|r2 [|r3 r]]]]. Qed.

(** C6: a file whose header has exactly 3 fields is rewritten once: the v2
    header (4 fields) first, then every data row in order, a 3-field row with
    an empty 4th field appended and any other row as it was.  For the v1 file
    with the single row 2024-01-01,5,hi the migrated file reads back with the
    4-column header, and [read_all_records] yields [("2024-01-01", 5)]. *)
Theorem upgrade_v1_file :
  (∀ (RT : Runtime) (w : world) bytes h rows,
      csv_file w = Some bytes →
      csv_reader NewlineEmpty bytes = (h :: rows, None) →
      length h = 3%nat →
      Main.upgrade_csv_schema w
      = (Ok tt,
         {| csv_file :=
              Some (Main.written
                      (Main.v2_header
                       :: map (λ r, if decide (length r = 3%nat)
                                    then r ++ [EmptyString] else r) rows));
            rewrites := S (rewrites w) |})
      ∧ length Main.v2_header = 4%nat)
  ∧ (let w1 := (Main.upgrade_csv_schema (RT := Ref.runtime) v1_example).2 in
     csv_reader (Runtime := Ref.runtime) NewlineEmpty <$> csv_file w1
     = Some ([["date"; "score"; "message"; "note"];
              ["2024-01-01"; "5"; "hi"; ""]]%string, None)
     ∧ Main.read_all_records (RT := Ref.runtime) w1 = Ok [("2024-01-01"%string, 5)]).
Proof.
  split.
  - intros RT w bytes h rows Hfile Hread Hlen. split; [|reflexivity].
    unfold Main.upgrade_csv_schema.
    rewrite (read_success w bytes (h :: rows) Hfile Hread). cbn [head tail].
    unfold len. rewrite Hlen. cbn [Z.of_nat Z.eqb Pos.of_succ_nat Pos.succ Pos.eqb].
    unfold Main.rewrite_csv.
    by rewrite (map_ext _ _ add_note_column_spec rows).
  - vm_compute. split; reflexivity.
Qed.

Lemma upgrade_v1_file_witness :
  Main.upgrade_csv_schema (RT := Ref.runtime) v1_example
  = (Ok tt,
     {| csv_file :=
          Some (Main.written (RT := Ref.runtime)
                  [Main.v2_header; ["2024-01-01"; "5"; "hi"; ""]%string]);
        rewrites := 1 |}).
Proof.
  refine (proj1 (proj1 upgrade_v1_file Ref.runtime v1_example _
                   ["date"; "score"; "message"]%string
                   [["2024-01-01"; "5"; "hi"]%string] _ _ _));
    reflexivity.
Defined.

(** ** Reading the log *)

(** The loop of [read_all_records] keeps, in order, the rows its turn keeps. *)
Lemma foldl_collect_record `{RT : Runtime} (rows : list row) (out : list (string * Z)) :
  foldl Main.collect_record out rows
  = out ++ omap (λ r : row,
                   if decide (2 ≤ length r)%nat then
                     match int_of_str (r !!! 1%nat) with
                     | Ok score => Some (str_strip (r !!! 0%nat), score)
                     | Raise _ => None
                     end
                   else None) rows.
Proof.
  revert out. induction rows as [|r rows IH]; intros out; cbn [foldl omap list_omap].
  - by rewrite app_nil_r.
  - rewrite IH. unfold Main.collect_record, len.
    destruct (decide (2 ≤ length r)%nat) as [Hle|Hgt].
    + destruct (Z.leb_spec 2 (Z.of_nat (length r))); [|lia].
      destruct (int_of_str _); [|done]. by rewrite <- app_assoc.
    + destruct (Z.leb_spec 2 (Z.of_nat (length r))); [lia|done].
Qed.

(** C7: on a file the reader reads to its end, [read_all_records] returns,
    in file order, one (day, score) pair for each data row (each record after
    the header) that has at least 2 fields and whose score field [int]
    accepts; every other row is skipped without an exception.  A missing file
    gives the empty list.  An exception of the reader itself is not caught:
    it leaves [read_all_records], whatever rows were read before it.
    [_read_all_records] does the same. *)
Theorem read_all_records_rows `{RT : Runtime} :
  (∀ w : world, csv_file w = None → Main.read_all_records w = Ok [])
  ∧ (∀ (w : world) bytes all,
        csv_file w = Some bytes →
        csv_reader NewlineDefault bytes = (all, None) →
        Main.read_all_records w
        = Ok (omap (λ r : row,
                      if decide (2 ≤ length r)%nat then
                        match int_of_str (r !!! 1%nat) with
                        | Ok score => Some (str_strip (r !!! 0%nat), score)
                        | Raise _ => None
                        end
                      else None) (tail all)))
  ∧ (∀ (w : world) bytes all (e : exn),
        csv_file w = Some bytes →
        csv_reader NewlineDefault bytes = (all, Some e) →
        Main.read_all_records w = Raise e)
  ∧ (∀ w : world, DataManager._read_all_records w = Main.read_all_records w).
Proof.
  split; [|split; [|split]].
  - intros w Hfile. unfold Main.read_all_records. by rewrite Hfile.
  - intros w bytes all Hfile Hread. unfold Main.read_all_records.
    rewrite Hfile, Hread. by rewrite foldl_collect_record.
  - intros w bytes all e Hfile Hread. unfold Main.read_all_records.
    by rewrite Hfile, Hread.
  - reflexivity.
Qed.

Lemma read_all_records_rows_witness :
  Main.read_all_records (RT := Ref.runtime) ragged_log
  = Ok [("2024-01-01"%string, 5); ("2024-01-03"%string, 8); ("2024-01-03"%string, 3)]
  ∧ Main.read_all_records (RT := Ref.runtime) (World None 0) = Ok [].
Proof.
  split.
  - exact (proj1 (proj2 (read_all_records_rows (RT := Ref.runtime))) ragged_log
             (Main.written (RT := Ref.runtime) ragged_rows) ragged_rows
             eq_refl eq_refl).
  - apply (proj1 (read_all_records_rows (RT := Ref.runtime))). reflexivity.
Defined.

(** On a file whose bytes are no UTF-8 text, [read_all_records] raises:
    nothing is skipped and no list is returned. *)
Lemma read_all_records_undecodable :
  Main.read_all_records (RT := Ref.runtime) undecodable = Raise UnicodeDecodeError
  ∧ ¬ (∃ records : list (string * Z),
          Main.read_all_records (RT := Ref.runtime) undecodable = Ok records).
Proof.
  assert (Main.read_all_records (RT := Ref.runtime) undecodable = Raise UnicodeDecodeError)
    as H by (vm_compute; reflexivity).
  split; [exact H|]. intros [records Hr]. rewrite H in Hr. discriminate.
Qed.

Lemma recent_step_spec `{RT : Runtime} cutoff today (used : gset string) (r : row) m :
  m ∈ Main.recent_step cutoff today used r ↔ m ∈ used ∨ in_window cutoff today r m.
Proof.
  unfold Main.recent_step, in_window, len.
  destruct (Z.leb_spec 3 (Z.of_nat (length r))) as [Hlen|Hlen].
  - destruct (date_fromisoformat _) as [d|e] eqn:Hd.
    + destruct (Z.leb_spec cutoff d), (Z.leb_spec d today); cbn [andb].
      * rewrite elem_of_union, elem_of_singleton. split.
        -- intros [?| ->]; [by left|]. right. split; [lia|]. exists d. repeat split; done.
        -- intros [?|(_ & d' & [= <-] & _ & <-)]; [by left|by right].
      * split; [by left|]. intros [?|(_ & d' & [= <-] & ? & _)]; [done|lia].
      * split; [by left|]. intros [?|(_ & d' & [= <-] & ? & _)]; [done|lia].
      * split; [by left|]. intros [?|(_ & d' & [= <-] & ? & _)]; [done|lia].
    + split; [by left|]. intros [?|(_ & d' & ? & _)]; [done|congruence].
  - split; [by left|]. intros [?|(? & _)]; [done|lia].
Qed.

Lemma foldl_recent_step `{RT : Runtime} cutoff today (rows : list row) (used : gset string) m :
  m ∈ foldl (Main.recent_step cutoff today) used rows
  ↔ m ∈ used ∨ ∃ r, r ∈ rows ∧ in_window cutoff today r m.
Proof.
  revert used. induction rows as [|r rows IH]; intros used; cbn [foldl].
  - split; [by left|]. intros [?|(r & Hr & _)]; [done|]. by apply elem_of_nil in Hr.
  - rewrite IH, recent_step_spec. split.
    + intros [[?|?]|(r' & ? & ?)]; [by left| |].
      * right. exists r. split; [left|done].
      * right. exists r'. split; [by right|done].
    + intros [?|(r' & Hr' & ?)]; [by left; left|].
      apply elem_of_cons in Hr' as [-> |?]; [by left; right|].
      right. by exists r'.
Qed.

Lemma cutoff_in_range (today last_days : Z) :
  window_in_range today last_days →
  (delta ← timedelta (last_days - 1); date_sub today delta) = Ok (today - (last_days - 1)).
Proof.
  intros [Hdelta [Hlo Hhi]]. unfold timedelta, date_sub.
  destruct (Z.leb_spec (Z.abs (last_days - 1)) 999999999); [|lia].
  cbn [mbind result_bind].
  destruct (Z.leb_spec 1 (today - (last_days - 1))); [|lia].
  destruct (Z.leb_spec (today - (last_days - 1)) 3652059); [|lia]. done.
Qed.

Lemma cutoff_out_of_range (today last_days : Z) :
  ¬ window_in_range today last_days →
  (delta ← timedelta (last_days - 1); date_sub today delta) = Raise OverflowError.
Proof.
  intros Hout. unfold timedelta, date_sub.
  destruct (Z.leb_spec (Z.abs (last_days - 1)) 999999999); [|done].
  cbn [mbind result_bind].
  destruct (Z.leb_spec 1 (today - (last_days - 1))); [|done].
  destruct (Z.leb_spec (today - (last_days - 1)) 3652059); [|done].
  destruct Hout. unfold window_in_range, is_date. lia.
Qed.

(** What [read_recent_messages] returns on a file that exists, for a window
    whose cutoff is a date. *)
Lemma read_recent_messages_read `{RT : Runtime} (today last_days : Z) (w : world)
    bytes :
  csv_file w = Some bytes →
  window_in_range today last_days →
  Main.read_recent_messages today last_days w
  = Ok (foldl (Main.recent_step (today - (last_days - 1)) today) ∅
          (tail (csv_reader NewlineDefault bytes).1)).
Proof.
  intros Hfile Hwin. unfold Main.read_recent_messages. rewrite Hfile.
  pose proof (cutoff_in_range today last_days Hwin) as Hcut.
  destruct (timedelta (last_days - 1)) as [delta|e]; cbn [mbind result_bind] in *;
    [|done].
  rewrite Hcut. by destruct (csv_reader NewlineDefault bytes).
Qed.

(** C5: for a window whose cutoff [today - (last_days - 1)] is a date, and
    for every window when the file does not exist, the recent-message set
    holds exactly the message texts (3rd field) of the data rows with at
    least 3 fields whose stripped date field parses to a day [d] with
    [today - (last_days - 1) <= d <= today].  No other field is looked at
    (the score tier plays no part), and the result is a set: membership is
    all there is to it.  On a file that exists, a window whose cutoff is no
    date raises [OverflowError]. *)
Theorem read_recent_messages_window `{RT : Runtime} (today last_days : Z) (w : world) :
  (window_in_range today last_days ∨ csv_file w = None →
   ∃ used : gset string,
     Main.read_recent_messages today last_days w = Ok used
     ∧ ∀ m : string,
         m ∈ used
         ↔ ∃ (r : row) (d : Z),
             r ∈ data_rows w
             ∧ (3 ≤ length r)%nat
             ∧ date_fromisoformat (str_strip (r !!! 0%nat)) = Ok d
             ∧ today - (last_days - 1) ≤ d ≤ today
             ∧ r !!! 2%nat = m)
  ∧ (¬ window_in_range today last_days →
     csv_file w ≠ None →
     Main.read_recent_messages today last_days w = Raise OverflowError).
Proof.
  split.
  - intros Hcase. unfold data_rows.
    destruct (csv_file w) as [bytes|] eqn:Hfile.
    + destruct Hcase as [Hwin|]; [|done].
      rewrite (read_recent_messages_read today last_days w bytes Hfile Hwin).
      eexists. split; [reflexivity|]. intros m.
      rewrite foldl_recent_step. unfold in_window. split.
      * intros [H|(r & Hr & Hlen & d & Hd & Hwin' & Hm)];
          [by apply not_elem_of_empty in H|].
        exists r, d. repeat split; tauto.
      * intros (r & d & Hr & Hlen & Hd & Hwin' & Hm). right. exists r.
        split; [done|]. split; [done|]. exists d. repeat split; tauto.
    + exists ∅. unfold Main.read_recent_messages. rewrite Hfile.
      split; [done|]. intros m. split.
      * intros H. by apply not_elem_of_empty in H.
      * intros (r & d & Hr & _). by apply elem_of_nil in Hr.
  - intros Hout Hfile. unfold Main.read_recent_messages.
    destruct (csv_file w) as [bytes|]; [|done].
    pose proof (cutoff_out_of_range today last_days Hout) as Hcut.
    destruct (timedelta (last_days - 1)) as [delta|e]; cbn [mbind result_bind] in *;
      [rewrite Hcut; reflexivity|by injection Hcut as ->].
Qed.

Lemma read_recent_messages_window_witness :
  ∃ used : gset string,
    Main.read_recent_messages (RT := Ref.runtime) jan_3_2024 2 ragged_log = Ok used
    ∧ ∀ m : string,
        m ∈ used
        ↔ ∃ (r : row) (d : Z),
            r ∈ data_rows (RT := Ref.runtime) ragged_log
            ∧ (3 ≤ length r)%nat
            ∧ date_fromisoformat (Runtime := Ref.runtime)
                (str_strip (Runtime := Ref.runtime) (r !!! 0%nat)) = Ok d
            ∧ jan_3_2024 - (2 - 1) ≤ d ≤ jan_3_2024
            ∧ r !!! 2%nat = m.
Proof.
  apply (proj1 (read_recent_messages_window (RT := Ref.runtime) jan_3_2024 2 ragged_log)).
  left. unfold window_in_range, is_date, jan_3_2024. lia.
Defined.

(** A window of a million days reaches before the year 1: on a log that
    exists [read_recent_messages] raises and returns no set. *)
Lemma read_recent_messages_beyond_dates :
  Main.read_recent_messages (RT := Ref.runtime) jan_3_2024 1000000 ragged_log
  = Raise OverflowError
  ∧ ¬ (∃ used : gset string,
          Main.read_recent_messages (RT := Ref.runtime) jan_3_2024 1000000 ragged_log
          = Ok used).
Proof.
  assert (Main.read_recent_messages (RT := Ref.runtime) jan_3_2024 1000000 ragged_log
          = Raise OverflowError) as H.
  { vm_compute. reflexivity. }
  split; [exact H|]. intros [used Hu]. rewrite H in Hu. discriminate.
Qed.

(** ** Choosing a message *)

Lemma exclusions_spec (exclude : option string) (excludes : option (gset string)) x :
  x ∈ Main.exclusions exclude excludes
  ↔ exclude = Some x ∨ ∃ s, excludes = Some s ∧ x ∈ s.
Proof.
  assert (x ∈ Main.exclusions exclude None ↔ exclude = Some x) as Hsingle.
  { unfold Main.exclusions. destruct exclude as [e|].
    - rewrite elem_of_union, elem_of_empty, elem_of_singleton.
      split; [intros [[]| ->]; done | intros [= ->]; by right].
    - rewrite elem_of_empty. split; [done|discriminate]. }
  destruct excludes as [s|].
  - assert (x ∈ Main.exclusions exclude (Some s) ↔ x ∈ Main.exclusions exclude None ∨ x ∈ s)
      as ->.
    { unfold Main.exclusions. destruct (decide (s = ∅)) as [-> |_].
      - rewrite (elem_of_empty (C := gset string) x). tauto.
      - by rewrite elem_of_union. }
    rewrite Hsingle. split.
    + intros [?|?]; [by left|right; eauto].
    + intros [?|(s' & [= <-] & ?)]; [by left|by right].
  - rewrite Hsingle. split; [by left|]. intros [?|(s' & [=] & _)]. done.
Qed.

Lemma random_choice_member {A} (draw : nat) (l : list A) :
  l ≠ [] → ∃ a, random_choice draw l = Ok a ∧ a ∈ l.
Proof.
  intros Hne. unfold random_choice.
  assert (draw mod length l < length l)%nat as Hlt.
  { apply Nat.mod_upper_bound. destruct l; [done|]. cbn. lia. }
  destruct (lookup_lt_is_Some_2 l _ Hlt) as [a Ha]. rewrite Ha.
  exists a. split; [done|]. by eapply list_elem_of_lookup_2.
Qed.

Lemma tier_pool_nonempty (score : Z) (messages : gmap string (list string)) :
  Main.tier_pool score messages ≠ [].
Proof.
  unfold Main.tier_pool, Main.get_or, dict_get.
  repeat case_match; done.
Qed.

Lemma choose_message_from_pool (draw : nat) (score : Z)
    (messages : gmap string (list string))
    (exclude : option string) (excludes : option (gset string)) :
  ∃ m, Main.choose_message draw score messages exclude excludes = Ok m
       ∧ m ∈ Main.tier_pool score messages
       ∧ ((∃ x, x ∈ Main.tier_pool score messages ∧ x ∉ Main.exclusions exclude excludes)
          → m ∉ Main.exclusions exclude excludes).
Proof.
  unfold Main.choose_message.
  destruct (filter _ (Main.tier_pool score messages)) as [|c cs] eqn:Hcand.
  - destruct (random_choice_member draw _ (tier_pool_nonempty score messages))
      as (m & Hm & Hin).
    exists m. repeat split; [done..|]. intros (x & Hx & Hnot).
    assert (x ∈ filter (λ m, m ∉ Main.exclusions exclude excludes)
                  (Main.tier_pool score messages)) as Hf
      by (by apply list_elem_of_filter).
    rewrite Hcand in Hf. by apply elem_of_nil in Hf.
  - destruct (random_choice_member draw (c :: cs)) as (m & Hm & Hin); [done|].
    exists m. rewrite <- Hcand in Hin. apply list_elem_of_filter in Hin as [Hnot Hin].
    repeat split; done.
Qed.

(** C4: [choose_message] never raises.  What it returns is a message of the
    tier's pool [P]; when some message of [P] is neither the single
    exclusion nor in the exclusion set, the returned one is neither; when
    every message of [P] is excluded it is still a message of [P].  Every
    non-empty list is a tier's pool, and a pool of 2 messages that are both
    excluded still yields one of the 2. *)
Theorem choose_message_avoids_exclusions :
  (∀ (draw : nat) (score : Z) (messages : gmap string (list string))
     (exclude : option string) (excludes : option (gset string)),
      let P := Main.tier_pool score messages in
      let excluded (m : string) := exclude = Some m ∨ ∃ S, excludes = Some S ∧ m ∈ S in
      ∃ m, Main.choose_message draw score messages exclude excludes = Ok m
           ∧ m ∈ P
           ∧ ((∃ x, x ∈ P ∧ ¬ excluded x) → ¬ excluded m))
  ∧ (∀ P : list string, P ≠ [] → Main.tier_pool 1 {[ "low"%string := P ]} = P)
  ∧ (∀ (draw : nat) (a b : string) (exclude : option string),
      ∃ m, Main.choose_message draw 1 {[ "low"%string := [a; b] ]}
             exclude (Some {[ a; b ]}) = Ok m
           ∧ (m = a ∨ m = b)).
Proof.
  split; [|split].
  - intros draw score messages exclude excludes P excluded.
    destruct (choose_message_from_pool draw score messages exclude excludes)
      as (m & Hm & Hin & Hnot).
    exists m. split; [done|]. split; [done|].
    intros (x & Hx & Hfree). unfold excluded in *.
    rewrite <- exclusions_spec. apply Hnot. exists x. split; [done|].
    by rewrite exclusions_spec.
  - intros P HP. unfold Main.tier_pool, Main.get_or, dict_get. cbn [Z.leb Z.compare].
    rewrite lookup_singleton_eq. by destruct P.
  - intros draw a b exclude.
    destruct (choose_message_from_pool draw 1 {[ "low"%string := [a; b] ]}
                exclude (Some {[ a; b ]})) as (m & Hm & Hin & _).
    exists m. split; [done|].
    unfold Main.tier_pool, Main.get_or, dict_get in Hin. cbn [Z.leb Z.compare] in Hin.
    rewrite lookup_singleton_eq in Hin.
    apply elem_of_cons in Hin as [?|Hin]; [by left|].
    apply list_elem_of_singleton in Hin. by right.
Qed.

(** C8: the tier follows the score: [low] up to 4, [mid] from 5 to 7, [high]
    from 8 on, which covers 1 to 10 without gap or overlap; the message
    returned is one of the tier's list in the message bank, or the tier's
    built-in message when that list is empty or the bank has no such key. *)
Theorem choose_message_tier (draw : nat) (score : Z)
    (messages : gmap string (list string))
    (exclude : option string) (excludes : option (gset string)) :
  1 ≤ score ≤ 10 →
  ∃ (key builtin : string),
    (score ≤ 4 ∧ key = "low"%string ∧ builtin = Main.builtin_low
     ∨ 5 ≤ score ≤ 7 ∧ key = "mid"%string ∧ builtin = Main.builtin_mid
     ∨ 8 ≤ score ∧ key = "high"%string ∧ builtin = Main.builtin_high)
    ∧ ∃ m, Main.choose_message draw score messages exclude excludes = Ok m
           ∧ match messages !! key with
             | Some (x :: pool) => m ∈ x :: pool
             | Some [] | None => m = builtin
             end.
Proof.
  intros Hscore.
  destruct (choose_message_from_pool draw score messages exclude excludes)
    as (m & Hm & Hin & _).
  unfold Main.tier_pool, Main.get_or, dict_get in Hin.
  destruct (Z.leb_spec score 4); [|destruct (Z.leb_spec score 7)].
  - exists "low"%string, Main.builtin_low. split; [by left|].
    exists m. split; [done|]. destruct (messages !! "low"%string) as [[|x l]|];
      [by apply list_elem_of_singleton in Hin | done | by apply list_elem_of_singleton in Hin].
  - exists "mid"%string, Main.builtin_mid. split; [right; left; split; [lia|done]|].
    exists m. split; [done|]. destruct (messages !! "mid"%string) as [[|x l]|];
      [by apply list_elem_of_singleton in Hin | done | by apply list_elem_of_singleton in Hin].
  - exists "high"%string, Main.builtin_high. split; [right; right; split; [lia|done]|].
    exists m. split; [done|]. destruct (messages !! "high"%string) as [[|x l]|];
      [by apply list_elem_of_singleton in Hin | done | by apply list_elem_of_singleton in Hin].
Qed.

Lemma choose_message_tier_witness :
  ∃ (key builtin : string),
    (5 ≤ 4 ∧ key = "low"%string ∧ builtin = Main.builtin_low
     ∨ 5 ≤ 5 ≤ 7 ∧ key = "mid"%string ∧ builtin = Main.builtin_mid
     ∨ 8 ≤ 5 ∧ key = "high"%string ∧ builtin = Main.builtin_high)
    ∧ ∃ m, Main.choose_message 0 5 {[ "low"%string := ["a"%string] ]} None None = Ok m
           ∧ match ({[ "low"%string := ["a"%string] ]} : gmap string (list string)) !! key with
             | Some (x :: pool) => m ∈ x :: pool
             | Some [] | None => m = builtin
             end.
Proof.
  apply (choose_message_tier 0 5 {[ "low"%string := ["a"%string] ]} None None). lia.
Defined.

(** ** The two copies of the reporting helpers *)

(** C10: the helpers of [data_manager.py] compute what their namesakes in
    [main.py] compute, on every log, record list, day and series. *)
Theorem data_manager_helpers_agree `{RT : Runtime} :
  (∀ w : world, DataManager._read_all_records w = Main.read_all_records w)
  ∧ (∀ records : list (string * Z),
        DataManager._aggregate_daily_average records = Main.aggregate_daily_average records)
  ∧ (∀ today n : Z, DataManager._last_n_dates today n = Main.last_n_dates today n)
  ∧ (∀ values : list (option float),
        DataManager._to_sparkline values = Main.to_sparkline values).
Proof. repeat split. Qed.

(** ** Binary64 arithmetic stays finite on small operands *)

(** Binary digits: [Zdigits2 m] is the length of [m] in bits. *)
Lemma digits2_pos_bounds (p : positive) :
  2 ^ (Zpos (digits2_pos p) - 1) ≤ Zpos p < 2 ^ Zpos (digits2_pos p).
Proof.
  induction p as [p IH|p IH|]; cbn [digits2_pos].
  - rewrite Pos2Z.inj_succ.
    replace (Z.succ (Zpos (digits2_pos p)) - 1) with (Z.succ (Zpos (digits2_pos p) - 1)) by lia.
    rewrite !Z.pow_succ_r by lia. lia.
  - rewrite Pos2Z.inj_succ.
    replace (Z.succ (Zpos (digits2_pos p)) - 1) with (Z.succ (Zpos (digits2_pos p) - 1)) by lia.
    rewrite !Z.pow_succ_r by lia. lia.
  - cbn. lia.
Qed.

Lemma Zdigits2_nonneg (m : Z) : 0 ≤ Zdigits2 m.
Proof. destruct m; cbn; lia. Qed.

Lemma Zdigits2_upper (m : Z) : 0 ≤ m → m < 2 ^ Zdigits2 m.
Proof.
  destruct m as [|p|p]; intros Hm; [cbn; lia| |lia].
  apply digits2_pos_bounds.
Qed.

Lemma Zdigits2_le (m k : Z) : 0 ≤ m → 0 ≤ k → m < 2 ^ k → Zdigits2 m ≤ k.
Proof.
  destruct m as [|p|p]; intros Hm Hk Hlt; [cbn; lia| |lia].
  cbn [Zdigits2]. destruct (digits2_pos_bounds p) as [Hlo _].
  destruct (Z.le_gt_cases (Zpos (digits2_pos p)) k) as [|Hgt]; [done|].
  assert (2 ^ k ≤ 2 ^ (Zpos (digits2_pos p) - 1)) by (apply Z.pow_le_mono_r; lia).
  lia.
Qed.

(** Shifting a mantissa right drops its low bits. *)
Lemma shr_1_m (mrs : shr_record) :
  0 ≤ shr_m mrs → shr_m (shr_1 mrs) = Z.shiftr (shr_m mrs) 1.
Proof.
  destruct mrs as [m r s]. cbn [shr_m]. intros Hm.
  destruct m as [|[p|p|]|p]; try reflexivity; lia.
Qed.

Lemma shiftr_nonneg' (a n : Z) : 0 ≤ a → 0 ≤ Z.shiftr a n.
Proof. intros. by apply Z.shiftr_nonneg. Qed.

Lemma iter_shr_1_m (n : positive) (mrs : shr_record) :
  0 ≤ shr_m mrs →
  shr_m (SpecFloat.iter_pos shr_1 n mrs) = Z.shiftr (shr_m mrs) (Zpos n).
Proof.
  revert mrs. induction n as [n IH|n IH|]; intros mrs Hm; cbn [SpecFloat.iter_pos].
  - assert (0 ≤ shr_m (shr_1 mrs)) as H1
      by (rewrite shr_1_m by done; by apply Z.shiftr_nonneg).
    assert (0 ≤ shr_m (SpecFloat.iter_pos shr_1 n (shr_1 mrs))) as H2
      by (rewrite IH by done; by apply Z.shiftr_nonneg).
    rewrite IH, IH, shr_1_m by done.
    rewrite !Z.shiftr_shiftr by lia. f_equal. lia.
  - assert (0 ≤ shr_m (SpecFloat.iter_pos shr_1 n mrs)) as H2
      by (rewrite IH by done; by apply Z.shiftr_nonneg).
    rewrite IH, IH by done.
    rewrite !Z.shiftr_shiftr by lia. f_equal. lia.
  - by apply shr_1_m.
Qed.

Lemma fexp_64 (e : Z) : fexp prec emax e = fexp64 e.
Proof. reflexivity. Qed.

(** [shr_fexp] on a mantissa that is not negative: the exponent rises to
    the format's, and what is left of the mantissa fits 53 bits. *)
Lemma shr_fexp_bounds (m e : Z) (l : location) :
  0 ≤ m →
  ∃ mrs, shr_fexp prec emax m e l = (mrs, Z.max e (fexp64 (Zdigits2 m + e)))
         ∧ 0 ≤ shr_m mrs < 2 ^ 53
         ∧ shr_m mrs ≤ m.
Proof.
  intros Hm. unfold shr_fexp, shr. rewrite fexp_64.
  pose proof (Zdigits2_upper m Hm) as Hup. pose proof (Zdigits2_nonneg m) as Hd.
  assert (shr_m (shr_record_of_loc m l) = m) as Hrec by (by destruct l as [|[]]).
  destruct (fexp64 (Zdigits2 m + e) - e) as [|n|n] eqn:Hn.
  - eexists. split; [f_equal; unfold fexp64 in *; lia|]. rewrite Hrec.
    assert (Zdigits2 m ≤ 53) by (unfold fexp64 in *; lia).
    assert (2 ^ Zdigits2 m ≤ 2 ^ 53) by (apply Z.pow_le_mono_r; lia). lia.
  - eexists. split; [f_equal; unfold fexp64 in *; lia|].
    rewrite iter_shr_1_m, Hrec by (rewrite Hrec; done).
    rewrite Z.shiftr_div_pow2 by lia.
    assert (0 < 2 ^ Zpos n) by (apply Z.pow_pos_nonneg; lia).
    assert (Zdigits2 m ≤ Zpos n + 53) by (unfold fexp64 in *; lia).
    assert (2 ^ Zdigits2 m ≤ 2 ^ (Zpos n + 53)) by (apply Z.pow_le_mono_r; lia).
    rewrite Z.pow_add_r in * by lia.
    split; [split|].
    + apply Z.div_pos; lia.
    + apply Z.div_lt_upper_bound; lia.
    + apply Z.div_le_upper_bound; nia.
  - eexists. split; [f_equal; unfold fexp64 in *; lia|]. rewrite Hrec.
    assert (Zdigits2 m ≤ 53) by (unfold fexp64 in *; lia).
    assert (2 ^ Zdigits2 m ≤ 2 ^ 53) by (apply Z.pow_le_mono_r; lia). lia.
Qed.

Lemma round_nearest_even_bounds (m : Z) (l : location) :
  m ≤ round_nearest_even m l ≤ m + 1.
Proof. unfold round_nearest_even. destruct l as [|[]]; try destruct (Z.even m); lia. Qed.

Lemma binary_round_aux_small (sx : bool) (mx ex : Z) (lx : location) (K : Z) :
  0 ≤ mx →
  Z.max ex (fexp64 (Zdigits2 mx + ex)) + 1 ≤ K →
  K ≤ 971 →
  small K (binary_round_aux prec emax sx mx ex lx).
Proof.
  intros Hmx HK HK'. unfold binary_round_aux.
  destruct (shr_fexp_bounds mx ex lx Hmx) as (mrs1 & -> & Hm1 & _).
  pose proof (round_nearest_even_bounds (shr_m mrs1) (loc_of_shr_record mrs1)) as Hr.
  set (m2 := round_nearest_even _ _) in *.
  set (B := Z.max ex _) in *.
  destruct (shr_fexp_bounds m2 B loc_Exact ltac:(lia)) as (mrs2 & -> & Hm2 & _).
  assert (Zdigits2 m2 ≤ 54) by (apply Zdigits2_le; [lia..|]; change (2 ^ 54) with (2 * 2 ^ 53); lia).
  assert (-1074 ≤ B) by (unfold B, fexp64; lia).
  destruct (shr_m mrs2) as [|p|p] eqn:Hp; cbn [small]; [done| |lia].
  change (emax - prec) with 971.
  destruct (Z.leb_spec (Z.max B (fexp64 (Zdigits2 m2 + B))) 971) as [?|Hbad]; cbn [small];
    unfold fexp64 in *; lia.
Qed.

Lemma small_mono (K K' : Z) (x : spec_float) : K ≤ K' → small K x → small K' x.
Proof. destruct x; cbn; lia. Qed.

Lemma valid_finite_bounds (s : bool) (m : positive) (e : Z) :
  valid_binary (S754_finite s m e) = true →
  Zdigits2 (Zpos m) ≤ 53 ∧ -1074 ≤ e ≤ 971.
Proof.
  cbn [SpecFloat.valid_binary Zdigits2]. unfold bounded, canonical_mantissa.
  rewrite fexp_64. change (emax - prec) with 971.
  intros [H1 H2]%andb_prop. apply Z.eqb_eq in H1. apply Z.leb_le in H2.
  unfold fexp64 in H1. lia.
Qed.

Lemma fexp64_mono (a b : Z) : a ≤ b → fexp64 a ≤ fexp64 b.
Proof. unfold fexp64. lia. Qed.

Lemma pow2_pos (k : Z) : 0 ≤ k → 0 < 2 ^ k.
Proof. intros. apply Z.pow_pos_nonneg; lia. Qed.

(** Multiplication. *)
Lemma SFmul_small (K1 K2 K : Z) (x y : spec_float) :
  valid_binary x = true → valid_binary y = true →
  small K1 x → small K2 y →
  K1 + K2 + 54 ≤ K → -1073 ≤ K → K ≤ 971 →
  small K (SFmul prec emax x y).
Proof.
  intros Hvx Hvy Hx Hy HK HK1 HK2.
  destruct x as [sx|sx| |sx mx ex], y as [sy|sy| |sy my ey]; try done.
  cbn [SFmul small] in *.
  apply valid_finite_bounds in Hvx as [Hdx Hex], Hvy as [Hdy Hey].
  apply binary_round_aux_small; [lia| |done].
  assert (Zdigits2 (Zpos (mx * my)) ≤ Zdigits2 (Zpos mx) + Zdigits2 (Zpos my)) as Hd.
  { pose proof (Zdigits2_upper (Zpos mx) ltac:(lia)).
    pose proof (Zdigits2_upper (Zpos my) ltac:(lia)).
    pose proof (Zdigits2_nonneg (Zpos mx)). pose proof (Zdigits2_nonneg (Zpos my)).
    apply Zdigits2_le; [lia..|]. rewrite Z.pow_add_r, Pos2Z.inj_mul by lia. nia. }
  pose proof (fexp64_mono (Zdigits2 (Zpos (mx * my)) + (ex + ey)) (106 + (ex + ey))
                ltac:(lia)).
  unfold fexp64 in *. lia.
Qed.

(** Alignment to a smaller exponent. *)
Lemma iter_xO (m d : positive) : Zpos (Pos.iter xO m d) = Zpos m * 2 ^ Zpos d.
Proof.
  induction d as [|d IH] using Pos.peano_ind.
  - cbn. lia.
  - rewrite Pos.iter_succ, Pos2Z.inj_succ, Z.pow_succ_r, Pos2Z.inj_xO, IH by lia. lia.
Qed.

Lemma shl_align_spec (m : positive) (e e' : Z) :
  ∃ mz ez, shl_align m e e' = (mz, ez)
           ∧ ez = Z.min e e'
           ∧ Zpos mz = Zpos m * 2 ^ (e - ez).
Proof.
  unfold shl_align. destruct (e' - e) as [|d|d] eqn:Hd; eexists _, _; (split; [done|]).
  - split; [lia|]. replace (e - e) with 0 by lia. lia.
  - split; [lia|]. replace (e - e) with 0 by lia. lia.
  - split; [lia|]. rewrite iter_xO. f_equal. f_equal. lia.
Qed.

Lemma binary_round_small (s : bool) (m : positive) (e K : Z) :
  Z.max e (fexp64 (Zdigits2 (Zpos m) + e)) + 1 ≤ K → K ≤ 971 →
  small K (binary_round prec emax s m e).
Proof.
  intros HK HK'. unfold binary_round. rewrite fexp_64.
  destruct (shl_align_spec m e (fexp64 (Zpos (digits2_pos m) + e))) as (mz & ez & -> & Hez & Hmz).
  apply binary_round_aux_small; [lia| |done].
  change (Zpos (digits2_pos m)) with (Zdigits2 (Zpos m)) in *.
  assert (Zdigits2 (Zpos mz) + ez ≤ Zdigits2 (Zpos m) + e) as Hd.
  { pose proof (Zdigits2_upper (Zpos m) ltac:(lia)).
    pose proof (Zdigits2_nonneg (Zpos m)).
    assert (Zdigits2 (Zpos mz) ≤ Zdigits2 (Zpos m) + (e - ez)); [|lia].
    apply Zdigits2_le; [lia..|]. rewrite Hmz, Z.pow_add_r by lia.
    pose proof (pow2_pos (e - ez) ltac:(lia)). nia. }
  pose proof (fexp64_mono _ _ Hd). lia.
Qed.

(** Subtraction. *)
Lemma SFsub_small (K1 K2 K : Z) (x y : spec_float) :
  valid_binary x = true → valid_binary y = true →
  small K1 x → small K2 y →
  Z.max K1 K2 + 2 ≤ K → -1073 ≤ K → K ≤ 971 →
  small K (SFsub prec emax x y).
Proof.
  intros Hvx Hvy Hx Hy HK HK1 HK2.
  destruct x as [sx|sx| |sx mx ex], y as [sy|sy| |sy my ey]; try done;
    cbn [SFsub small] in *; try lia.
  { by destruct sx, sy. }
  apply valid_finite_bounds in Hvx as [Hdx Hex], Hvy as [Hdy Hey].
  destruct (shl_align_spec mx ex (Z.min ex ey)) as (ax & ez1 & -> & Hez1 & Hax).
  destruct (shl_align_spec my ey (Z.min ex ey)) as (ay & ez2 & -> & Hez2 & Hay).
  cbn [fst].
  set (ez := Z.min ex ey) in *.
  set (M := cond_Zopp sx (Zpos ax) - cond_Zopp sy (Zpos ay)).
  assert (Z.abs M < 2 ^ (Z.max ex ey + 54 - ez)) as HM.
  { pose proof (Zdigits2_upper (Zpos mx) ltac:(lia)).
    pose proof (Zdigits2_upper (Zpos my) ltac:(lia)).
    pose proof (Zdigits2_nonneg (Zpos mx)). pose proof (Zdigits2_nonneg (Zpos my)).
    assert (Zpos ax < 2 ^ (Z.max ex ey + 53 - ez)).
    { rewrite Hax. replace (Z.max ex ey + 53 - ez) with (53 + (Z.max ex ey - ez)) by lia.
      rewrite Z.pow_add_r by lia.
      assert (2 ^ Zdigits2 (Zpos mx) ≤ 2 ^ 53) by (apply Z.pow_le_mono_r; lia).
      assert (2 ^ (ex - ez1) ≤ 2 ^ (Z.max ex ey - ez)) by (apply Z.pow_le_mono_r; lia).
      pose proof (pow2_pos (ex - ez1) ltac:(lia)). nia. }
    assert (Zpos ay < 2 ^ (Z.max ex ey + 53 - ez)).
    { rewrite Hay. replace (Z.max ex ey + 53 - ez) with (53 + (Z.max ex ey - ez)) by lia.
      rewrite Z.pow_add_r by lia.
      assert (2 ^ Zdigits2 (Zpos my) ≤ 2 ^ 53) by (apply Z.pow_le_mono_r; lia).
      assert (2 ^ (ey - ez2) ≤ 2 ^ (Z.max ex ey - ez)) by (apply Z.pow_le_mono_r; lia).
      pose proof (pow2_pos (ey - ez2) ltac:(lia)). nia. }
    replace (Z.max ex ey + 54 - ez) with (Z.succ (Z.max ex ey + 53 - ez)) by lia.
    rewrite Z.pow_succ_r by lia.
    unfold M. destruct sx, sy; cbn [cond_Zopp]; lia. }
  assert (∀ s p, Z.abs M = Zpos p → small K (binary_round prec emax s p ez)) as Hround.
  { intros s p Hp. apply binary_round_small; [|done].
    assert (Zdigits2 (Zpos p) ≤ Z.max ex ey + 54 - ez) as Hd
      by (apply Zdigits2_le; lia).
    pose proof (fexp64_mono (Zdigits2 (Zpos p) + ez) (Z.max ex ey + 54) ltac:(lia)).
    unfold fexp64 in *. lia. }
  unfold binary_normalize. destruct M as [|p|p] eqn:HMv; [done|..]; apply Hround; lia.
Qed.

Lemma Zdigits2_lower (m : Z) : 0 < m → 2 ^ (Zdigits2 m - 1) ≤ m.
Proof.
  destruct m as [|p|p]; intros Hm; [lia| |lia].
  apply digits2_pos_bounds.
Qed.

(** The quotient of two positive mantissas, rounded. *)
Lemma div_core_small (s : bool) (m1 e1 m2 e2 K : Z) :
  0 < m1 → 0 < m2 →
  Z.max (e1 - e2) (fexp64 (Zdigits2 m1 + e1 - (Zdigits2 m2 + e2) + 1)) + 1 ≤ K →
  K ≤ 971 →
  small K (let '(q, e', l) := SFdiv_core_binary prec emax m1 e1 m2 e2 in
           binary_round_aux prec emax s q e' l).
Proof.
  intros Hm1 Hm2 HK HK'.
  unfold SFdiv_core_binary. rewrite fexp_64.
  set (e' := Z.min _ _).
  assert (e' ≤ e1 - e2) as He' by (unfold e'; lia).
  set (m' := match e1 - e2 - e' with Z0 => m1 | Zpos _ => _ | Zneg _ => _ end).
  pose proof (Zdigits2_upper m1 ltac:(lia)) as Hup1.
  pose proof (Zdigits2_nonneg m1) as Hd1.
  pose proof (Zdigits2_lower m2 Hm2) as Hlo2.
  assert (0 < Zdigits2 m2) as Hd2 by (destruct m2; cbn; lia).
  assert (0 ≤ m' ∧ m' < 2 ^ (Zdigits2 m1 + (e1 - e2 - e'))) as [Hm'lo Hm'].
  { unfold m'. destruct (e1 - e2 - e') as [|k|k] eqn:Hs; [| |lia].
    - rewrite Z.add_0_r. lia.
    - rewrite Z.shiftl_mul_pow2, Z.pow_add_r by lia.
      pose proof (pow2_pos (Zpos k) ltac:(lia)). nia. }
  destruct (Z.div_eucl m' m2) as [q r] eqn:Hdiv.
  assert (q = m' / m2) as Hq by (unfold Z.div; by rewrite Hdiv).
  assert (0 ≤ q) as Hq0 by (subst q; apply Z.div_pos; lia).
  set (D := Zdigits2 m1 + (e1 - e2 - e') - Zdigits2 m2 + 1).
  assert (Zdigits2 q ≤ Z.max 0 D) as Hdq.
  { destruct (Z.le_gt_cases 0 D) as [HD|HD].
    - apply Zdigits2_le; [lia..|]. rewrite Z.max_r by lia. subst q.
      apply Z.div_lt_upper_bound; [lia|].
      assert (2 ^ (Zdigits2 m1 + (e1 - e2 - e')) = 2 ^ D * 2 ^ (Zdigits2 m2 - 1)) as Hsplit
        by (rewrite <- Z.pow_add_r by lia; f_equal; lia).
      pose proof (pow2_pos D HD). nia.
    - assert (m' < m2).
      { assert (2 ^ (Zdigits2 m1 + (e1 - e2 - e')) ≤ 2 ^ (Zdigits2 m2 - 1))
          by (apply Z.pow_le_mono_r; lia).
        lia. }
      subst q. rewrite Z.div_small by lia. cbn. lia. }
  apply binary_round_aux_small; [lia| |done].
  pose proof (fexp64_mono (Zdigits2 q + e')
                (Z.max e' (Zdigits2 m1 + e1 - (Zdigits2 m2 + e2) + 1)) ltac:(lia)).
  unfold fexp64 in *. lia.
Qed.

(** Division by a finite float. *)
Lemma SFdiv_small (K1 K : Z) (x : spec_float) (sy : bool) (my : positive) (ey : Z) :
  valid_binary x = true →
  small K1 x →
  K1 - ey + 1 ≤ K → -1073 ≤ K → K ≤ 971 →
  small K (SFdiv prec emax x (S754_finite sy my ey)).
Proof.
  intros Hvx Hx HK HK1 HK2.
  destruct x as [sx|sx| |sx mx ex]; try done.
  cbn [SFdiv small] in *.
  apply valid_finite_bounds in Hvx as [Hdx Hex].
  pose proof (div_core_small (xorb sx sy) (Zpos mx) ex (Zpos my) ey K) as H.
  destruct (SFdiv_core_binary prec emax (Zpos mx) ex (Zpos my) ey) as [[q e'] l].
  apply H; [lia..| |done].
  assert (0 < Zdigits2 (Zpos my)) by (cbn; lia).
  pose proof (fexp64_mono (Zdigits2 (Zpos mx) + ex - (Zdigits2 (Zpos my) + ey) + 1)
                (53 + (ex - ey)) ltac:(lia)).
  unfold fexp64 in *. lia.
Qed.

Lemma Zdigits2_pos (m : Z) : 0 < m → 0 < Zdigits2 m.
Proof. destruct m; cbn [Zdigits2]; lia. Qed.

(** ** The sparkline *)

Lemma SFltb_true_cases (x y : spec_float) :
  SFltb x y = true → SFcompare x y = Some Lt.
Proof. unfold SFltb. by destruct (SFcompare x y) as [[]|]. Qed.

Lemma ltb_leb (x y : float) : PrimFloat.ltb x y = true → PrimFloat.leb x y = true.
Proof.
  rewrite ltb_spec, leb_spec. intros H%SFltb_true_cases. unfold SFleb. by rewrite H.
Qed.

Lemma clamp_cases (v : float) :
  clamp v = 1%float ∨ clamp v = 10%float
  ∨ (clamp v = v ∧ PrimFloat.ltb v 10 = true ∧ PrimFloat.ltb 1 v = true).
Proof.
  unfold clamp, float_min, float_max.
  destruct (PrimFloat.ltb v 10) eqn:H10.
  - destruct (PrimFloat.ltb 1 v) eqn:H1; auto.
  - right. left. reflexivity.
Qed.

Lemma Prim2SF_1 : Prim2SF 1 = S754_finite false 4503599627370496 (-52).
Proof. vm_compute. reflexivity. Qed.
Lemma Prim2SF_10 : Prim2SF 10 = S754_finite false 5629499534213120 (-49).
Proof. vm_compute. reflexivity. Qed.
Lemma Prim2SF_9 : Prim2SF 9 = S754_finite false 5066549580791808 (-49).
Proof. vm_compute. reflexivity. Qed.
Lemma Prim2SF_7 : Prim2SF 7 = S754_finite false 7881299347898368 (-50).
Proof. vm_compute. reflexivity. Qed.

Lemma clamp_small (v : float) : small (-49) (Prim2SF (clamp v)).
Proof.
  destruct (clamp_cases v) as [-> | [-> | (-> & H10 & H1)]].
  - rewrite Prim2SF_1. cbn [small]. lia.
  - rewrite Prim2SF_10. cbn [small]. lia.
  - rewrite ltb_spec in H10, H1. rewrite Prim2SF_10 in H10. rewrite Prim2SF_1 in H1.
    apply SFltb_true_cases in H10, H1.
    destruct (Prim2SF v) as [s|s| |s m e]; cbn [small SFcompare] in H10, H1 |- *.
    + discriminate H1.
    + destruct s; discriminate.
    + discriminate.
    + destruct s; [discriminate|].
      destruct (Z.compare_spec e (-49)); [lia|lia|discriminate].
Qed.

Lemma clamp_range (v : float) :
  PrimFloat.leb 1 (clamp v) = true ∧ PrimFloat.leb (clamp v) 10 = true.
Proof.
  destruct (clamp_cases v) as [-> | [-> | (-> & H10 & H1)]].
  - split; vm_compute; reflexivity.
  - split; vm_compute; reflexivity.
  - split; by apply ltb_leb.
Qed.

Lemma sparkline_index_small (v : float) :
  small 7 (Prim2SF ((clamp v - 1) / 9 * 7)%float).
Proof.
  rewrite mul_spec, div_spec, sub_spec.
  assert (small (-47) (SF64sub (Prim2SF (clamp v)) (Prim2SF 1))) as Ht.
  { apply (SFsub_small (-49) (-52)); try apply Prim2SF_valid; try lia.
    - apply clamp_small.
    - rewrite Prim2SF_1. cbn [small]. lia. }
  assert (small 3 (SF64div (SF64sub (Prim2SF (clamp v)) (Prim2SF 1)) (Prim2SF 9))) as Hu.
  { rewrite Prim2SF_9. apply (SFdiv_small (-47)); try lia; [|done].
    rewrite <- sub_spec. apply Prim2SF_valid. }
  apply (SFmul_small 3 (-50)); [| | exact Hu | | lia..].
  - rewrite <- sub_spec, <- div_spec. apply Prim2SF_valid.
  - apply Prim2SF_valid.
  - rewrite Prim2SF_7. cbn [small]. lia.
Qed.

Lemma py_round_small (K : Z) (x : float) : small K (Prim2SF x) → ∃ k, py_round x = Ok k.
Proof. unfold py_round. destruct (Prim2SF x); cbn [small]; intros; try done; eauto. Qed.

Lemma sparkline_index_rounds (v : float) :
  ∃ k, py_round ((clamp v - 1) / 9 * 7)%float = Ok k.
Proof. eapply py_round_small, sparkline_index_small. Qed.

Lemma int_clamp (k : Z) : int_max 0 (int_min 7 k) = Z.max 0 (Z.min 7 k).
Proof.
  unfold int_max, int_min.
  destruct (Z.ltb_spec k 7); [destruct (Z.ltb_spec 0 k)|]; cbn; lia.
Qed.

Lemma getitem_blocks (j : Z) :
  0 ≤ j ≤ 7 → getitem Main.blocks j = Ok (nth (Z.to_nat j) Main.blocks 0%N).
Proof.
  intros Hj.
  assert (j = 0 ∨ j = 1 ∨ j = 2 ∨ j = 3 ∨ j = 4 ∨ j = 5 ∨ j = 6 ∨ j = 7) as H by lia.
  destruct H as [->|[->|[->|[->|[->|[->|[->| ->]]]]]]]; reflexivity.
Qed.

Lemma sparkline_char_glyph (v : option float) :
  Main.sparkline_char v = Ok [glyph_of v].
Proof.
  destruct v as [v|]; [|reflexivity].
  unfold Main.sparkline_char, glyph_of. fold (clamp v).
  destruct (sparkline_index_rounds v) as [k ->]. cbn [mbind result_bind].
  change (len Main.blocks - 1) with 7. rewrite int_clamp, getitem_blocks by lia.
  reflexivity.
Qed.

Lemma mapM_Ok_map {A B} (f : A → result B) (g : A → B) (l : list A) :
  (∀ x, f x = Ok (g x)) → mapM f l = Ok (map g l).
Proof.
  intros Hf. induction l as [|a l IH]; [reflexivity|].
  change (mapM f (a :: l)) with (y ← f a; k ← mapM f l; mret (y :: k)).
  rewrite Hf, IH. reflexivity.
Qed.

Lemma to_sparkline_map (values : list (option float)) :
  Main.to_sparkline values = Ok (map glyph_of values).
Proof.
  unfold Main.to_sparkline.
  rewrite (mapM_Ok_map _ (λ v, [glyph_of v]) _ sparkline_char_glyph).
  cbn [mbind result_bind mret result_ret]. f_equal.
  induction values as [|v values IH]; [reflexivity|]. cbn. by rewrite IH.
Qed.

Lemma glyph_of_block (v : float) :
  ∃ k : Z,
    py_round ((float_max 1 (float_min 10 v) - 1) / 9 * 7)%float = Ok k
    ∧ Main.blocks !! Z.to_nat (Z.max 0 (Z.min 7 k)) = Some (glyph_of (Some v)).
Proof.
  destruct (sparkline_index_rounds v) as [k Hk]. exists k. split; [exact Hk|].
  unfold glyph_of. rewrite Hk.
  assert (Z.max 0 (Z.min 7 k) = 0 ∨ Z.max 0 (Z.min 7 k) = 1 ∨ Z.max 0 (Z.min 7 k) = 2
          ∨ Z.max 0 (Z.min 7 k) = 3 ∨ Z.max 0 (Z.min 7 k) = 4 ∨ Z.max 0 (Z.min 7 k) = 5
          ∨ Z.max 0 (Z.min 7 k) = 6 ∨ Z.max 0 (Z.min 7 k) = 7) as H by lia.
  destruct H as [->|[->|[->|[->|[->|[->|[->| ->]]]]]]]; reflexivity.
Qed.

(** C9: [to_sparkline] never raises and returns one glyph per element of the
    series, in order.  An absent value gives the placeholder U+00B7.  A
    present value [v] is clamped to [1, 10], its index is
    [round((v - 1) / 9 * 7)] (binary64 arithmetic, ties to even) clamped to
    [0, 7], and its glyph is the block at that index among the 8 blocks
    U+2581 to U+2588, none of which is the placeholder.  A series of [k]
    absent values gives [k] placeholders, and the value 10 gives the last,
    highest block. *)
Theorem to_sparkline_glyphs :
  (∀ values : list (option float),
      ∃ s : ustr,
        Main.to_sparkline values = Ok s
        ∧ length s = length values
        ∧ ∀ i : nat,
            match values !! i with
            | Some None => s !! i = Some 183%N
            | Some (Some v) =>
                ∃ k : Z,
                  py_round ((float_max 1 (float_min 10 v) - 1) / 9 * 7)%float = Ok k
                  ∧ s !! i = Main.blocks !! Z.to_nat (Z.max 0 (Z.min 7 k))
                  ∧ is_Some (s !! i)
            | None => s !! i = None
            end)
  ∧ (∀ v : float,
        PrimFloat.leb 1 (float_max 1 (float_min 10 v)) = true
        ∧ PrimFloat.leb (float_max 1 (float_min 10 v)) 10 = true)
  ∧ Main.blocks = [9601; 9602; 9603; 9604; 9605; 9606; 9607; 9608]%N
  ∧ Main.middle_dot = [183%N]
  ∧ (183%N ∉ Main.blocks)
  ∧ (∀ k : nat, Main.to_sparkline (replicate k None) = Ok (replicate k 183%N))
  ∧ Main.to_sparkline [Some 10%float] = Ok [9608%N].
Proof.
  split; [|split; [|split; [|split; [|split; [|split]]]]].
  - intros values. exists (map glyph_of values). split; [apply to_sparkline_map|].
    split; [apply length_map|]. intros i. rewrite list_lookup_fmap.
    destruct (values !! i) as [[v|]|]; cbn [fmap option_fmap option_map]; [|done..].
    destruct (glyph_of_block v) as (k & Hk & Hb). exists k. rewrite Hb. eauto.
  - apply clamp_range.
  - reflexivity.
  - reflexivity.
  - unfold Main.blocks. rewrite !elem_of_cons, elem_of_nil.
    intros [?|[?|[?|[?|[?|[?|[?|[?|[]]]]]]]]]; discriminate.
  - intros k. rewrite to_sparkline_map. f_equal.
    induction k as [|k IH]; [reflexivity|]. cbn. by rewrite IH.
  - vm_compute. reflexivity.
Qed.

(** ** Daily averages and the aligned series *)


Lemma int_true_div_ok (a b : Z) :
  b ≠ 0 → Z.abs a ≤ Z.abs b * 2 ^ 1000 → is_Ok (int_true_div a b).
Proof.
  intros Hb Hab. unfold int_true_div, is_Ok.
  destruct (Z.eqb_spec b 0) as [|_]; [done|].
  destruct (Z.eqb_spec a 0) as [|Ha]; [eauto|].
  pose proof (div_core_small (xorb (a <? 0) (b <? 0)) (Z.abs a) 0 (Z.abs b) 0 971) as H.
  destruct (SFdiv_core_binary prec emax (Z.abs a) 0 (Z.abs b) 0) as [[q e] l].
  assert (small 971 (binary_round_aux prec emax (xorb (a <? 0) (b <? 0)) q e l)) as Hs.
  { apply H; [lia..| |lia].
    pose proof (Zdigits2_lower (Z.abs a) ltac:(lia)).
    pose proof (Zdigits2_upper (Z.abs b) ltac:(lia)).
    pose proof (Zdigits2_nonneg (Z.abs b)).
    pose proof (Zdigits2_pos (Z.abs a) ltac:(lia)).
    assert (Zdigits2 (Z.abs a) - 1 < Zdigits2 (Z.abs b) + 1000).
    { apply (Z.pow_lt_mono_r_iff 2); [lia..|]. rewrite Z.pow_add_r by lia. nia. }
    unfold fexp64. lia. }
  destruct (binary_round_aux _ _ _ _ _ _); cbn [small] in Hs; try done; eauto.
Qed.


Lemma mapM_Ok_Forall2 {A B} (f : A → result B) (l : list A) :
  (∀ x, x ∈ l → is_Ok (f x)) →
  ∃ k, mapM f l = Ok k ∧ Forall2 (λ x y, f x = Ok y) l k.
Proof.
  induction l as [|a l IH]; intros Hf.
  - exists []. split; [reflexivity|constructor].
  - destruct (Hf a) as [b Hb]; [left|].
    destruct IH as (k & Hk & HF); [intros x Hx; apply Hf; by right|].
    exists (b :: k). split; [|by constructor].
    change (mapM f (a :: l)) with (y ← f a; k ← mapM f l; mret (y :: k)).
    rewrite Hb, Hk. reflexivity.
Qed.

Lemma Forall2_elem_of_r {A B} (P : A → B → Prop) (l : list A) (k : list B) (y : B) :
  Forall2 P l k → y ∈ k → ∃ x, x ∈ l ∧ P x y.
Proof.
  intros HF [i Hi]%list_elem_of_lookup.
  destruct (Forall2_lookup_r _ _ _ _ _ HF Hi) as (x & Hx & HP).
  exists x. split; [|done]. by eapply list_elem_of_lookup_2.
Qed.

Lemma Forall2_elem_of_l {A B} (P : A → B → Prop) (l : list A) (k : list B) (x : A) :
  Forall2 P l k → x ∈ l → ∃ y, y ∈ k ∧ P x y.
Proof.
  intros HF [i Hi]%list_elem_of_lookup.
  destruct (Forall2_lookup_l _ _ _ _ _ HF Hi) as (y & Hy & HP).
  exists y. split; [|done]. by eapply list_elem_of_lookup_2.
Qed.

Lemma dict_item_ok {V W} (f : string → V → result W) (kv : string * V) (y : string * W) :
  (w ← f kv.1 kv.2; mret (kv.1, w)) = Ok y ↔ y.1 = kv.1 ∧ f kv.1 kv.2 = Ok y.2.
Proof.
  destruct kv as [k v], y as [k' w]. cbn [fst snd].
  destruct (f k v) as [w'|e]; cbn [mbind result_bind mret result_ret]; split.
  - by intros [= <- <-].
  - by intros [-> [= ->]].
  - done.
  - by intros [_ ?].
Qed.

Lemma dict_comprehension_ok {V W} (f : string → V → result W) (d : gmap string V) :
  (∀ k v, d !! k = Some v → is_Ok (f k v)) →
  ∃ m, dict_comprehension f d = Ok m
       ∧ ∀ k, m !! k = v ← d !! k; match f k v with Ok w => Some w | Raise _ => None end.
Proof.
  intros Hf. unfold dict_comprehension.
  set (F := λ kv : string * V, w ← f kv.1 kv.2; mret (kv.1, w)).
  destruct (mapM_Ok_Forall2 F (map_to_list d)) as (kvs & -> & HF).
  { intros [k v] Hkv%elem_of_map_to_list. destruct (Hf k v Hkv) as [w Hw].
    exists (k, w). by apply dict_item_ok. }
  exists (list_to_map kvs). split; [reflexivity|]. intros k.
  assert (kvs.*1 = (map_to_list d).*1) as Hkeys.
  { clear -HF. induction HF as [|kv y l l' Hxy _ IH]; [done|].
    cbn [fmap list_fmap]. rewrite IH. f_equal. by apply dict_item_ok in Hxy as [-> _]. }
  assert (NoDup kvs.*1) as Hnd by (rewrite Hkeys; apply NoDup_fst_map_to_list).
  apply option_eq. intros w. rewrite <- elem_of_list_to_map by done. split.
  - intros Hin. apply (Forall2_elem_of_r _ _ _ _ HF) in Hin as ([k' v] & Hin & HFk).
    apply elem_of_map_to_list in Hin. apply dict_item_ok in HFk as [Hk Hw].
    cbn [fst snd] in Hk, Hw. subst k'. rewrite Hin. cbn. by rewrite Hw.
  - destruct (d !! k) as [v|] eqn:Hdk; cbn; [|done].
    destruct (f k v) as [w'|] eqn:Hfk; [|done]. intros [= ->].
    apply elem_of_map_to_list in Hdk.
    apply (Forall2_elem_of_l _ _ _ _ HF) in Hdk as ([k' w'] & Hin & HFk).
    apply dict_item_ok in HFk as [Hk Hw]. cbn [fst snd] in Hk, Hw. subst k'.
    rewrite Hfk in Hw. by injection Hw as <-.
Qed.

Lemma scores_of_cons (d d' : string) (s : Z) (records : list (string * Z)) :
  scores_of d ((d', s) :: records)
  = if decide (d' = d) then s :: scores_of d records else scores_of d records.
Proof.
  unfold scores_of. rewrite filter_cons. cbn. by destruct (decide (d' = d)).
Qed.

Lemma foldl_accumulate (records : list (string * Z)) (sums counts : gmap string Z)
    (d : string) :
  let acc := foldl Main.accumulate (sums, counts) records in
  acc.1 !! d = match scores_of d records with
               | [] => sums !! d
               | ss => Some (default 0 (sums !! d) + sum_of ss)
               end
  ∧ acc.2 !! d = match scores_of d records with
                 | [] => counts !! d
                 | ss => Some (default 0 (counts !! d) + len ss)
                 end.
Proof.
  revert sums counts. induction records as [|[d' s] records IH]; intros sums counts.
  - done.
  - cbn [foldl]. unfold Main.accumulate at 2 4. unfold dict_get.
    specialize (IH (<[d':=default 0 (sums !! d') + s]> sums)
                   (<[d':=default 0 (counts !! d') + 1]> counts)).
    cbn zeta in IH. destruct IH as [IH1 IH2]. rewrite IH1, IH2, scores_of_cons.
    destruct (decide (d' = d)) as [->|Hne].
    + rewrite !lookup_insert_eq. cbn [default].
      destruct (scores_of d records) as [|s' ss]; cbn [sum_of foldr]; unfold len;
        cbn [length]; unfold id; split; apply (f_equal Some); lia.
    + rewrite !lookup_insert_ne by done. done.
Qed.

Lemma sum_of_bounded (scores : list Z) (B : Z) :
  Forall (λ s, Z.abs s ≤ B) scores → Z.abs (sum_of scores) ≤ len scores * B.
Proof.
  induction 1 as [|s scores Hs _ IH]; unfold len in *; cbn [sum_of foldr length]; [lia|].
  fold (sum_of scores). lia.
Qed.

Lemma mean_of_bounded_ok (records : list (string * Z)) (d : string) :
  Forall (λ r, Z.abs r.2 ≤ 2 ^ 1000) records →
  scores_of d records ≠ [] → is_Ok (mean_of (scores_of d records)).
Proof.
  intros Hb Hne. apply int_true_div_ok.
  - unfold len. destruct (scores_of d records); [done|]. cbn [length]. lia.
  - assert (Forall (λ s, Z.abs s ≤ 2 ^ 1000) (scores_of d records)) as Hs.
    { unfold scores_of. apply Forall_forall. intros s Hs.
      apply list_elem_of_fmap in Hs as ([d' s'] & -> & Hin).
      apply list_elem_of_filter in Hin as [_ Hin].
      rewrite Forall_forall in Hb. exact (Hb _ Hin). }
    apply sum_of_bounded in Hs. unfold len in *. lia.
Qed.

Lemma aggregate_spec (records : list (string * Z)) :
  (∀ d, scores_of d records ≠ [] → is_Ok (mean_of (scores_of d records))) →
  ∃ avg, Main.aggregate_daily_average records = Ok avg
         ∧ ∀ d, avg !! d = match scores_of d records with
                           | [] => None
                           | ss => match mean_of ss with
                                   | Ok q => Some q
                                   | Raise _ => None
                                   end
                           end.
Proof.
  intros Hok. unfold Main.aggregate_daily_average.
  pose proof (foldl_accumulate records ∅ ∅) as Hacc. cbn zeta in Hacc.
  destruct (foldl Main.accumulate (∅, ∅) records) as [sums counts]. cbn [fst snd] in Hacc.
  assert (∀ k v, sums !! k = Some v →
            (c ← dict_getitem counts k; int_true_div v c) = mean_of (scores_of k records)
            ∧ scores_of k records ≠ []) as Hf.
  { intros k v Hk. destruct (Hacc k) as [Hs Hc]. rewrite Hk in Hs.
    unfold dict_getitem. rewrite Hc.
    destruct (scores_of k records) as [|s ss] eqn:Hsc; [by rewrite lookup_empty in Hs|].
    rewrite !lookup_empty in *. cbn [default] in *. split; [|done].
    injection Hs as ->. cbn [mbind result_bind]. unfold mean_of. f_equal; lia. }
  destruct (dict_comprehension_ok
              (λ d s, c ← dict_getitem counts d; int_true_div s c) sums) as (avg & -> & Havg).
  { intros k v Hk. destruct (Hf k v Hk) as [-> Hne]. by apply Hok. }
  exists avg. split; [done|]. intros d. rewrite Havg.
  destruct (sums !! d) as [v|] eqn:Hd; cbn [mbind option_bind].
  - destruct (Hf d v Hd) as [-> Hne]. by destruct (scores_of d records).
  - destruct (Hacc d) as [Hs _]. rewrite Hd in Hs.
    by destruct (scores_of d records).
Qed.

Lemma py_range_down (n : Z) :
  0 ≤ n →
  py_range (n - 1) (-1) (-1) = map (λ k : nat, n - 1 - Z.of_nat k) (seq 0 (Z.to_nat n)).
Proof.
  intros Hn. unfold py_range.
  change (0 <? -1) with false. change (- (-1)) with 1. cbv iota.
  destruct (Z.ltb_spec (-1) (n - 1)).
  - rewrite Z.div_1_r. replace (n - 1 - -1 - 1 + 1) with n by lia.
    apply map_ext. intros k. lia.
  - replace n with 0 by lia. reflexivity.
Qed.

Lemma mapM_Ok_map_Forall {A B} (f : A → result B) (g : A → B) (l : list A) :
  Forall (λ x, f x = Ok (g x)) l → mapM f l = Ok (map g l).
Proof.
  induction 1 as [|a l Ha _ IH]; [done|].
  change (mapM f (a :: l)) with (y ← f a; k ← mapM f l; mret (y :: k)).
  by rewrite Ha, IH.
Qed.

(** The days of a window that does not reach before the first date. *)
Lemma last_n_dates_spec `{RT : Runtime} (today n : Z) :
  0 ≤ n → n ≤ today → is_date today →
  Main.last_n_dates today n
  = Ok (map (λ k : nat, date_isoformat (today - (n - 1 - Z.of_nat k)))
          (seq 0 (Z.to_nat n))).
Proof.
  intros Hn Hle [Hlo Hhi]. unfold Main.last_n_dates. rewrite py_range_down by done.
  rewrite (mapM_Ok_map_Forall _ (λ i, today - i)).
  - cbn [mbind result_bind mret result_ret]. by rewrite !map_map.
  - apply Forall_forall. intros i Hi.
    apply list_elem_of_fmap in Hi as (k & -> & Hk). apply elem_of_seq in Hk.
    unfold timedelta, date_sub.
    destruct (Z.leb_spec (Z.abs (n - 1 - Z.of_nat k)) 999999999); [|lia].
    cbn [mbind result_bind].
    destruct (Z.leb_spec 1 (today - (n - 1 - Z.of_nat k))); [|lia].
    destruct (Z.leb_spec (today - (n - 1 - Z.of_nat k)) 3652059); [|lia]. done.
Qed.

(** A window that reaches before the first date: the oldest day, which is
    computed first, raises. *)
Lemma last_n_dates_overflow `{RT : Runtime} (today n : Z) :
  1 ≤ n → today < n → is_date today →
  Main.last_n_dates today n = Raise OverflowError.
Proof.
  intros Hn Hlt [Hlo Hhi]. unfold Main.last_n_dates. rewrite py_range_down by lia.
  destruct (Z.to_nat n) as [|m] eqn:Hm; [lia|]. cbn [seq map].
  set (F := λ i : Z, _).
  change (mapM F (n - 1 - Z.of_nat 0 :: ?l)) with (y ← F (n - 1 - Z.of_nat 0); k ← mapM F l; mret (y :: k)).
  assert (F (n - 1 - Z.of_nat 0) = Raise OverflowError) as ->; [|done].
  unfold F, timedelta, date_sub.
  destruct (Z.leb_spec (Z.abs (n - 1 - Z.of_nat 0)) 999999999); [|done].
  cbn [mbind result_bind].
  destruct (Z.leb_spec 1 (today - (n - 1 - Z.of_nat 0))); [lia|done].
Qed.

Lemma read_all_records_parsed `{RT : Runtime} (w : world) bytes all :
  csv_file w = Some bytes →
  csv_reader NewlineDefault bytes = (all, None) →
  Main.read_all_records w = Ok (parsed_records (tail all)).
Proof.
  intros Hfile Hread. unfold Main.read_all_records. rewrite Hfile, Hread.
  by rewrite foldl_collect_record.
Qed.

(** C1, amended.  Let the log read to its end, let every day's mean be
    within the range of a float, and let [n >= 1].  With no parsed record
    [_read_aligned_series] returns two empty lists (and [show_recent_stats]
    reports that there is no history).  With at least one parsed record and a
    window that does not reach before the first date ([n] at most today's
    day number), it returns [n] day labels and [n] values: the labels are the
    [n] consecutive days that end today, oldest first, and the value of a
    day is the mean of the scores of the parsed records of that day, or
    [None], which no mean is, when no parsed record carries the day.  With at
    least one parsed record and a longer window it raises [OverflowError]. *)
Theorem aligned_series_of_log `{RT : Runtime} (today n : Z) (w : world)
    (bytes : string) (all : list row) :
  csv_file w = Some bytes →
  csv_reader NewlineDefault bytes = (all, None) →
  let records := parsed_records (tail all) in
  (∀ d, scores_of d records ≠ [] → is_Ok (mean_of (scores_of d records))) →
  1 ≤ n →
  is_date today →
  (records = [] →
     DataManager._read_aligned_series today n w = Ok ([], [])
     ∧ Main.show_recent_stats_series today n w = Ok None)
  ∧ (records ≠ [] →
     n ≤ today →
     ∃ (days : list string) (values : list (option float)),
       DataManager._read_aligned_series today n w = Ok (days, values)
       ∧ Main.show_recent_stats_series today n w = Ok (Some (days, values))
       ∧ length days = Z.to_nat n
       ∧ length values = Z.to_nat n
       ∧ ∀ i : nat, (i < Z.to_nat n)%nat →
           ∃ day : string,
             day = date_isoformat (today - (n - 1 - Z.of_nat i))
             ∧ days !! i = Some day
             ∧ match scores_of day records with
               | [] => values !! i = Some None
               | ss => ∃ q : float, mean_of ss = Ok q ∧ values !! i = Some (Some q)
               end)
  ∧ (records ≠ [] →
     today < n →
     DataManager._read_aligned_series today n w = Raise OverflowError
     ∧ Main.show_recent_stats_series today n w = Raise OverflowError).
Proof.
  intros Hfile Hread records Hok Hn Htoday.
  pose proof (read_all_records_parsed w bytes all Hfile Hread) as Hrec.
  fold records in Hrec.
  unfold DataManager._read_aligned_series, Main.show_recent_stats_series.
  change (DataManager._read_all_records w) with (Main.read_all_records w).
  change DataManager._aggregate_daily_average with Main.aggregate_daily_average.
  change (DataManager._last_n_dates today n) with (Main.last_n_dates today n).
  rewrite Hrec. cbn [mbind result_bind].
  split; [|split].
  - intros ->. done.
  - intros Hne Hle. destruct records as [|r records'] eqn:Hrs; [done|].
    rewrite <- Hrs in *.
    destruct (aggregate_spec records Hok) as (avg & -> & Havg).
    rewrite last_n_dates_spec by (done || lia).
    cbn [mbind result_bind mret result_ret].
    eexists _, _. split; [reflexivity|]. split; [reflexivity|].
    rewrite !length_map, length_seq. split; [done|]. split; [done|].
    intros i Hi. eexists. split; [reflexivity|].
    rewrite !list_lookup_fmap, lookup_seq_lt by done. cbn [fmap option_fmap option_map].
    split; [done|]. unfold dict_get. rewrite Havg.
    set (day := date_isoformat _).
    destruct (scores_of day records) as [|s ss] eqn:Hsc; [done|].
    destruct (Hok day) as [q Hq]; [by rewrite Hsc|]. rewrite Hsc in Hq.
    exists q. by rewrite Hq.
  - intros Hne Hlt. destruct records as [|r records'] eqn:Hrs; [done|].
    rewrite <- Hrs in *.
    destruct (aggregate_spec records Hok) as (avg & -> & Havg).
    rewrite last_n_dates_overflow by done.
    done.
Qed.

Lemma ragged_log_means (d : string) :
  scores_of d (parsed_records (RT := Ref.runtime) (tail ragged_rows)) ≠ [] →
  is_Ok (mean_of (scores_of d (parsed_records (RT := Ref.runtime) (tail ragged_rows)))).
Proof.
  apply mean_of_bounded_ok.
  repeat constructor; apply Z.leb_le; vm_compute; reflexivity.
Qed.

Lemma aligned_series_of_log_witness :
  ∃ (days : list string) (values : list (option float)),
    DataManager._read_aligned_series (RT := Ref.runtime) jan_3_2024 3 ragged_log
    = Ok (days, values)
    ∧ length days = 3%nat ∧ length values = 3%nat.
Proof.
  destruct (proj1 (proj2 (aligned_series_of_log (RT := Ref.runtime) jan_3_2024 3
                            ragged_log (Main.written (RT := Ref.runtime) ragged_rows)
                            ragged_rows eq_refl eq_refl ragged_log_means ltac:(lia)
                            ltac:(unfold is_date, jan_3_2024; lia))))
    as (days & values & Hseries & _ & Hdays & Hvalues & _).
  - discriminate.
  - unfold jan_3_2024. lia.
  - exists days, values. repeat split; assumption.
Defined.

(** C1 as stated fails on a log that holds the header and no record: the
    series asked for 7 days has no element. *)
Lemma aligned_series_of_fresh_log :
  DataManager._read_aligned_series (RT := Ref.runtime) jan_3_2024 7 fresh_log = Ok ([], [])
  ∧ ¬ (∃ (days : list string) (values : list (option float)),
          DataManager._read_aligned_series (RT := Ref.runtime) jan_3_2024 7 fresh_log
          = Ok (days, values)
          ∧ length days = 7%nat ∧ length values = 7%nat).
Proof.
  assert (DataManager._read_aligned_series (RT := Ref.runtime) jan_3_2024 7 fresh_log
          = Ok ([], [])) as H by (vm_compute; reflexivity).
  split; [exact H|]. rewrite H. intros (days & values & [= <- <-] & Hlen & _).
  discriminate Hlen.
Qed.

(** The aligned series of the ragged log on 2024-01-03. *)
Example aligned_series_of_ragged_log :
  DataManager._read_aligned_series (RT := Ref.runtime) jan_3_2024 3 ragged_log
  = Ok (["2024-01-01"; "2024-01-02"; "2024-01-03"]%string,
        [Some 5%float; None; Some 5.5%float]).
Proof. vm_compute. reflexivity. Qed.

(** ** Further properties *)

(** The daily average of three records of one day with the scores 3, 5 and 7
    is 5.0 for that day, and no other day has one. *)
Theorem daily_average_of_one_day (d : string) :
  Main.aggregate_daily_average [(d, 3); (d, 5); (d, 7)] = Ok {[ d := 5%float ]}.
Proof.
  destruct (aggregate_spec [(d, 3); (d, 5); (d, 7)]) as (avg & -> & Havg).
  { intros d'. apply mean_of_bounded_ok.
    repeat constructor; apply Z.leb_le; vm_compute; reflexivity. }
  f_equal. apply map_eq. intros k. rewrite Havg, !scores_of_cons.
  destruct (decide (d = k)) as [->|Hne].
  - rewrite lookup_singleton_eq. reflexivity.
  - by rewrite lookup_singleton_ne.
Qed.

(** Asking for another message: from the pool [a; b] a second pick that
    excludes [a] is [b]; from the pool [a] it is [a] again. *)
Theorem swap_message (draw : nat) (a b : string) :
  (a ≠ b →
   Main.choose_message draw 1 {[ "low"%string := [a; b] ]} (Some a) None = Ok b)
  ∧ Main.choose_message draw 1 {[ "low"%string := [a] ]} (Some a) None = Ok a.
Proof.
  split.
  - intros Hne.
    destruct (choose_message_from_pool draw 1 {[ "low"%string := [a; b] ]} (Some a) None)
      as (m & -> & Hin & Hnot).
    unfold Main.tier_pool, Main.get_or, dict_get in Hin, Hnot.
    cbn [Z.leb Z.compare] in Hin, Hnot. rewrite lookup_singleton_eq in Hin, Hnot.
    f_equal. assert (m ∉ Main.exclusions (Some a) None) as Hm.
    { apply Hnot. exists b. split; [by right; left|].
      rewrite exclusions_spec. intros [[= ->]|(s & [=] & _)]. done. }
    rewrite exclusions_spec in Hm.
    apply elem_of_cons in Hin as [->|Hin]; [destruct Hm; by left|].
    by apply list_elem_of_singleton in Hin.
  - destruct (choose_message_from_pool draw 1 {[ "low"%string := [a] ]} (Some a) None)
      as (m & -> & Hin & _).
    unfold Main.tier_pool, Main.get_or, dict_get in Hin.
    cbn [Z.leb Z.compare] in Hin. rewrite lookup_singleton_eq in Hin.
    apply list_elem_of_singleton in Hin. by rewrite Hin.
Qed.

Lemma swap_message_witness :
  Main.choose_message 0 1 {[ "low"%string := ["A"; "B"]%string ]} (Some "A"%string) None
  = Ok "B"%string.
Proof. apply (proj1 (swap_message 0 "A" "B")). discriminate. Defined.

(** [aggregate_daily_average] does not raise on records whose scores are below
    [2^1000] in magnitude: every day with a record gets the mean of its
    scores, and no other day gets a value. *)
Theorem aggregate_bounded_scores (records : list (string * Z)) :
  Forall (λ r, Z.abs r.2 ≤ 2 ^ 1000) records →
  ∃ avg : gmap string float,
    Main.aggregate_daily_average records = Ok avg
    ∧ ∀ d : string,
        match scores_of d records with
        | [] => avg !! d = None
        | ss => ∃ q : float, mean_of ss = Ok q ∧ avg !! d = Some q
        end.
Proof.
  intros Hb.
  destruct (aggregate_spec records) as (avg & Hagg & Havg).
  { intros d. by apply mean_of_bounded_ok. }
  exists avg. split; [done|]. intros d. rewrite Havg.
  pose proof (mean_of_bounded_ok records d Hb) as Hok.
  destruct (scores_of d records) as [|s ss]; [done|].
  destruct Hok as [q Hq]; [done|]. exists q. by rewrite Hq.
Qed.

Lemma aggregate_bounded_scores_witness :
  ∃ avg : gmap string float,
    Main.aggregate_daily_average [("a"%string, 3); ("b"%string, 10); ("a"%string, 4)] = Ok avg
    ∧ ∀ d : string,
        match scores_of d [("a"%string, 3); ("b"%string, 10); ("a"%string, 4)] with
        | [] => avg !! d = None
        | ss => ∃ q : float, mean_of ss = Ok q ∧ avg !! d = Some q
        end.
Proof.
  apply (aggregate_bounded_scores [("a"%string, 3); ("b"%string, 10); ("a"%string, 4)]).
  repeat constructor; apply Z.leb_le; vm_compute; reflexivity.
Defined.

Lemma append_empty (s : string) : String.append s EmptyString = s.
Proof.
  induction s as [|c s IH]; [done|].
  change (String c (String.append s EmptyString) = String c s). by rewrite IH.
Qed.

(** A file from which the reader yields no record (an empty file) is
    rewritten as the v2 header alone. *)
Theorem upgrade_empty_file `{RT : Runtime} (w : world) (bytes : string) :
  csv_file w = Some bytes →
  csv_reader NewlineEmpty bytes = ([], None) →
  Main.upgrade_csv_schema w
  = (Ok tt, {| csv_file := Some (csv_writerow Main.v2_header); rewrites := S (rewrites w) |}).
Proof.
  intros Hfile Hread. unfold Main.upgrade_csv_schema.
  rewrite (read_success w bytes [] Hfile Hread). cbn [head tail map].
  unfold Main.rewrite_csv, Main.written. cbn [foldr].
  by rewrite append_empty.
Qed.

Lemma upgrade_empty_file_witness :
  Main.upgrade_csv_schema (RT := Ref.runtime) (World (Some EmptyString) 0)
  = (Ok tt, {| csv_file := csv_file fresh_log; rewrites := 1 |}).
Proof.
  exact (upgrade_empty_file (RT := Ref.runtime) (World (Some EmptyString) 0) EmptyString
           eq_refl eq_refl).
Defined.

(** ** Storage: creation, appending and the rows of a day *)

(** [ensure_storage] is idempotent: a second call finds the file the first
    call left and does not open it for writing. *)
Theorem ensure_storage_idempotent `{RT : Runtime} (w : world) :
  header_reads_back →
  Main.ensure_storage (Main.ensure_storage w).2 = (Ok tt, (Main.ensure_storage w).2).
Proof.
  intros Hback. unfold Main.ensure_storage at 2 3.
  destruct (csv_file w) as [bytes|] eqn:Hfile.
  - destruct (upgrade_cases w) as [Hsame | [rows Hrew]].
    + rewrite Hsame. cbn [snd]. unfold Main.ensure_storage. by rewrite Hfile.
    + rewrite Hrew. cbn [snd]. unfold Main.ensure_storage.
      cbn [csv_file Main.rewrite_csv]. by apply upgrade_rewritten_stable.
  - cbn [snd]. unfold Main.ensure_storage. cbn [csv_file Main.rewrite_csv].
    by apply (upgrade_rewritten_stable []).
Qed.

Lemma ensure_storage_idempotent_witness :
  Main.ensure_storage (RT := Ref.runtime) (Main.ensure_storage (RT := Ref.runtime) v1_example).2
  = (Ok tt, (Main.ensure_storage (RT := Ref.runtime) v1_example).2).
Proof.
  exact (ensure_storage_idempotent (RT := Ref.runtime) v1_example ref_header_reads_back).
Defined.

(** After [ensure_storage] the file exists, and whenever it reads without an
    exception it has a first record, whose number of fields is not 3; that
    record is the v2 header when the path did not exist before. *)
Theorem ensure_storage_leaves_no_v1_header `{RT : Runtime} (w : world) :
  header_reads_back →
  ∃ bytes : string,
    csv_file (Main.ensure_storage w).2 = Some bytes
    ∧ ∀ all : list row,
        csv_reader NewlineEmpty bytes = (all, None) →
        ∃ h : row, head all = Some h ∧ length h ≠ 3%nat
                   ∧ (csv_file w = None → h = Main.v2_header).
Proof.
  intros Hback. unfold Main.ensure_storage.
  destruct (csv_file w) as [bytes|] eqn:Hfile.
  - unfold Main.upgrade_csv_schema, Main.read_header_and_rows. rewrite Hfile.
    destruct (csv_reader NewlineEmpty bytes) as [all0 [e|]] eqn:Hread.
    + exists bytes. split; [by destruct e|]. intros all Hall.
      assert (csv_reader NewlineEmpty bytes = (all, None)) as Hall'.
      { destruct e; exact Hall. }
      congruence.
    + destruct (head all0) as [h|] eqn:Hhead.
      * destruct (Z.eqb_spec (len h) 3) as [Hlen|Hlen].
        -- eexists. split; [reflexivity|]. intros all Hall.
           apply Hback in Hall. exists Main.v2_header. by rewrite Hall.
        -- exists bytes. split; [done|]. intros all Hall.
           assert (all = all0) as -> by congruence.
           exists h. split; [done|]. split; [|done]. unfold len in Hlen. lia.
      * eexists. split; [reflexivity|]. intros all Hall.
        apply Hback in Hall. exists Main.v2_header. by rewrite Hall.
  - eexists. split; [reflexivity|]. intros all Hall.
    cbn [Main.written foldr] in Hall. apply Hback in Hall.
    exists Main.v2_header. by rewrite Hall.
Qed.

Lemma ensure_storage_leaves_no_v1_header_witness :
  ∃ bytes : string,
    csv_file (Main.ensure_storage (RT := Ref.runtime) v1_example).2 = Some bytes
    ∧ ∀ all : list row,
        csv_reader (Runtime := Ref.runtime) NewlineEmpty bytes = (all, None) →
        ∃ h : row, head all = Some h ∧ length h ≠ 3%nat
                   ∧ (csv_file v1_example = None → h = Main.v2_header).
Proof.
  exact (ensure_storage_leaves_no_v1_header (RT := Ref.runtime) v1_example
           ref_header_reads_back).
Defined.

Lemma foldl_existing_step (target : string) (rows out : list row) :
  foldl (Main.existing_step target) out rows
  = out ++ filter (λ r : row, head r = Some target) rows.
Proof.
  revert out. induction rows as [|r rows IH]; intros out; cbn [foldl].
  - by rewrite app_nil_r.
  - rewrite IH. unfold Main.existing_step, len.
    rewrite filter_cons.
    destruct r as [|r0 r]; cbn [length head].
    + destruct (decide _) as [[=]|_]. by cbn.
    + replace (1 <=? Z.of_nat (S (length r))) with true by (symmetry; apply Z.leb_le; lia).
      cbn [andb]. change ((r0 :: r) !!! 0%nat) with r0.
      destruct (decide (Some r0 = Some target)) as [[= ->]|Hne].
      * rewrite bool_decide_eq_true_2 by done. by rewrite <- app_assoc.
      * rewrite bool_decide_eq_false_2 by congruence. done.
Qed.

Lemma read_existing_ok `{RT : Runtime} (target : string) (w : world) bytes all :
  csv_file w = Some bytes →
  csv_reader NewlineDefault bytes = (all, None) →
  Main.read_existing_for_date target w
  = Ok (filter (λ r : row, head r = Some target) (tail all)).
Proof.
  intros Hfile Hread. unfold Main.read_existing_for_date.
  by rewrite Hfile, Hread, foldl_existing_step.
Qed.

(** [read_existing_for_date] returns [[]] when the path does not exist;
    otherwise the records after the first whose first field is exactly the
    target, in file order; an exception of the reader is not caught. *)
Theorem read_existing_for_date_rows `{RT : Runtime} (target : string) (w : world) :
  (csv_file w = None → Main.read_existing_for_date target w = Ok [])
  ∧ (∀ bytes all,
        csv_file w = Some bytes →
        csv_reader NewlineDefault bytes = (all, None) →
        Main.read_existing_for_date target w
        = Ok (filter (λ r : row, head r = Some target) (tail all)))
  ∧ (∀ bytes all e,
        csv_file w = Some bytes →
        csv_reader NewlineDefault bytes = (all, Some e) →
        Main.read_existing_for_date target w = Raise e).
Proof.
  unfold Main.read_existing_for_date. repeat split.
  - by intros ->.
  - intros bytes all -> ->. by rewrite foldl_existing_step.
  - by intros bytes all e -> ->.
Qed.

Lemma read_existing_for_date_rows_witness :
  Main.read_existing_for_date (RT := Ref.runtime) "2024-01-03" ragged_log
  = Ok [["2024-01-03"; "3"; "hi"; ""]%string].
Proof.
  exact (proj1 (proj2 (read_existing_for_date_rows (RT := Ref.runtime) "2024-01-03" ragged_log))
           (Main.written (RT := Ref.runtime) ragged_rows) ragged_rows eq_refl eq_refl).
Defined.

(** A row whose date field equals the day only after stripping is a record
    of that day for [read_all_records], and is not among the rows
    [read_existing_for_date] returns for that day. *)
Theorem unstripped_date_counted_not_found `{RT : Runtime} (w : world) bytes all
    (r : row) (d : string) (score : Z) :
  csv_file w = Some bytes →
  csv_reader NewlineDefault bytes = (all, None) →
  r ∈ tail all →
  (2 ≤ length r)%nat →
  int_of_str (r !!! 1%nat) = Ok score →
  str_strip (r !!! 0%nat) = d →
  r !!! 0%nat ≠ d →
  (∃ records, Main.read_all_records w = Ok records ∧ (d, score) ∈ records)
  ∧ (∃ rows, Main.read_existing_for_date d w = Ok rows ∧ r ∉ rows).
Proof.
  intros Hfile Hread Hin Hlen Hint Hstrip Hne. split.
  - eexists. split; [by apply read_all_records_parsed with bytes|].
    unfold parsed_records. apply list_elem_of_omap. exists r. split; [done|].
    rewrite decide_True by done. by rewrite Hint, Hstrip.
  - eexists. split; [by apply read_existing_ok with bytes|].
    rewrite list_elem_of_filter. intros [Hhead _].
    destruct r as [|r0 r]; [done|]. cbn in Hhead. injection Hhead as ->. by apply Hne.
Qed.

Lemma unstripped_date_counted_not_found_witness :
  (∃ records, Main.read_all_records (RT := Ref.runtime) ragged_log = Ok records
              ∧ ("2024-01-03"%string, 8) ∈ records)
  ∧ (∃ rows, Main.read_existing_for_date (RT := Ref.runtime) "2024-01-03" ragged_log = Ok rows
             ∧ [" 2024-01-03 "; "8"; "ho"; "a note"]%string ∉ rows).
Proof.
  apply (unstripped_date_counted_not_found (RT := Ref.runtime) ragged_log
           (Main.written (RT := Ref.runtime) ragged_rows) ragged_rows
           [" 2024-01-03 "; "8"; "ho"; "a note"]%string "2024-01-03"%string 8).
  - reflexivity.
  - vm_compute. reflexivity.
  - cbn [tail ragged_rows]. do 3 right. left.
  - cbn [length]. lia.
  - vm_compute. reflexivity.
  - vm_compute. reflexivity.
  - discriminate.
Defined.

(** After [append_record] on a log that has a first record, when the reader
    yields the old records and then the appended row: the file was not
    rewritten, [read_all_records] has one more record, the stripped day with
    the score, and [read_existing_for_date] has one more row for that day. *)
Theorem append_record_then_read `{RT : Runtime} (w : world) bytes all
    (day : string) (score : Z) (message note : string) :
  let row := [day; str_of_int score; message; note] in
  let w' := (Main.append_record day score message note w).2 in
  csv_file w = Some bytes →
  csv_reader NewlineDefault bytes = (all, None) →
  all ≠ [] →
  csv_reader NewlineDefault (String.append bytes (csv_writerow row)) = (all ++ [row], None) →
  int_of_str (str_of_int score) = Ok score →
  rewrites w' = rewrites w
  ∧ (∃ records,
        Main.read_all_records w = Ok records
        ∧ Main.read_all_records w' = Ok (records ++ [(str_strip day, score)]))
  ∧ (∃ rows,
        Main.read_existing_for_date day w = Ok rows
        ∧ Main.read_existing_for_date day w' = Ok (rows ++ [row])).
Proof.
  intros row w' Hfile Hread Hall Hread' Hint.
  assert (csv_file w' = Some (String.append bytes (csv_writerow row))) as Hfile'.
  { unfold w', Main.append_record. cbn [snd csv_file]. by rewrite Hfile. }
  assert (tail (all ++ [row]) = tail all ++ [row]) as Htail.
  { destruct all; [by destruct Hall | done]. }
  split; [done|]. split.
  - eexists. split; [by apply read_all_records_parsed with bytes|].
    rewrite (read_all_records_parsed w' _ _ Hfile' Hread'). f_equal.
    rewrite Htail. unfold parsed_records. rewrite omap_app. f_equal.
    cbn [omap list_omap].
    rewrite decide_True by (unfold row; cbn [length]; lia).
    change (row !!! 1%nat) with (str_of_int score). rewrite Hint. done.
  - eexists. split; [by apply read_existing_ok with bytes|].
    rewrite (read_existing_ok day w' _ _ Hfile' Hread'). f_equal.
    rewrite Htail, filter_app. f_equal.
    rewrite filter_cons. by rewrite decide_True.
Qed.

Lemma append_record_then_read_witness :
  let w' := (Main.append_record (RT := Ref.runtime) "2024-01-03" 7 "hi" "a, b" fresh_log).2 in
  rewrites w' = rewrites fresh_log
  ∧ (∃ records,
        Main.read_all_records (RT := Ref.runtime) fresh_log = Ok records
        ∧ Main.read_all_records (RT := Ref.runtime) w'
          = Ok (records ++ [(str_strip (Runtime := Ref.runtime) "2024-01-03", 7)]))
  ∧ (∃ rows,
        Main.read_existing_for_date (RT := Ref.runtime) "2024-01-03" fresh_log = Ok rows
        ∧ Main.read_existing_for_date (RT := Ref.runtime) "2024-01-03" w'
          = Ok (rows ++ [["2024-01-03"; str_of_int 7; "hi"; "a, b"]%string])).
Proof.
  apply (append_record_then_read (RT := Ref.runtime) fresh_log
           (Main.written (RT := Ref.runtime) [Main.v2_header]) [Main.v2_header]
           "2024-01-03" 7 "hi" "a, b").
  - reflexivity.
  - vm_compute. reflexivity.
  - discriminate.
  - vm_compute. reflexivity.
  - vm_compute. reflexivity.
Defined.

(** [append_record] on a path that does not exist creates the file with the
    row as its first record, which every reader skips as the header: no
    record, no row of the day, and no recent message for a window whose
    cutoff is a date. *)
Theorem append_record_to_missing_file `{RT : Runtime} (w : world)
    (day : string) (score : Z) (message note : string) (today last_days : Z) :
  let row := [day; str_of_int score; message; note] in
  let w' := (Main.append_record day score message note w).2 in
  csv_file w = None →
  csv_reader NewlineDefault (csv_writerow row) = ([row], None) →
  csv_file w' = Some (csv_writerow row)
  ∧ Main.read_all_records w' = Ok []
  ∧ Main.read_existing_for_date day w' = Ok []
  ∧ (window_in_range today last_days →
     Main.read_recent_messages today last_days w' = Ok ∅).
Proof.
  intros row w' Hfile Hread.
  assert (csv_file w' = Some (csv_writerow row)) as Hfile'.
  { unfold w', Main.append_record. cbn [snd csv_file]. by rewrite Hfile. }
  split; [done|]. split; [|split].
  - by rewrite (read_all_records_parsed w' _ _ Hfile' Hread).
  - by rewrite (read_existing_ok day w' _ _ Hfile' Hread).
  - intros Hwin. rewrite (read_recent_messages_read today last_days w' _ Hfile' Hwin).
    by rewrite Hread.
Qed.

Lemma append_record_to_missing_file_witness :
  Main.read_all_records (RT := Ref.runtime)
    (Main.append_record (RT := Ref.runtime) "2024-01-03" 7 "hi" "" (World None 0)).2
  = Ok [].
Proof.
  exact (proj1 (proj2 (append_record_to_missing_file (RT := Ref.runtime) (World None 0)
                         "2024-01-03" 7 "hi" "" 0 1 eq_refl eq_refl))).
Defined.

(** ** Recent messages and the choice *)

(** A longer window only adds recent messages, and a window of no day has
    none, whenever the calls return: on a file that exists they return when
    the cutoff of the window is a date. *)
Theorem read_recent_messages_widens `{RT : Runtime} (today : Z) (w : world) :
  (∀ (last_days last_days' : Z) (used used' : gset string),
      last_days ≤ last_days' →
      Main.read_recent_messages today last_days w = Ok used →
      Main.read_recent_messages today last_days' w = Ok used' →
      used ⊆ used')
  ∧ (∀ (last_days : Z) (used : gset string),
        last_days ≤ 0 →
        Main.read_recent_messages today last_days w = Ok used →
        used = ∅)
  ∧ (∀ last_days : Z,
        window_in_range today last_days →
        is_Ok (Main.read_recent_messages today last_days w)).
Proof.
  assert (∀ (n : Z) (used : gset string),
            Main.read_recent_messages today n w = Ok used →
            ∀ m, m ∈ used →
                 ∃ bytes r, csv_file w = Some bytes
                            ∧ r ∈ tail (csv_reader NewlineDefault bytes).1
                            ∧ in_window (today - (n - 1)) today r m) as Hin.
  { intros n used. unfold Main.read_recent_messages.
    destruct (csv_file w) as [bytes|]; [|by intros [= <-] m Hm].
    unfold timedelta, date_sub.
    destruct (Z.abs (n - 1) <=? 999999999); [|done]. cbn [mbind result_bind].
    destruct ((1 <=? today - (n - 1)) && (today - (n - 1) <=? 3652059)); [|done].
    cbn [mbind result_bind].
    destruct (csv_reader NewlineDefault bytes) as [all stop] eqn:Hrd.
    intros [= <-] m Hm. apply foldl_recent_step in Hm as [Hm|(r & Hr & Hw)]; [done|].
    exists bytes, r. by rewrite Hrd. }
  split; [|split].
  - intros n n' used used' Hle Hu Hu' m Hm.
    destruct (Hin n used Hu m Hm) as (bytes & r & Hfile & Hr & Hlen & d & Hd & Hwin & Hmsg).
    revert Hu'. unfold Main.read_recent_messages. rewrite Hfile.
    unfold timedelta, date_sub.
    destruct (Z.abs (n' - 1) <=? 999999999); [|done]. cbn [mbind result_bind].
    destruct ((1 <=? today - (n' - 1)) && (today - (n' - 1) <=? 3652059)); [|done].
    cbn [mbind result_bind].
    destruct (csv_reader NewlineDefault bytes) as [all stop] eqn:Hrd.
    cbn [fst] in Hr.
    intros [= <-]. apply foldl_recent_step. right. exists r. split; [done|].
    split; [done|]. exists d. repeat split; try done; lia.
  - intros n used Hn Hu. apply set_eq. intros m. split; [|by intros ?%elem_of_empty].
    intros Hm.
    destruct (Hin n used Hu m Hm) as (bytes & r & Hfile & Hr & Hlen & d & Hd & Hwin & Hmsg).
    lia.
  - intros n Hwin. destruct (csv_file w) as [bytes|] eqn:Hfile.
    + rewrite (read_recent_messages_read today n w bytes Hfile Hwin). by eexists.
    + unfold Main.read_recent_messages. rewrite Hfile. by eexists.
Qed.

Lemma read_recent_messages_widens_witness :
  ∃ used used' : gset string,
    Main.read_recent_messages (RT := Ref.runtime) jan_3_2024 1 ragged_log = Ok used
    ∧ Main.read_recent_messages (RT := Ref.runtime) jan_3_2024 30 ragged_log = Ok used'
    ∧ used ⊆ used'.
Proof.
  destruct (proj2 (proj2 (read_recent_messages_widens (RT := Ref.runtime) jan_3_2024
                            ragged_log)) 1) as [used Hu].
  { unfold window_in_range, is_date, jan_3_2024. lia. }
  destruct (proj2 (proj2 (read_recent_messages_widens (RT := Ref.runtime) jan_3_2024
                            ragged_log)) 30) as [used' Hu'].
  { unfold window_in_range, is_date, jan_3_2024. lia. }
  exists used, used'. split; [exact Hu|]. split; [exact Hu'|].
  apply (proj1 (read_recent_messages_widens (RT := Ref.runtime) jan_3_2024 ragged_log)
           1 30 used used'); [lia|exact Hu|exact Hu'].
Defined.

(** Every message of the tier that is not excluded can be drawn; when all
    of them are excluded, every message of the tier can. *)
Theorem choose_message_reaches_every_candidate (score : Z)
    (messages : gmap string (list string))
    (exclude : option string) (excludes : option (gset string)) (m : string) :
  m ∈ Main.tier_pool score messages →
  m ∉ Main.exclusions exclude excludes
  ∨ (∀ x, x ∈ Main.tier_pool score messages → x ∈ Main.exclusions exclude excludes) →
  ∃ draw : nat, Main.choose_message draw score messages exclude excludes = Ok m.
Proof.
  intros Hin Hcase. unfold Main.choose_message.
  assert (∀ l : list string, m ∈ l → ∃ draw, random_choice draw l = Ok m) as Hdraw.
  { intros l Hl. apply list_elem_of_lookup in Hl as [i Hi]. exists i.
    unfold random_choice. apply lookup_lt_Some in Hi as Hlt.
    rewrite Nat.mod_small by done. by rewrite Hi. }
  destruct (filter _ (Main.tier_pool score messages)) as [|c cs] eqn:Hcand.
  - by apply Hdraw.
  - apply Hdraw. rewrite <- Hcand. apply list_elem_of_filter.
    destruct Hcase as [Hnot|Hall]; [done|].
    assert (c ∈ filter (λ m, m ∉ Main.exclusions exclude excludes)
                  (Main.tier_pool score messages)) as Hc by (rewrite Hcand; left).
    apply list_elem_of_filter in Hc as [Hc1 Hc2]. destruct Hc1. by apply Hall.
Qed.

Lemma choose_message_reaches_every_candidate_witness :
  ∃ draw : nat,
    Main.choose_message draw 9 {[ "high"%string := ["a"; "b"; "c"]%string ]}
      (Some "a"%string) None = Ok "c"%string.
Proof.
  apply (choose_message_reaches_every_candidate 9
           {[ "high"%string := ["a"; "b"; "c"]%string ]} (Some "a"%string) None "c"%string).
  - vm_compute. do 2 right. left.
  - left. rewrite exclusions_spec. intros [[=]|(s & [=] & _)].
Defined.



(** ** Aggregation *)

Lemma sum_of_Permutation (l l' : list Z) : l ≡ₚ l' → sum_of l = sum_of l'.
Proof.
  induction 1 as [|x l l' _ IH|x y l|l l' l'' _ IH1 _ IH2]; cbn [sum_of foldr] in *;
    unfold sum_of in *; lia.
Qed.

Lemma scores_of_Permutation (d : string) (records records' : list (string * Z)) :
  records ≡ₚ records' → scores_of d records ≡ₚ scores_of d records'.
Proof. intros H. unfold scores_of. by rewrite H. Qed.

(** The daily averages do not depend on the order of the records. *)
Theorem aggregate_order_independent (records records' : list (string * Z)) :
  records ≡ₚ records' →
  Main.aggregate_daily_average records = Main.aggregate_daily_average records'
  ∧ DataManager._aggregate_daily_average records
    = DataManager._aggregate_daily_average records'.
Proof.
  intros Hperm.
  assert (foldl Main.accumulate (∅, ∅) records = foldl Main.accumulate (∅, ∅) records')
    as Hacc.
  { pose proof (foldl_accumulate records ∅ ∅) as H1.
    pose proof (foldl_accumulate records' ∅ ∅) as H2. cbn zeta in H1, H2.
    destruct (foldl Main.accumulate (∅, ∅) records) as [sums counts].
    destruct (foldl Main.accumulate (∅, ∅) records') as [sums' counts'].
    cbn [fst snd] in H1, H2.
    assert (∀ d, sums !! d = sums' !! d ∧ counts !! d = counts' !! d) as Heq.
    { intros d. destruct (H1 d) as [-> ->], (H2 d) as [-> ->].
      pose proof (scores_of_Permutation d _ _ Hperm) as Hp.
      pose proof (sum_of_Permutation _ _ Hp) as Hsum.
      pose proof (Permutation_length Hp) as Hlen.
      destruct (scores_of d records) as [|s ss], (scores_of d records') as [|s' ss'];
        try done.
      unfold len. rewrite Hsum, Hlen. done. }
    f_equal; apply map_eq; intros d; by destruct (Heq d). }
  assert (Main.aggregate_daily_average records = Main.aggregate_daily_average records')
    as Hmain.
  { unfold Main.aggregate_daily_average. by rewrite Hacc. }
  split; [exact Hmain | exact Hmain].
Qed.

Lemma aggregate_order_independent_witness :
  Main.aggregate_daily_average [("a"%string, 3); ("b"%string, 9); ("a"%string, 4)]
  = Main.aggregate_daily_average [("b"%string, 9); ("a"%string, 4); ("a"%string, 3)].
Proof.
  apply (aggregate_order_independent
           [("a"%string, 3); ("b"%string, 9); ("a"%string, 4)]
           [("b"%string, 9); ("a"%string, 4); ("a"%string, 3)]).
  etrans; [apply perm_swap|]. apply perm_skip. apply perm_swap.
Defined.

Lemma last_n_dates_nonpositive `{RT : Runtime} (today n : Z) :
  n ≤ 0 → DataManager._last_n_dates today n = Ok [].
Proof.
  intros Hn. unfold DataManager._last_n_dates, py_range.
  change (0 <? -1) with false. cbv iota.
  destruct (Z.ltb_spec (-1) (n - 1)); [lia|]. reflexivity.
Qed.

(** With a window of no day the aligned series is empty even when the log
    has records, and [render_trend] and [render_ascii_bar] report that there
    is no history. *)
Theorem aligned_series_nonpositive_window `{RT : Runtime} (today n : Z) (w : world) :
  n ≤ 0 →
  is_Ok (DataManager._read_aligned_series today n w) →
  DataManager._read_aligned_series today n w = Ok ([], [])
  ∧ DataManager.render_trend today n w = Ok None
  ∧ DataManager.render_ascii_bar today n w = Ok None.
Proof.
  intros Hn [r Hr].
  assert (DataManager._read_aligned_series today n w = Ok ([], [])) as Hs.
  { revert Hr. unfold DataManager._read_aligned_series.
    destruct (DataManager._read_all_records w) as [[|rec records]|e];
      cbn [mbind result_bind mret result_ret]; [done| |done].
    destruct (DataManager._aggregate_daily_average _) as [avg|e];
      cbn [mbind result_bind mret result_ret]; [|done].
    by rewrite last_n_dates_nonpositive. }
  split; [done|]. unfold DataManager.render_trend, DataManager.render_ascii_bar.
  rewrite Hs. done.
Qed.

Lemma aligned_series_nonpositive_window_witness :
  DataManager._read_aligned_series (RT := Ref.runtime) jan_3_2024 0 ragged_log = Ok ([], [])
  ∧ DataManager.render_trend (RT := Ref.runtime) jan_3_2024 0 ragged_log = Ok None
  ∧ DataManager.render_ascii_bar (RT := Ref.runtime) jan_3_2024 0 ragged_log = Ok None.
Proof.
  apply (aligned_series_nonpositive_window (RT := Ref.runtime) jan_3_2024 0 ragged_log).
  - lia.
  - eexists. vm_compute. reflexivity.
Defined.

(** ** The quotient of two integers is a finite float *)

Lemma Zdigits2_ge (m k : Z) : 0 < m → 2 ^ (k - 1) ≤ m → k ≤ Zdigits2 m.
Proof.
  intros Hm Hk. pose proof (Zdigits2_upper m ltac:(lia)) as Hup.
  pose proof (Zdigits2_pos m Hm) as Hpos.
  destruct (Z.le_gt_cases k (Zdigits2 m)) as [|Hlt]; [done|].
  assert (2 ^ Zdigits2 m ≤ 2 ^ (k - 1)) by (apply Z.pow_le_mono_r; lia). lia.
Qed.

Lemma Zdigits2_mono (m m' : Z) : 0 ≤ m → m ≤ m' → Zdigits2 m ≤ Zdigits2 m'.
Proof.
  intros Hm Hle. destruct (Z.eq_dec m 0) as [->|Hne]; [apply Zdigits2_nonneg|].
  apply Zdigits2_ge; [lia|]. pose proof (Zdigits2_lower m ltac:(lia)). lia.
Qed.

Lemma Zdigits2_div_pow2 (m n : Z) :
  0 ≤ n → 0 < m / 2 ^ n → Zdigits2 (m / 2 ^ n) = Zdigits2 m - n.
Proof.
  intros Hn Hq. pose proof (pow2_pos n Hn) as Hp.
  assert (0 < m) as Hm.
  { destruct (Z.le_gt_cases m 0) as [Hle|]; [|done].
    assert (m / 2 ^ n ≤ 0) by (apply Z.div_le_upper_bound; lia). lia. }
  pose proof (Zdigits2_upper m ltac:(lia)) as Hup.
  pose proof (Zdigits2_lower m Hm) as Hlo.
  pose proof (Zdigits2_pos m Hm) as Hd.
  assert (2 ^ n ≤ m) as Hnm.
  { destruct (Z.le_gt_cases (2 ^ n) m); [done|]. rewrite Z.div_small in Hq by lia. lia. }
  assert (n < Zdigits2 m) as Hnd.
  { apply (Z.pow_lt_mono_r_iff 2); lia. }
  apply Z.le_antisymm.
  - apply Zdigits2_le; [lia..|]. apply Z.div_lt_upper_bound; [lia|].
    rewrite <- Z.pow_add_r by lia. replace (n + (Zdigits2 m - n)) with (Zdigits2 m) by lia.
    done.
  - apply Zdigits2_ge; [done|]. apply Z.div_le_lower_bound; [lia|].
    rewrite <- Z.pow_add_r by lia. replace (n + (Zdigits2 m - n - 1)) with (Zdigits2 m - 1) by lia.
    done.
Qed.

(** A shift to the exponent of the format leaves a mantissa that fits it. *)
Lemma shr_fexp_canonical (m e : Z) (l : location) :
  0 ≤ m →
  e ≤ fexp64 (Zdigits2 m + e) →
  ∃ mrs e', shr_fexp prec emax m e l = (mrs, e')
            ∧ 0 ≤ shr_m mrs
            ∧ fexp64 (Zdigits2 (shr_m mrs) + e') = e'.
Proof.
  intros Hm He. unfold shr_fexp, shr. rewrite fexp_64.
  pose proof (Zdigits2_upper m Hm) as Hup. pose proof (Zdigits2_nonneg m) as Hd.
  assert (shr_m (shr_record_of_loc m l) = m) as Hrec by (by destruct l as [|[]]).
  destruct (fexp64 (Zdigits2 m + e) - e) as [|n|n] eqn:Hn; [| |lia].
  - eexists _, _. split; [reflexivity|]. rewrite Hrec. split; [done|]. lia.
  - eexists _, _. split; [reflexivity|].
    rewrite iter_shr_1_m, Hrec by (rewrite Hrec; done).
    rewrite Z.shiftr_div_pow2 by lia.
    pose proof (pow2_pos (Zpos n) ltac:(lia)) as Hp.
    assert (0 ≤ m / 2 ^ Zpos n) as Hq by (apply Z.div_pos; lia).
    split; [done|].
    destruct (Z.eq_dec (m / 2 ^ Zpos n) 0) as [Hz|Hnz].
    + rewrite Hz. cbn [Zdigits2].
      assert (m < 2 ^ Zpos n) as Hlt.
      { destruct (Z.le_gt_cases (2 ^ Zpos n) m) as [Hge|]; [|done].
        assert (1 ≤ m / 2 ^ Zpos n) by (apply Z.div_le_lower_bound; lia). lia. }
      assert (Zdigits2 m ≤ Zpos n) by (apply Zdigits2_le; lia).
      unfold fexp64 in *. lia.
    + rewrite Zdigits2_div_pow2 by lia. unfold fexp64 in *. lia.
Qed.

(** The rounded value is a valid float. *)
Lemma binary_round_aux_valid (sx : bool) (mx ex : Z) (lx : location) :
  0 ≤ mx →
  ex ≤ fexp64 (Zdigits2 mx + ex) →
  valid_binary (binary_round_aux prec emax sx mx ex lx) = true
  ∧ binary_round_aux prec emax sx mx ex lx ≠ S754_nan.
Proof.
  intros Hmx Hex. unfold binary_round_aux.
  destruct (shr_fexp_canonical mx ex lx Hmx Hex) as (mrs1 & e1 & -> & Hm1 & Hc1).
  pose proof (round_nearest_even_bounds (shr_m mrs1) (loc_of_shr_record mrs1)) as Hr.
  set (m2 := round_nearest_even _ _) in *.
  assert (e1 ≤ fexp64 (Zdigits2 m2 + e1)) as He1.
  { pose proof (Zdigits2_mono (shr_m mrs1) m2 Hm1 ltac:(lia)).
    pose proof (fexp64_mono (Zdigits2 (shr_m mrs1) + e1) (Zdigits2 m2 + e1) ltac:(lia)).
    lia. }
  destruct (shr_fexp_canonical m2 e1 loc_Exact ltac:(lia) He1) as (mrs2 & e2 & -> & Hm2 & Hc2).
  destruct (shr_m mrs2) as [|p|p] eqn:Hp; [done| |lia].
  change (emax - prec) with 971.
  destruct (Z.leb_spec e2 971) as [Hle|Hgt]; [|done].
  split; [|done]. cbn [valid_binary]. unfold bounded, canonical_mantissa.
  rewrite fexp_64. change (emax - prec) with 971.
  cbn [Zdigits2] in Hc2. rewrite Hc2, Z.eqb_refl. cbn [andb]. by apply Z.leb_le.
Qed.

(** The quotient [SFdiv_core_binary] hands to the rounding does not lie above
    the exponent of the format. *)
Lemma div_core_long (m1 m2 : Z) :
  0 < m1 → 0 < m2 →
  let '(q, e', l) := SFdiv_core_binary prec emax m1 0 m2 0 in
  0 ≤ q ∧ e' ≤ fexp64 (Zdigits2 q + e').
Proof.
  intros Hm1 Hm2. unfold SFdiv_core_binary. rewrite fexp_64.
  rewrite !Z.add_0_r. change (0 - 0) with 0.
  set (e' := Z.min _ _).
  assert (e' ≤ 0) as He' by (unfold e'; lia).
  assert (-1074 ≤ e') as He'lo by (unfold e', fexp64; lia).
  set (m' := match 0 - e' with Z0 => m1 | Zpos _ => _ | Zneg _ => _ end).
  pose proof (Zdigits2_upper m1 ltac:(lia)) as Hup1.
  pose proof (Zdigits2_lower m1 Hm1) as Hlo1.
  pose proof (Zdigits2_pos m1 Hm1) as Hd1.
  pose proof (Zdigits2_upper m2 ltac:(lia)) as Hup2.
  pose proof (Zdigits2_pos m2 Hm2) as Hd2.
  assert (m' = m1 * 2 ^ (- e')) as Hm'.
  { unfold m'. destruct (0 - e') as [|k|k] eqn:Hs; [| |lia].
    - replace (- e') with 0 by lia. lia.
    - rewrite Z.shiftl_mul_pow2 by lia. f_equal. f_equal. lia. }
  clearbody m'.
  destruct (Z.div_eucl m' m2) as [q r] eqn:Hdiv.
  assert (q = m' / m2) as Hq by (unfold Z.div; by rewrite Hdiv).
  pose proof (pow2_pos (- e') ltac:(lia)) as Hp.
  assert (0 ≤ q) as Hq0 by (subst q; apply Z.div_pos; nia).
  split; [done|].
  set (t := Zdigits2 m1 - e' - 1 - Zdigits2 m2).
  destruct (Z.le_gt_cases 0 t) as [Ht|Ht].
  - assert (2 ^ t ≤ q) as Hqt.
    { subst q. apply Z.div_le_lower_bound; [lia|].
      assert (2 ^ (Zdigits2 m1 - 1) * 2 ^ (- e') = 2 ^ t * 2 ^ Zdigits2 m2) as Hsplit.
      { rewrite <- !Z.pow_add_r by lia. f_equal. unfold t. lia. }
      pose proof (pow2_pos t Ht). nia. }
    pose proof (pow2_pos t Ht).
    pose proof (Zdigits2_ge q (t + 1) ltac:(lia) ltac:(by replace (t + 1 - 1) with t by lia)).
    pose proof (fexp64_mono (Zdigits2 m1 - Zdigits2 m2) (Zdigits2 q + e')
                  ltac:(unfold t in *; lia)).
    unfold e' in *. lia.
  - pose proof (Zdigits2_nonneg q).
    assert (e' = -1074) as ->; [|unfold fexp64; lia].
    unfold e', fexp64 in *. unfold t in Ht. lia.
Qed.

Lemma int_true_div_finite (a b : Z) (q : float) :
  int_true_div a b = Ok q → ∃ k : Z, py_round q = Ok k.
Proof.
  unfold int_true_div.
  destruct (Z.eqb_spec b 0) as [|Hb]; [done|].
  destruct (Z.eqb_spec a 0) as [|Ha].
  { intros [= <-]. destruct (xorb (a <? 0) (b <? 0)); by eexists. }
  pose proof (div_core_long (Z.abs a) (Z.abs b) ltac:(lia) ltac:(lia)) as Hlong.
  destruct (SFdiv_core_binary prec emax (Z.abs a) 0 (Z.abs b) 0) as [[q0 e] l].
  destruct Hlong as [Hq0 He].
  destruct (binary_round_aux_valid (xorb (a <? 0) (b <? 0)) q0 e l Hq0 He) as [Hvalid Hnan].
  set (r := binary_round_aux prec emax _ q0 e l) in *. intros Hq.
  assert (q = SF2Prim r ∧ ∀ s, r ≠ S754_infinity s) as [-> Hinf].
  { destruct r; try done; by injection Hq as <-. }
  unfold py_round. rewrite Prim2SF_SF2Prim by done.
  destruct r as [s|s| |s m e']; eauto; [by destruct (Hinf s)|done].
Qed.

Lemma mapM_Ok_inv {A B} (f : A → result B) (l : list A) (k : list B) :
  mapM f l = Ok k → Forall2 (λ x y, f x = Ok y) l k.
Proof.
  revert k. induction l as [|a l IH]; intros k.
  - intros [= <-]. constructor.
  - change (mapM f (a :: l)) with (y ← f a; k ← mapM f l; mret (y :: k)).
    destruct (f a) as [y|e] eqn:Hfa; [|done].
    cbn [mbind result_bind]. destruct (mapM f l) as [k'|e]; [|done].
    intros [= <-]. constructor; [done|]. by apply IH.
Qed.

Lemma dict_comprehension_inv {V W} (f : string → V → result W) (d : gmap string V)
    (m : gmap string W) (k : string) (w : W) :
  dict_comprehension f d = Ok m → m !! k = Some w →
  ∃ v, d !! k = Some v ∧ f k v = Ok w.
Proof.
  unfold dict_comprehension.
  destruct (mapM _ (map_to_list d)) as [kvs|e] eqn:HM; [|done].
  intros [= <-] Hk. apply mapM_Ok_inv in HM.
  apply elem_of_list_to_map_2 in Hk.
  apply (Forall2_elem_of_r _ _ _ _ HM) in Hk as ([k' v] & Hin & HF).
  apply dict_item_ok in HF as [Hk' Hw]. cbn [fst snd] in Hk', Hw. subst k'.
  exists v. split; [by apply elem_of_map_to_list|done].
Qed.

Lemma aggregate_values_finite (records : list (string * Z)) (avg : gmap string float)
    (d : string) (q : float) :
  Main.aggregate_daily_average records = Ok avg → avg !! d = Some q →
  ∃ k : Z, py_round q = Ok k.
Proof.
  unfold Main.aggregate_daily_average.
  destruct (foldl Main.accumulate (∅, ∅) records) as [sums counts].
  intros Hagg Hd.
  destruct (dict_comprehension_inv _ _ _ _ _ Hagg Hd) as (s & _ & Hf).
  destruct (dict_getitem counts d) as [c|e]; [|done].
  by apply int_true_div_finite in Hf.
Qed.

(** A daily average is a finite float: neither NaN nor an infinity, so
    [round] does not raise on it. *)
Theorem daily_averages_finite (records : list (string * Z)) (avg : gmap string float)
    (d : string) (q : float) :
  Main.aggregate_daily_average records = Ok avg →
  avg !! d = Some q →
  PrimFloat.is_nan q = false
  ∧ PrimFloat.is_infinity q = false
  ∧ ∃ k : Z, py_round q = Ok k.
Proof.
  intros Hagg Hd. destruct (aggregate_values_finite _ _ _ _ Hagg Hd) as [k Hk].
  assert (PrimFloat.is_nan q = false ∧ PrimFloat.is_infinity q = false) as [Hn Hi].
  { revert Hk. unfold py_round.
    unfold PrimFloat.is_nan, PrimFloat.is_infinity.
    rewrite !FloatAxioms.eqb_spec, FloatAxioms.abs_spec.
    destruct (Prim2SF q) as [s|s| |s m e]; try done; intros _.
    split.
    - unfold SFeqb, SFcompare. rewrite Z.compare_refl, Pos.compare_cont_refl.
      by destruct s.
    - change (Prim2SF infinity) with (S754_infinity false). by destruct s. }
  eauto.
Qed.

Lemma daily_averages_finite_witness :
  PrimFloat.is_nan 5.5%float = false
  ∧ PrimFloat.is_infinity 5.5%float = false
  ∧ ∃ k : Z, py_round 5.5%float = Ok k.
Proof.
  apply (daily_averages_finite [("a"%string, 5); ("a"%string, 6)]
           {[ "a"%string := 5.5%float ]} "a"%string).
  - vm_compute. reflexivity.
  - apply lookup_singleton_eq.
Defined.

(** ** The curve and the bars *)

Lemma aligned_series_values `{RT : Runtime} (today n : Z) (w : world)
    (days : list string) (values : list (option float)) :
  DataManager._read_aligned_series today n w = Ok (days, values) →
  length values = length days
  ∧ Forall (λ v, ∀ q, v = Some q → ∃ k : Z, py_round q = Ok k) values.
Proof.
  unfold DataManager._read_aligned_series.
  destruct (DataManager._read_all_records w) as [[|rec records]|e];
    cbn [mbind result_bind mret result_ret]; [|  |done].
  - intros [= <- <-]. split; [done|constructor].
  - destruct (DataManager._aggregate_daily_average (rec :: records)) as [avg|e] eqn:Hagg;
      cbn [mbind result_bind mret result_ret]; [|done].
    destruct (DataManager._last_n_dates today n) as [labels|e];
      cbn [mbind result_bind mret result_ret]; [|done].
    intros [= <- <-]. split; [by rewrite length_map|].
    apply Forall_forall. intros v Hv q ->.
    apply list_elem_of_fmap in Hv as (d & Hd & _). symmetry in Hd.
    by apply (aggregate_values_finite _ _ _ _ Hagg Hd).
Qed.

Lemma int_min_min (a b : Z) : int_min a b = Z.min a b.
Proof. unfold int_min. destruct (Z.ltb_spec b a); lia. Qed.

Lemma int_max_max (a b : Z) : int_max a b = Z.max a b.
Proof. unfold int_max. destruct (Z.ltb_spec a b); lia. Qed.

Lemma str_repeat_block (n : Z) :
  str_repeat DataManager.full_block n = replicate (Z.to_nat n) 9608%N.
Proof.
  unfold str_repeat, DataManager.full_block.
  induction (Z.to_nat n) as [|k IH]; [done|]. cbn [replicate concat app]. by rewrite IH.
Qed.

Lemma bar_of_finite (v : option float) :
  (∀ q, v = Some q → ∃ k : Z, py_round q = Ok k) →
  ∃ bar, DataManager.bar_of v = Ok bar ∧ bar_shows v bar.
Proof.
  intros Hv. destruct v as [q|]; [|by eexists].
  destruct (Hv q eq_refl) as [r Hr]. unfold DataManager.bar_of. rewrite Hr.
  cbn [mbind result_bind mret result_ret]. eexists. split; [done|].
  exists r. split; [done|]. rewrite str_repeat_block, int_max_max, int_min_min. done.
Qed.

(** Once the series is read and has a day, [render_ascii_bar] does not
    raise: it prints the days in order, ["(无)"] for a day without a record
    and else as many blocks as the mean rounds to, at least 1 and at most 10. *)
Theorem render_ascii_bar_bars `{RT : Runtime} (today n : Z) (w : world)
    (days : list string) (values : list (option float)) :
  DataManager._read_aligned_series today n w = Ok (days, values) →
  days ≠ [] →
  ∃ lines : list (string * ustr),
    DataManager.render_ascii_bar today n w = Ok (Some lines)
    ∧ lines.*1 = days
    ∧ Forall2 bar_shows values lines.*2
    ∧ Forall (λ line, line.2 = DataManager.no_value
                      ∨ ∃ k : nat, (1 ≤ k ≤ 10)%nat ∧ line.2 = replicate k 9608%N) lines.
Proof.
  intros Hseries Hdays. unfold DataManager.render_ascii_bar. rewrite Hseries.
  cbn [mbind result_bind]. destruct (aligned_series_values _ _ _ _ _ Hseries) as [Hlen Hfin].
  assert (∃ lines,
            mapM (λ dv : string * option float,
                    bar ← DataManager.bar_of dv.2; mret (dv.1, bar)) (zip days values)
            = Ok lines
            ∧ lines.*1 = days ∧ Forall2 bar_shows values lines.*2) as (lines & Hm & H1 & H2).
  { clear Hseries Hdays. revert values Hlen Hfin.
    induction days as [|d days IH]; intros [|v values] Hlen Hfin; try done.
    - exists []. repeat split; constructor.
    - apply Forall_cons in Hfin as [Hv Hfin].
      destruct (IH values) as (lines & Hm & H1 & H2); [by injection Hlen|done|].
      destruct (bar_of_finite v Hv) as (bar & Hbar & Hshows).
      exists ((d, bar) :: lines).
      change (zip (d :: days) (v :: values)) with ((d, v) :: zip days values).
      set (F := λ dv : string * option float, _) in *.
      change (mapM F ((d, v) :: zip days values))
        with (y ← F (d, v); k ← mapM F (zip days values); mret (y :: k)).
      change (F (d, v)) with (bar ← DataManager.bar_of v; mret (d, bar)).
      rewrite Hbar. cbn [mbind result_bind mret result_ret].
      rewrite Hm. cbn [mbind result_bind mret result_ret fmap list_fmap fst snd].
      rewrite H1. split; [done|]. split; [done|]. by constructor. }
  exists lines. rewrite Hm. destruct days as [|d days]; [done|].
  repeat split; try done.
  assert (Forall (λ bar, bar = DataManager.no_value
                         ∨ ∃ k : nat, (1 ≤ k ≤ 10)%nat ∧ bar = replicate k 9608%N) lines.*2)
    as Hbars.
  { clear -H2. induction H2 as [|v bar vs bars Hb _ IH]; constructor; [|done].
    destruct v as [q|]; [|by left]. destruct Hb as (r & _ & ->). right.
    exists (Z.to_nat (Z.max 1 (Z.min 10 r))). split; [lia|done]. }
  by apply Forall_fmap in Hbars.
Qed.

Lemma render_ascii_bar_bars_witness :
  ∃ lines : list (string * ustr),
    DataManager.render_ascii_bar (RT := Ref.runtime) jan_3_2024 3 ragged_log = Ok (Some lines)
    ∧ lines.*1 = ["2024-01-01"; "2024-01-02"; "2024-01-03"]%string
    ∧ Forall2 bar_shows [Some 5%float; None; Some 5.5%float] lines.*2
    ∧ Forall (λ line, line.2 = DataManager.no_value
                      ∨ ∃ k : nat, (1 ≤ k ≤ 10)%nat ∧ line.2 = replicate k 9608%N) lines.
Proof.
  apply (render_ascii_bar_bars (RT := Ref.runtime) jan_3_2024 3 ragged_log).
  - vm_compute. reflexivity.
  - discriminate.
Defined.

Lemma glyph_of_dot (v : option float) : glyph_of v = 183%N ↔ v = None.
Proof.
  split; [|by intros ->]. destruct v as [q|]; [|done]. intros Hg.
  destruct (glyph_of_block q) as (k & _ & Hk). rewrite Hg in Hk.
  apply list_elem_of_lookup_2 in Hk. exfalso. revert Hk. unfold Main.blocks.
  rewrite !elem_of_cons, elem_of_nil. intros H. repeat destruct H as [H|H]; done.
Qed.

(** Once the series is read and has a day, [render_trend] does not raise:
    the curve has one glyph for each day, the placeholder exactly at the days
    without a record, and the values it counts and averages are as many as
    the glyphs that are not the placeholder. *)
Theorem render_trend_curve `{RT : Runtime} (today n : Z) (w : world)
    (days : list string) (values : list (option float)) :
  DataManager._read_aligned_series today n w = Ok (days, values) →
  days ≠ [] →
  ∃ (spark : ustr) (available : list float),
    DataManager.render_trend today n w = Ok (Some (spark, available))
    ∧ length spark = length days
    ∧ length available = length (filter (λ c : N, c ≠ 183%N) spark)
    ∧ (∀ i : nat, spark !! i = Some 183%N ↔ values !! i = Some None).
Proof.
  intros Hseries Hdays. unfold DataManager.render_trend. rewrite Hseries.
  cbn [mbind result_bind]. destruct (aligned_series_values _ _ _ _ _ Hseries) as [Hlen _].
  change (DataManager._to_sparkline values) with (Main.to_sparkline values).
  rewrite to_sparkline_map. cbn [mbind result_bind mret result_ret].
  destruct days as [|d days]; [done|].
  eexists _, _. split; [reflexivity|]. split; [by rewrite length_map|]. split.
  - clear. induction values as [|[q|] values IH]; [done| |].
    + change (omap id (Some q :: values)) with (q :: omap id values).
      cbn [map]. rewrite filter_cons.
      rewrite decide_True by (by rewrite glyph_of_dot). cbn [length]. by rewrite IH.
    + change (omap id (None :: values)) with (omap id values).
      cbn [map]. rewrite filter_cons.
      rewrite decide_False by (intros H; by apply H). done.
  - intros i. change (map glyph_of values) with (glyph_of <$> values).
    rewrite list_lookup_fmap. destruct (values !! i) as [v|]; cbn; [|done].
    split.
    + intros [= Hg]. by apply glyph_of_dot in Hg as ->.
    + intros [= ->]. done.
Qed.

Lemma render_trend_curve_witness :
  ∃ (spark : ustr) (available : list float),
    DataManager.render_trend (RT := Ref.runtime) jan_3_2024 3 ragged_log
    = Ok (Some (spark, available))
    ∧ length spark = 3%nat
    ∧ length available = length (filter (λ c : N, c ≠ 183%N) spark)
    ∧ (∀ i : nat,
          spark !! i = Some 183%N ↔ [Some 5%float; None; Some 5.5%float] !! i = Some None).
Proof.
  apply (render_trend_curve (RT := Ref.runtime) jan_3_2024 3 ragged_log
           ["2024-01-01"; "2024-01-02"; "2024-01-03"]%string).
  - vm_compute. reflexivity.
  - discriminate.
Defined.

(** ** The diary *)

Lemma slice_from_last {A} (l : list A) (k : Z) :
  1 ≤ k → slice_from l (- k) = drop (length l - Z.to_nat (Z.min k (len l))) l.
Proof.
  intros Hk. unfold slice_from. rewrite int_max_max. unfold len.
  destruct (Z.ltb_spec (- k) 0); [|lia]. f_equal. lia.
Qed.

Lemma slice_from_front {A} (l : list A) (k : Z) :
  0 ≤ k → slice_from l k = drop (Z.to_nat k) l.
Proof.
  intros Hk. unfold slice_from. rewrite int_min_min. unfold len.
  destruct (Z.ltb_spec k 0); [lia|].
  destruct (Z.le_gt_cases k (Z.of_nat (length l))).
  - f_equal. lia.
  - rewrite !drop_ge; [done|lia..].
Qed.

Lemma diary_filter `{RT : Runtime} (rows : list row) :
  filter (λ r : row, 4 ≤ len r ∧ str_strip (r !!! 3%nat) ≠ EmptyString) rows
  = diary_rows rows.
Proof.
  unfold diary_rows. apply list_filter_iff. intros r. unfold len. split; intros [? ?]; split; (lia || done).
Qed.

Lemma render_diary_read `{RT : Runtime} (last_k : Z) (w : world) bytes all :
  csv_file w = Some bytes →
  csv_reader NewlineDefault bytes = (all, None) →
  DataManager.render_diary last_k w
  = Ok (match diary_rows (tail all) with
        | [] => [DataManager.no_diary]
        | _ :: _ =>
            DataManager.diary_heading (int_min last_k (len (diary_rows (tail all))))
            :: map DataManager.diary_entry (slice_from (diary_rows (tail all)) (- last_k))
        end).
Proof.
  intros Hfile Hread. unfold DataManager.render_diary.
  rewrite Hfile, Hread, diary_filter. by destruct (diary_rows (tail all)).
Qed.

(** For a count of 1 or more [render_diary] prints that there is no diary
    when no row has a note; otherwise the heading with the number of entries
    shown, the smaller of the count and the number of rows with a note, and
    then that many entries: the last rows with a note, in file order. *)
Theorem render_diary_last_entries `{RT : Runtime} (last_k : Z) (w : world) bytes all :
  csv_file w = Some bytes →
  csv_reader NewlineDefault bytes = (all, None) →
  1 ≤ last_k →
  let diary := diary_rows (tail all) in
  let shown := Z.min last_k (len diary) in
  DataManager.render_diary last_k w
  = Ok (match diary with
        | [] => [DataManager.no_diary]
        | _ => DataManager.diary_heading shown
               :: map DataManager.diary_entry (drop (length diary - Z.to_nat shown) diary)
        end)
  ∧ length (drop (length diary - Z.to_nat shown) diary) = Z.to_nat shown.
Proof.
  intros Hfile Hread Hk. cbn zeta.
  rewrite (render_diary_read last_k w bytes all Hfile Hread).
  rewrite int_min_min, slice_from_last by done.
  split; [done|]. rewrite length_drop. unfold len. lia.
Qed.

Lemma render_diary_last_entries_witness :
  DataManager.render_diary (RT := Ref.runtime) 1 ragged_log
  = Ok [DataManager.diary_heading 1;
        DataManager.diary_entry [" 2024-01-03 "; "8"; "ho"; "a note"]%string].
Proof.
  exact (proj1 (render_diary_last_entries (RT := Ref.runtime) 1 ragged_log
                  (Main.written (RT := Ref.runtime) ragged_rows) ragged_rows
                  eq_refl eq_refl ltac:(lia))).
Defined.

(** For a count of 0 or less the heading shows the count itself, while the
    entries printed are the rows with a note without the first [-last_k] of
    them: all of them for the count 0. *)
Theorem render_diary_nonpositive_count `{RT : Runtime} (last_k : Z) (w : world) bytes all :
  csv_file w = Some bytes →
  csv_reader NewlineDefault bytes = (all, None) →
  diary_rows (tail all) ≠ [] →
  last_k ≤ 0 →
  DataManager.render_diary last_k w
  = Ok (DataManager.diary_heading last_k
        :: map DataManager.diary_entry (drop (Z.to_nat (- last_k)) (diary_rows (tail all)))).
Proof.
  intros Hfile Hread Hne Hk.
  rewrite (render_diary_read last_k w bytes all Hfile Hread).
  rewrite int_min_min, slice_from_front by lia.
  destruct (diary_rows (tail all)) as [|r rs] eqn:Hd; [done|].
  do 3 f_equal. unfold len. lia.
Qed.

Lemma render_diary_nonpositive_count_witness :
  DataManager.render_diary (RT := Ref.runtime) 0 ragged_log
  = Ok [DataManager.diary_heading 0;
        DataManager.diary_entry [" 2024-01-03 "; "8"; "ho"; "a note"]%string].
Proof.
  exact (render_diary_nonpositive_count (RT := Ref.runtime) 0 ragged_log
           (Main.written (RT := Ref.runtime) ragged_rows) ragged_rows
           eq_refl eq_refl ltac:(discriminate) ltac:(lia)).
Defined.

(** At the diary command of [main] the count is between 1 and 100, and 10
    when the line is blank or no integer; on a log with a diary row the
    heading then announces exactly the number of entries printed after it. *)
Theorem diary_command_heading_counts_entries `{RT : Runtime} (line : string) (w : world)
    bytes all :
  csv_file w = Some bytes →
  csv_reader NewlineDefault bytes = (all, None) →
  diary_rows (tail all) ≠ [] →
  let last_k := MainLoop.diary_count line in
  1 ≤ last_k ≤ 100
  ∧ (str_strip line = EmptyString ∨ (∃ e, int_of_str (str_strip line) = Raise e) →
     last_k = 10)
  ∧ ∃ (shown : nat) (entries : list string),
      DataManager.render_diary last_k w
      = Ok (DataManager.diary_heading (Z.of_nat shown) :: entries)
      ∧ length entries = shown
      ∧ (1 ≤ shown ≤ 100)%nat.
Proof.
  intros Hfile Hread Hne last_k.
  assert (1 ≤ last_k ≤ 100) as Hk.
  { unfold last_k, MainLoop.diary_count. rewrite int_max_max, int_min_min. lia. }
  split; [done|]. split.
  { unfold last_k, MainLoop.diary_count. rewrite int_max_max, int_min_min.
    intros [->|[e ->]]; [by rewrite decide_True|].
    by destruct (decide _). }
  rewrite (render_diary_read last_k w bytes all Hfile Hread).
  rewrite int_min_min, slice_from_last by lia.
  destruct (diary_rows (tail all)) as [|r rows] eqn:Hd; [done|]. rewrite <- Hd.
  eexists (Z.to_nat (Z.min last_k (len (diary_rows (tail all))))), _.
  split; [|split].
  - do 3 f_equal. unfold len. lia.
  - rewrite length_map, length_drop. unfold len. lia.
  - unfold len. rewrite Hd. cbn [length]. lia.
Qed.

Lemma diary_command_heading_counts_entries_witness :
  ∃ (shown : nat) (entries : list string),
    DataManager.render_diary (RT := Ref.runtime)
      (MainLoop.diary_count (RT := Ref.runtime) "many") ragged_log
    = Ok (DataManager.diary_heading (Z.of_nat shown) :: entries)
    ∧ length entries = shown
    ∧ (1 ≤ shown ≤ 100)%nat.
Proof.
  exact (proj2 (proj2 (diary_command_heading_counts_entries (RT := Ref.runtime) "many"
                         ragged_log (Main.written (RT := Ref.runtime) ragged_rows)
                         ragged_rows eq_refl eq_refl ltac:(discriminate)))).
Defined.

(** ** Asking for a score *)

(** [ask_for_score] returns a score exactly when a line holds an integer
    from 1 to 10 and every line before it was rejected: it returns the score
    of the first such line and leaves the lines after it unread. *)
Theorem ask_for_score_first_accepted `{RT : Runtime} (lines : list string)
    (score : Z) (rest : list string) :
  Main.ask_for_score lines = Returned score rest
  ↔ ∃ (skipped : list string) (line : string),
      lines = skipped ++ line :: rest
      ∧ Forall rejected skipped
      ∧ accepted line score.
Proof.
  split.
  - induction lines as [|l lines IH]; cbn [Main.ask_for_score]; [done|].
    destruct (int_of_str (str_strip l)) as [n|e] eqn:Hint.
    + destruct (Z.leb_spec 1 n); cbn [andb];
        [destruct (Z.leb_spec n 10)|].
      * intros [= -> ->]. exists [], l.
        split; [done|]. split; [constructor|]. split; [done|lia].
      * intros (skipped & line & -> & Hrej & Hacc)%IH.
        exists (l :: skipped), line.
        split; [done|]. split; [|done]. constructor; [|done]. right. exists n. split; [done|lia].
      * intros (skipped & line & -> & Hrej & Hacc)%IH.
        exists (l :: skipped), line.
        split; [done|]. split; [|done]. constructor; [|done]. right. exists n. split; [done|lia].
    + destruct e; try done.
      intros (skipped & line & -> & Hrej & Hacc)%IH.
      exists (l :: skipped), line.
      split; [done|]. split; [|done]. constructor; [|done]. by left.
  - intros (skipped & line & -> & Hrej & Hint & Hrange).
    induction Hrej as [|l skipped Hl _ IH]; cbn [app Main.ask_for_score].
    + rewrite Hint.
      destruct (Z.leb_spec 1 score); [|lia]. destruct (Z.leb_spec score 10); [|lia]. done.
    + destruct Hl as [-> | (n & -> & Hn)]; [done|].
      destruct (Z.leb_spec 1 n); cbn [andb]; [destruct (Z.leb_spec n 10)|]; try done. lia.
Qed.

(** ** The message bank *)

Lemma first_existing_skip {A} (missing : nat) (c : A) (later : list (option A)) :
  Main.first_existing (replicate missing None ++ Some c :: later) = Some c.
Proof. induction missing as [|n IH]; [done|]. exact IH. Qed.

(** When the first existing candidate holds an object whose tiers can all be
    iterated, each tier of the bank is [list(map(str, value))] of its value,
    and the default list of the tier when the object has no such key.
    Candidates after the first existing one are not looked at. *)
Theorem load_messages_reads_first_bank (missing : nat) (data : gmap string json_value)
    (later : list (option (option json_document))) :
  (∀ key default, (key, default) ∈ tiers → data !! key ≠ Some JScalar) →
  ∀ key default,
    (key, default) ∈ tiers →
    Main.load_messages (replicate missing None ++ Some (Some (JObject data)) :: later) !! key
    = match data !! key with
      | Some v => list_map_str v
      | None => Some default
      end.
Proof.
  intros Hgood key default Hkey. unfold Main.load_messages.
  rewrite first_existing_skip. unfold Main.tier_of.
  assert (∀ key default, (key, default) ∈ tiers →
            ∃ l, match data !! key with
                 | Some v => list_map_str v
                 | None => Some default
                 end = Some l) as Hsome.
  { intros k d Hk. specialize (Hgood k d Hk).
    destruct (data !! k) as [[]|]; try done; eauto. }
  destruct (Hsome "low"%string Main.default_low) as [low Hlow]; [left|].
  destruct (Hsome "mid"%string Main.default_mid) as [mid Hmid]; [right; left|].
  destruct (Hsome "high"%string Main.default_high) as [high Hhigh]; [do 2 right; left|].
  rewrite Hlow, Hmid, Hhigh.
  unfold tiers in Hkey. rewrite !elem_of_cons, elem_of_nil in Hkey.
  destruct Hkey as [[= -> ->]|[[= -> ->]|[[= -> ->]|[]]]].
  - by rewrite Hlow, lookup_insert_eq.
  - rewrite Hmid, lookup_insert_ne by done. by rewrite lookup_insert_eq.
  - rewrite Hhigh, !lookup_insert_ne by done. by rewrite lookup_singleton_eq.
Qed.

Lemma load_messages_reads_first_bank_witness :
  Main.load_messages [None; Some (Some (JObject {[ "low"%string := JList [JStr "a"; JInt 7] ]}));
                      Some None] !! "low"%string
  = Some ["a"; "7"]%string.
Proof.
  assert (∀ (key : string) (default : list string),
            (key, default) ∈ tiers →
            ({[ "low"%string := JList [JStr "a"; JInt 7] ]} : gmap string json_value) !! key
            ≠ Some JScalar) as Hgood.
  { intros key default _. destruct (decide (key = "low"%string)) as [->|Hne].
    - by rewrite lookup_singleton_eq.
    - by rewrite lookup_singleton_ne. }
  etrans;
    [exact (load_messages_reads_first_bank 1 _ [Some None] Hgood
              "low"%string Main.default_low ltac:(left))
    |vm_compute; reflexivity].
Defined.

(** [load_messages] returns the defaults for all three tiers when no
    candidate exists, and when the first existing candidate does not load, is
    no object, or has one tier that cannot be iterated, whatever the other
    tiers and the later candidates hold. *)
Theorem load_messages_falls_back :
  (∀ missing : nat, Main.load_messages (replicate missing None) = Main.defaults)
  ∧ (∀ (missing : nat) (c : option json_document)
       (later : list (option (option json_document))),
        unusable c →
        Main.load_messages (replicate missing None ++ Some c :: later) = Main.defaults).
Proof.
  split.
  - intros missing. unfold Main.load_messages.
    replace (Main.first_existing (replicate missing None))
      with (@None (option json_document)); [done|].
    induction missing as [|n IH]; [done|]. exact IH.
  - intros missing c later Hbad. unfold Main.load_messages.
    rewrite first_existing_skip.
    destruct Hbad as [->|[->|(data & key & default & -> & Hkey & Hscalar)]]; [done..|].
    unfold tiers in Hkey. rewrite !elem_of_cons, elem_of_nil in Hkey.
    unfold Main.tier_of.
    destruct Hkey as [[= -> ->]|[[= -> ->]|[[= -> ->]|[]]]]; rewrite Hscalar; cbn.
    + done.
    + by destruct (match data !! "low"%string with Some v => _ | None => _ end).
    + destruct (match data !! "low"%string with Some v => _ | None => _ end); [|done].
      by destruct (match data !! "mid"%string with Some v => _ | None => _ end).
Qed.

Lemma load_messages_falls_back_witness :
  Main.load_messages
    [None; Some (Some (JObject {[ "mid"%string := JScalar ]}));
     Some (Some (JObject ∅))]
  = Main.defaults.
Proof.
  apply (proj2 load_messages_falls_back 1%nat
           (Some (JObject {[ "mid"%string := JScalar ]})) [Some (Some (JObject ∅))]).
  right. right. exists {[ "mid"%string := JScalar ]}, "mid"%string, Main.default_mid.
  split; [reflexivity|]. split; [right; left|]. apply lookup_singleton_eq.
Defined.

(** ** The session *)

Lemma string_append_assoc (a b c : string) :
  String.append (String.append a b) c = String.append a (String.append b c).
Proof.
  induction a as [|x a IH]; [done|].
  change (String x (String.append (String.append a b) c)
          = String x (String.append a (String.append b c))).
  by rewrite IH.
Qed.

Lemma appended_cons `{RT : Runtime} (before : option string) (r : row) (rows : list row) :
  appended (Some (String.append (default EmptyString before) (csv_writerow r))) rows
  = appended before (r :: rows).
Proof.
  unfold appended. destruct rows as [|r' rows].
  - unfold Main.written. cbn [foldr]. by rewrite append_empty.
  - cbn [default]. unfold id. rewrite string_append_assoc. done.
Qed.

Lemma session_of_and_continue {A} (r : result A) (s : MainLoop.session) :
  MainLoop.session_of (MainLoop.and_continue r s) = s.
Proof. by destruct r. Qed.

(** What one score entry does, once the recent messages are read. *)
Lemma record_score_effect `{RT : Runtime} `{TX : Text} (draw : nat → nat) (today : Z)
    (messages : gmap string (list string)) (score : Z) (s : MainLoop.session)
    (recent : gset string) :
  Main.read_recent_messages today 30 (MainLoop.log s) = Ok recent →
  let o := MainLoop.record_score draw today messages score s in
  ∃ first : string,
    Main.choose_message (draw (MainLoop.choices s)) score messages None (Some recent) = Ok first
    ∧ match MainLoop.stdin s with
      | swap_line :: note_line :: rest =>
          ∃ msg : string,
            msg ∈ Main.tier_pool score messages
            ∧ (str_lower (str_strip swap_line) ∉ MainLoop.yes_words → msg = first)
            ∧ (str_lower (str_strip swap_line) ∈ MainLoop.yes_words →
               Main.choose_message (draw (S (MainLoop.choices s))) score messages
                 (Some first) (Some recent) = Ok msg)
            ∧ MainLoop.log (MainLoop.session_of o)
              = (Main.append_record (date_isoformat today) score msg (str_strip note_line)
                   (MainLoop.log s)).2
            ∧ MainLoop.stdin (MainLoop.session_of o) = rest
            ∧ o = MainLoop.and_continue
                    (Main.show_recent_stats_series today 7
                       (MainLoop.log (MainLoop.session_of o)))
                    (MainLoop.session_of o)
      | _ =>
          MainLoop.log (MainLoop.session_of o) = MainLoop.log s
          ∧ o = MainLoop.InputEnds (MainLoop.session_of o)
          ∧ (length (MainLoop.stdin (MainLoop.session_of o))
             ≤ length (MainLoop.stdin s))%nat
      end.
Proof.
  intros Hrecent o. subst o. unfold MainLoop.record_score. rewrite Hrecent.
  destruct (choose_message_from_pool (draw (MainLoop.choices s)) score messages None
              (Some recent)) as (first & Hfirst & Hin & _).
  exists first. split; [done|]. rewrite Hfirst.
  destruct s as [w lines n]. cbn [MainLoop.stdin MainLoop.log MainLoop.choices].
  destruct lines as [|swap_line [|note_line rest]].
  - cbn. repeat split; lia.
  - destruct (decide (str_lower (str_strip swap_line) ∈ MainLoop.yes_words)).
    + destruct (choose_message_from_pool (draw (S n)) score messages (Some first)
                  (Some recent)) as (m2 & -> & _). cbn. repeat split; lia.
    + cbn. repeat split; lia.
  - destruct (decide (str_lower (str_strip swap_line) ∈ MainLoop.yes_words)) as [Hyes|Hno].
    + destruct (choose_message_from_pool (draw (S n)) score messages (Some first)
                  (Some recent)) as (m2 & Hm2 & Hin2 & _).
      rewrite Hm2. cbn [mbind result_bind mret result_ret MainLoop.stdin MainLoop.log
                         MainLoop.choices].
      exists m2. rewrite session_of_and_continue. cbn [MainLoop.log MainLoop.stdin].
      assert ((if decide (m2 ≠ first) then m2 else first) = m2) as ->.
      { destruct (decide (m2 ≠ first)) as [Hd|Hd]; [done|]. by apply dec_stable in Hd. }
      repeat split; done.
    + cbn [mret result_ret MainLoop.stdin MainLoop.log MainLoop.choices].
      exists first. rewrite session_of_and_continue. cbn [MainLoop.log MainLoop.stdin].
      repeat split; done.
Qed.

Lemma visualise_keeps_log `{RT : Runtime} (export_png export_html : Z → world → result unit)
    (today : Z) (s : MainLoop.session) :
  let o := MainLoop.visualise export_png export_html today s in
  MainLoop.log (MainLoop.session_of o) = MainLoop.log s
  ∧ (length (MainLoop.stdin (MainLoop.session_of o)) ≤ length (MainLoop.stdin s))%nat.
Proof.
  cbn zeta. unfold MainLoop.visualise. destruct s as [w lines n].
  cbn [MainLoop.stdin MainLoop.log MainLoop.choices].
  destruct lines as [|line rest]; [done|].
  repeat (destruct (decide _); [rewrite session_of_and_continue; cbn; split; [done|lia]|]).
  destruct (decide _).
  - destruct rest as [|line' rest']; [cbn; split; [done|lia]|].
    rewrite session_of_and_continue. cbn. split; [done|lia].
  - cbn. split; [done|lia].
Qed.

Lemma diary_keeps_log `{RT : Runtime} (s : MainLoop.session) :
  let o := MainLoop.diary s in
  MainLoop.log (MainLoop.session_of o) = MainLoop.log s
  ∧ (length (MainLoop.stdin (MainLoop.session_of o)) ≤ length (MainLoop.stdin s))%nat.
Proof.
  cbn zeta. unfold MainLoop.diary. destruct s as [w lines n].
  cbn [MainLoop.stdin MainLoop.log MainLoop.choices].
  destruct lines as [|line rest]; [done|].
  rewrite session_of_and_continue. cbn. split; [done|lia].
Qed.

(** A turn of the loop whose line is a command, or is not an integer from 1
    to 10, leaves the log as it was. *)
Theorem main_iteration_keeps_log_without_score `{RT : Runtime} `{TX : Text}
    (export_png export_html : Z → world → result unit) (draw : nat → nat) (today : Z)
    (messages : gmap string (list string)) (s : MainLoop.session) :
  (∀ line rest,
      MainLoop.stdin s = line :: rest →
      str_lower (str_strip line) ∈ commands
      ∨ ∀ score, int_of_str (str_strip line) = Ok score → ¬ (1 ≤ score ≤ 10)) →
  MainLoop.log
    (MainLoop.session_of
       (MainLoop.main_iteration export_png export_html draw today messages s))
  = MainLoop.log s.
Proof.
  intros Hline. unfold MainLoop.main_iteration.
  destruct (Main.read_existing_for_date _ _) as [existing|e]; [|done].
  destruct s as [w lines n]. cbn [MainLoop.stdin MainLoop.log MainLoop.choices] in *.
  destruct lines as [|line rest]; [done|].
  destruct (decide (_ ∈ MainLoop.no_words)) as [|Hn]; [done|].
  destruct (decide (_ = "v"%string)) as [|Hv].
  { apply (visualise_keeps_log export_png export_html today (MainLoop.Session w rest n)). }
  destruct (decide (_ = "d"%string)) as [|Hd].
  { apply (diary_keeps_log (MainLoop.Session w rest n)). }
  destruct (Hline line rest eq_refl) as [Hcmd|Hnot].
  { unfold commands in Hcmd. rewrite elem_of_app, !elem_of_cons, elem_of_nil in Hcmd.
    tauto. }
  destruct (int_of_str (str_strip line)) as [score|e] eqn:Hint; [|done].
  specialize (Hnot score eq_refl).
  destruct (Z.leb_spec 1 score); [destruct (Z.leb_spec score 10)|]; cbn [andb]; try done.
  lia.
Qed.

Lemma main_iteration_keeps_log_without_score_witness :
  MainLoop.log
    (MainLoop.session_of
       (MainLoop.main_iteration (RT := Ref.runtime) (TX := Ref.text) quiet quiet id
          jan_3_2024 Main.defaults (MainLoop.Session ragged_log ["11"; "y"; "note"]%string 0)))
  = ragged_log.
Proof.
  apply (main_iteration_keeps_log_without_score (RT := Ref.runtime) (TX := Ref.text)
           quiet quiet id jan_3_2024 Main.defaults
           (MainLoop.Session ragged_log ["11"; "y"; "note"]%string 0)).
  intros line rest [= <- <-]. right. intros score [= <-]. lia.
Defined.



Lemma main_iteration_step `{RT : Runtime} `{TX : Text}
    (export_png export_html : Z → world → result unit) (draw : nat → nat) (today : Z)
    (messages : gmap string (list string)) (s : MainLoop.session) :
  let o := MainLoop.main_iteration export_png export_html draw today messages s in
  let s' := MainLoop.session_of o in
  ((∃ s'', o = MainLoop.Continues s'') →
   (length (MainLoop.stdin s') < length (MainLoop.stdin s))%nat)
  ∧ (MainLoop.log s' = MainLoop.log s
     ∨ ∃ r, recorded today messages r
            ∧ MainLoop.log s'
              = {| csv_file :=
                     Some (String.append (default EmptyString (csv_file (MainLoop.log s)))
                             (csv_writerow r));
                   rewrites := rewrites (MainLoop.log s) |}
            ∧ (length (MainLoop.stdin s') + 3 ≤ length (MainLoop.stdin s))%nat).
Proof.
  cbn zeta. unfold MainLoop.main_iteration.
  destruct (Main.read_existing_for_date _ _) as [existing|e];
    [|split; [by intros [? [=]]|by left]].
  destruct s as [w lines n]. cbn [MainLoop.stdin MainLoop.log MainLoop.choices] in *.
  destruct lines as [|line rest]; [split; [by intros [? [=]]|by left]|].
  destruct (decide (_ ∈ MainLoop.no_words)) as [|Hn];
    [split; [by intros [? [=]]|by left]|].
  destruct (decide (_ = "v"%string)) as [|Hv].
  { destruct (visualise_keeps_log export_png export_html today (MainLoop.Session w rest n))
      as [Hlog Hlen]. cbn [MainLoop.stdin MainLoop.log] in Hlog, Hlen.
    split; [intros _; cbn [length]; lia|by left]. }
  destruct (decide (_ = "d"%string)) as [|Hd].
  { destruct (diary_keeps_log (MainLoop.Session w rest n)) as [Hlog Hlen].
    cbn [MainLoop.stdin MainLoop.log] in Hlog, Hlen.
    split; [intros _; cbn [length]; lia|by left]. }
  destruct (int_of_str (str_strip line)) as [score|e] eqn:Hint;
    [|split; [intros _; cbn; lia|by left]].
  destruct (Z.leb_spec 1 score); [destruct (Z.leb_spec score 10)|]; cbn [andb];
    try (split; [intros _; cbn; lia|by left]).
  destruct (Main.read_recent_messages today 30 w) as [recent|e] eqn:Hrecent.
  2:{ unfold MainLoop.record_score. cbn [MainLoop.log]. rewrite Hrecent.
      split; [by intros [? [=]]|by left]. }
  pose proof (record_score_effect draw today messages score (MainLoop.Session w rest n)
                recent Hrecent) as Heff.
  cbn zeta in Heff. destruct Heff as (first & Hfirst & Heff).
  cbn [MainLoop.stdin MainLoop.log] in Heff.
  destruct rest as [|swap_line [|note_line rest]].
  - destruct Heff as (Hlog & -> & Hlen). split; [by intros [? [=]]|by left].
  - destruct Heff as (Hlog & -> & Hlen). split; [by intros [? [=]]|by left].
  - destruct Heff as (msg & Hmsg & _ & _ & Hlog & Hrest & _).
    split; [intros _; rewrite Hrest; cbn [length]; lia|].
    right. exists [date_isoformat today; str_of_int score; msg; str_strip note_line].
    split; [|split].
    + exists score, msg, (str_strip note_line). repeat split; (done || lia).
    + rewrite Hlog. reflexivity.
    + rewrite Hrest. cbn [length]. lia.
Qed.

Lemma main_loop_appends `{RT : Runtime} `{TX : Text}
    (export_png export_html : Z → world → result unit) (draw : nat → nat) (today : Z)
    (messages : gmap string (list string)) (s : MainLoop.session) :
  ∃ (o : MainLoop.outcome) (rows : list row),
    MainLoop.main_loop export_png export_html draw today
      (S (length (MainLoop.stdin s))) messages s = Some o
    ∧ (∀ s', o ≠ MainLoop.Continues s')
    ∧ rewrites (MainLoop.log (MainLoop.session_of o)) = rewrites (MainLoop.log s)
    ∧ csv_file (MainLoop.log (MainLoop.session_of o))
      = appended (csv_file (MainLoop.log s)) rows
    ∧ Forall (recorded today messages) rows
    ∧ (3 * length rows ≤ length (MainLoop.stdin s))%nat.
Proof.
  assert (∀ (fuel : nat) (s : MainLoop.session),
            (length (MainLoop.stdin s) < fuel)%nat →
            ∃ (o : MainLoop.outcome) (rows : list row),
              MainLoop.main_loop export_png export_html draw today fuel messages s = Some o
              ∧ (∀ s', o ≠ MainLoop.Continues s')
              ∧ rewrites (MainLoop.log (MainLoop.session_of o)) = rewrites (MainLoop.log s)
              ∧ csv_file (MainLoop.log (MainLoop.session_of o))
                = appended (csv_file (MainLoop.log s)) rows
              ∧ Forall (recorded today messages) rows
              ∧ (3 * length rows ≤ length (MainLoop.stdin s))%nat) as Hloop.
  { clear s. induction fuel as [|fuel IH]; intros s Hfuel; [lia|].
    cbn [MainLoop.main_loop].
    pose proof (main_iteration_step export_png export_html draw today messages s) as Hstep.
    cbn zeta in Hstep. destruct Hstep as [Hless Hlog].
    destruct (MainLoop.main_iteration export_png export_html draw today messages s)
      as [s1|s1|e s1|s1] eqn:Hit; cbn [MainLoop.session_of] in Hless, Hlog.
    - specialize (Hless (ex_intro _ s1 eq_refl)).
      destruct (IH s1) as (o & rows & Ho & Hstop & Hrew & Hfile & Hrec & Hlen); [lia|].
      destruct Hlog as [Hsame | (r & Hr & Hw & Hthree)].
      + exists o, rows. rewrite Hsame in Hrew, Hfile. repeat split; try done. lia.
      + exists o, (r :: rows). rewrite Hw in Hrew, Hfile. cbn [rewrites csv_file] in Hrew, Hfile.
        rewrite appended_cons in Hfile.
        repeat split; try done; [by constructor|cbn [length]; lia].
    - destruct Hlog as [Hsame | (r & Hr & Hw & Hthree)].
      + exists (MainLoop.Returns s1), []. cbn [MainLoop.session_of]. rewrite Hsame.
        repeat split; try done. cbn [length]. lia.
      + exists (MainLoop.Returns s1), [r]. cbn [MainLoop.session_of]. rewrite Hw.
        cbn [rewrites csv_file]. rewrite <- appended_cons.
        repeat split; try done; [by repeat constructor|cbn [length]; lia].
    - destruct Hlog as [Hsame | (r & Hr & Hw & Hthree)].
      + exists (MainLoop.Raises e s1), []. cbn [MainLoop.session_of]. rewrite Hsame.
        repeat split; try done. cbn [length]. lia.
      + exists (MainLoop.Raises e s1), [r]. cbn [MainLoop.session_of]. rewrite Hw.
        cbn [rewrites csv_file]. rewrite <- appended_cons.
        repeat split; try done; [by repeat constructor|cbn [length]; lia].
    - destruct Hlog as [Hsame | (r & Hr & Hw & Hthree)].
      + exists (MainLoop.InputEnds s1), []. cbn [MainLoop.session_of]. rewrite Hsame.
        repeat split; try done. cbn [length]. lia.
      + exists (MainLoop.InputEnds s1), [r]. cbn [MainLoop.session_of]. rewrite Hw.
        cbn [rewrites csv_file]. rewrite <- appended_cons.
        repeat split; try done; [by repeat constructor|cbn [length]; lia]. }
  apply Hloop. lia.
Qed.

(** On every finite input [main] ends, within one turn for each line: it
    returns, raises, or runs out of input.  The log it leaves is the log
    [ensure_storage] left with rows appended, each of them today, a score
    from 1 to 10, a message of the tier and a note; three lines are read for
    each row; and the file was opened for rewriting at most once. *)
Theorem main_only_appends `{RT : Runtime} `{TX : Text}
    (export_png export_html : Z → world → result unit) (draw : nat → nat) (today : Z)
    (candidates : list (option (option json_document))) (w : world) (lines : list string) :
  ∃ (o : MainLoop.outcome) (rows : list row),
    MainLoop.main export_png export_html draw today (S (length lines)) candidates w lines
    = Some o
    ∧ (∀ s', o ≠ MainLoop.Continues s')
    ∧ csv_file (MainLoop.log (MainLoop.session_of o))
      = appended (csv_file (Main.ensure_storage w).2) rows
    ∧ Forall (recorded today (Main.load_messages candidates)) rows
    ∧ (3 * length rows ≤ length lines)%nat
    ∧ (rewrites (MainLoop.log (MainLoop.session_of o)) ≤ S (rewrites w))%nat.
Proof.
  unfold MainLoop.main.
  destruct (main_loop_appends export_png export_html draw today
              (Main.load_messages candidates)
              (MainLoop.Session (Main.ensure_storage w).2 lines 0))
    as (o & rows & Ho & Hstop & Hrew & Hfile & Hrec & Hlen).
  cbn [MainLoop.stdin MainLoop.log] in *.
  exists o, rows. repeat split; try done. rewrite Hrew.
  unfold Main.ensure_storage. destruct (csv_file w); [|cbn; lia].
  destruct (upgrade_cases w) as [-> | [rows' ->]]; cbn; lia.
Qed.
